(** * A ReAct agent demo (LangGraph + tools): shallow embedding and properties

    The development follows the repository's layout:

    - [Py]          the few Python string operations the tools rely on;
    - [Agent]       [src/agents/react_agent.py]: messages, the agent node, the
                    continuation predicate, the two-node graph, and the
                    driver of the graph library, whose step limit and whose
                    test of it are parameters ([GraphLibrary]);
    - [PyFloat]     Python's [float] (IEEE 754 binary64) where the tools use it;
    - [Search]      [src/tools/search.py]: [web_search], [get_weather];
    - [Calculator]  [src/tools/calculator.py]: [calculator] and the part of
                    Python's [eval] it relies on;
    - [Prompts]     [src/prompts/react_prompts.py]: the prompts and the
                    human-message template;
    - [Helpers]     [src/utils/helpers.py]: the display of messages, steps
                    and conversations, and the banner;
    - [Settings]    [config/settings.py]: the agent configuration record;
    - [Factory]     [src/agents/react_agent.py]: the constructor and
                    [create_react_agent];
    - [Stdin]       the standard input, as [input()] reads it;
    - [Main]        [main.py]: the demo and single-query front ends;
    - [App]         [main.py]: the interactive mode and [main].

    Part II states and proves the properties, module by module
    ([AgentFacts], [MainFacts], [FactoryFacts], [AppFacts], [TextFacts],
    [PromptsFacts], [HelpersFacts], [SearchFacts], [CalculatorFacts]).

    Text is modelled as [string] (the UTF-8 bytes of the Python text).
    [Py.lower] and [Py.title] are the case conversions of text in ASCII; the
    tools of [Search] are modelled for every case conversion of Unicode
    text, which they take as parameters. What is not in the repository (the
    graph library, the model, the interpreter's library) is a parameter of
    the definitions that use it. *)

From Stdlib Require Import ZArith List String Ascii Bool Lia Arith.
From Stdlib Require Import Numbers.DecimalString Numbers.DecimalFacts.
From Stdlib Require Import Numbers.DecimalPos.
From Stdlib Require Import Floats.SpecFloat.
Import ListNotations.

Set Implicit Arguments.

Open Scope string_scope.
Open Scope list_scope.

(* ================================================================= *)
(** * Part I: the embedding *)
(* ================================================================= *)

(** ** Python text helpers *)

Module Py.

Definition is_upper (c : ascii) : bool :=
  let n := nat_of_ascii c in Nat.leb 65 n && Nat.leb n 90.

Definition is_lower (c : ascii) : bool :=
  let n := nat_of_ascii c in Nat.leb 97 n && Nat.leb n 122.

Definition lower_char (c : ascii) : ascii :=
  if is_upper c then ascii_of_nat (nat_of_ascii c + 32) else c.

Definition upper_char (c : ascii) : ascii :=
  if is_lower c then ascii_of_nat (nat_of_ascii c - 32) else c.

(** [str.isascii()]: every byte of the text is below 128. *)
Fixpoint is_ascii (s : string) : bool :=
  match s with
  | EmptyString => true
  | String c r => Nat.ltb (nat_of_ascii c) 128 && is_ascii r
  end.

(** [str.lower()] on text in ASCII: the letters [A-Z] become [a-z]. On other
    text the interpreter converts by the tables of its Unicode database,
    which this function does not hold: it leaves the bytes of a character
    outside ASCII as they are. *)
Fixpoint lower (s : string) : string :=
  match s with
  | EmptyString => EmptyString
  | String c r => String (lower_char c) (lower r)
  end.

(** [str.title()] on text in ASCII: the first letter of every run of letters
    in upper case, the other letters of the run in lower case. *)
Fixpoint title_from (previous_is_cased : bool) (s : string) : string :=
  match s with
  | EmptyString => EmptyString
  | String c r =>
      let cased := is_upper c || is_lower c in
      String (if cased
              then (if previous_is_cased then lower_char c else upper_char c)
              else c)
             (title_from cased r)
  end.

Definition title (s : string) : string := title_from false s.

(** [needle in hay] on text. *)
Fixpoint contains (needle hay : string) : bool :=
  prefix needle hay ||
  match hay with
  | EmptyString => false
  | String _ r => contains needle r
  end.

(** The characters [str.split()] treats as separators in ASCII text. *)
Definition is_space (c : ascii) : bool :=
  let n := nat_of_ascii c in
  (Nat.leb 9 n && Nat.leb n 13) || (Nat.leb 28 n && Nat.leb n 32).

Fixpoint split_from (word s : string) : list string :=
  match s with
  | EmptyString =>
      match word with EmptyString => [] | _ => [word] end
  | String c r =>
      if is_space c
      then match word with
           | EmptyString => split_from EmptyString r
           | _ => word :: split_from EmptyString r
           end
      else split_from (word ++ String c EmptyString) r
  end.

(** [str.split()] with no argument. *)
Definition split (s : string) : list string := split_from EmptyString s.

(** [sep.join(items)]. *)
Definition join (sep : string) (items : list string) : string :=
  String.concat sep items.

(** [str(n)] of an integer. *)
Definition str_int (z : Z) : string := NilZero.string_of_int (Z.to_int z).

(** [any(...)] and the truth value of a list. *)
Definition any {A} (p : A -> bool) (l : list A) : bool := existsb p l.

Definition truthy {A} (l : list A) : bool :=
  match l with [] => false | _ :: _ => true end.

(** *** Characters, slices, blanks and defaults *)

(** A byte [10xxxxxx] continues the character its lead byte started. *)
Definition is_continuation (c : ascii) : bool :=
  let n := nat_of_ascii c in Nat.leb 128 n && Nat.leb n 191.

(** [len(s)]: the number of characters of the text. *)
Fixpoint len (s : string) : nat :=
  match s with
  | EmptyString => 0
  | String c r => if is_continuation c then len r else S (len r)
  end.

(** [s[:n]] for [n >= 0]: the first [n] characters. *)
Fixpoint take_chars (n : nat) (s : string) : string :=
  match s with
  | EmptyString => EmptyString
  | String c r =>
      if is_continuation c then String c (take_chars n r)
      else match n with
           | O => EmptyString
           | S k => String c (take_chars k r)
           end
  end.

(** [s * n]. *)
Fixpoint repeat (s : string) (n : nat) : string :=
  match n with
  | O => EmptyString
  | S k => (s ++ repeat s k)%string
  end.

(** The white space outside ASCII, in UTF-8: two bytes for U+0085 and
    U+00A0, three bytes for U+1680, U+2000 to U+200A, U+2028, U+2029,
    U+202F, U+205F and U+3000. *)
Definition is_space2 (a b : ascii) : bool :=
  Nat.eqb (nat_of_ascii a) 194
  && (Nat.eqb (nat_of_ascii b) 133 || Nat.eqb (nat_of_ascii b) 160).

Definition is_space3 (a b c : ascii) : bool :=
  let x := nat_of_ascii a in
  let y := nat_of_ascii b in
  let z := nat_of_ascii c in
  (Nat.eqb x 225 && Nat.eqb y 154 && Nat.eqb z 128)
  || (Nat.eqb x 226 && Nat.eqb y 128
      && ((Nat.leb 128 z && Nat.leb z 138)
          || Nat.eqb z 168 || Nat.eqb z 169 || Nat.eqb z 175))
  || (Nat.eqb x 226 && Nat.eqb y 129 && Nat.eqb z 159)
  || (Nat.eqb x 227 && Nat.eqb y 128 && Nat.eqb z 128).

(** [str.lstrip()] with no argument: the white space of Unicode at the
    start is dropped. *)
Fixpoint lstrip (s : string) : string :=
  match s with
  | EmptyString => EmptyString
  | String c r =>
      if is_space c then lstrip r
      else
        match r with
        | String c2 r2 =>
            if is_space2 c c2 then lstrip r2
            else
              match r2 with
              | String c3 r3 => if is_space3 c c2 c3 then lstrip r3 else s
              | EmptyString => s
              end
        | EmptyString => s
        end
  end.

(** [str.rstrip()] with no argument: what is left when the longest end made
    of white space is dropped. *)
Fixpoint rstrip (s : string) : string :=
  match s with
  | EmptyString => EmptyString
  | String c r =>
      match lstrip s with
      | EmptyString => EmptyString
      | _ => String c (rstrip r)
      end
  end.

(** [str.strip()] with no argument. *)
Definition strip (s : string) : string := rstrip (lstrip s).

(** The truth value of an optional text: [None] and the empty text are
    false. *)
Definition truthy_text (a : option string) : bool :=
  match a with
  | Some (String _ _) => true
  | _ => false
  end.

(** [a or b] on optional texts. *)
Definition or_else (a b : option string) : option string :=
  if truthy_text a then a else b.

End Py.

(** ** [src/agents/react_agent.py] *)

Module Agent.

(** A tool call requested by the model: tool name, arguments, identifier.
    The arguments are kept as the list of (parameter, text) pairs. *)
Record ToolCall := mkToolCall {
  tc_name : string;
  tc_args : list (string * string);
  tc_id : string
}.

(** [langchain_core.messages]: the four message classes the agent handles.
    Only [AIMessage] has a [tool_calls] attribute. *)
Inductive Message :=
| SystemMessage (content : string)
| HumanMessage (content : string)
| AIMessage (content : string) (tool_calls : list ToolCall)
| ToolMessage (content : string) (name : string) (tool_call_id : string).

Definition content (m : Message) : string :=
  match m with
  | SystemMessage c | HumanMessage c | AIMessage c _ | ToolMessage c _ _ => c
  end.

(** [isinstance(m, SystemMessage)]. *)
Definition is_SystemMessage (m : Message) : bool :=
  match m with SystemMessage _ => true | _ => false end.

(** [AgentState]: a dictionary with the single key ["messages"]. *)
Definition AgentState := list Message.

(** The [add_messages] reducer of the graph library, on an update whose
    messages carry identifiers that the log does not hold yet: the update is
    appended to the log. (A message with the identifier of a stored one
    would replace it; the messages of a run get their identifiers from the
    chat model, one per call, and from the reducer itself, which draws a new
    one for a message that has none.) *)
Definition add_messages (left right : list Message) : list Message :=
  (left ++ right)%list.

(** [state["messages"][-1]]: [None] stands for Python's [IndexError]. *)
Definition last_message (st : AgentState) : option Message :=
  List.last (List.map Some st) None.

(** The two node names and the targets of an edge. *)
Inductive Node := agent | tools.
Inductive Target := To (n : Node) | END.

(** What a run of the compiled graph can end in. [GraphRecursionError] keeps
    the log of the super-steps counted against the limit, for observation
    only: the caller of the library gets the exception alone. *)
Inductive Failure :=
| ModelCallError (detail : string)
| IndexError
| KeyError (label : string)
| ValueError (detail : string)
| ToolRaised (exception : string).

Inductive GraphResult :=
| Finished (st : AgentState)
| GraphRecursionError (st : AgentState)
| Raised (e : Failure).

Inductive StepResult :=
| Next (n : Node) (st : AgentState)
| Done (st : AgentState)
| Failed (e : Failure).

(** The graph library behind [StateGraph.compile()] is not part of the
    repository, and the repository fixes no version of it; its driver is
    modelled by [superstep] and [pregel_loop] below. Two things differ from
    one version of the library to another and are left open here: the
    default bound on the number of super-steps of one run, which a caller
    overrides with [config={"recursion_limit": n}], and whether the driver
    tests that bound before it looks for the work that is left, so that a
    run whose last allowed super-step reaches [END] is given up all the
    same. *)
Record GraphLibrary := mkGraphLibrary {
  DEFAULT_RECURSION_LIMIT : nat;
  limit_tested_first : bool
}.

Section ReActAgent.

(** The graph library that is installed. *)
Variable langgraph : GraphLibrary.

(** The model with the tools bound ([self.llm_with_tools.invoke]): it answers
    a conversation with an assistant message (text and tool calls), or the
    call fails. *)
Variable llm_with_tools : list Message -> string * list ToolCall + string.

(** What running one tool call gives [ToolNode]: the content of the
    [ToolMessage] that answers the call (the tool's output, or the text
    [ToolNode] makes of an unknown tool or of an exception of the tool that
    it handles), or the name of the class of an exception that [ToolNode]
    lets through. Which exceptions it handles depends on the version of the
    library; none handles one that is no [Exception]. *)
Variable run_tool : ToolCall -> string + string.

Variable system_prompt : string.

(** The conversation handed to the model by [_agent_node] (lines 138-142). *)
Definition model_input (messages : list Message) : list Message :=
  match messages with
  | [] => SystemMessage system_prompt :: messages
  | m :: _ =>
      if negb (is_SystemMessage m)
      then SystemMessage system_prompt :: messages
      else messages
  end.

(** [_agent_node]: the update [{"messages": [response]}]. *)
Definition _agent_node (state : AgentState) : list Message + Failure :=
  let messages := model_input state in
  match llm_with_tools messages with
  | inl (text, calls) => inl [AIMessage text calls]
  | inr detail => inr (ModelCallError detail)
  end.

(** [_should_continue]. *)
Definition _should_continue (state : AgentState) : option string :=
  match last_message state with
  | None => None
  | Some (AIMessage _ tool_calls) =>
      if Py.truthy tool_calls then Some "continue"%string else Some "end"%string
  | Some _ => Some "end"%string
  end.

(** [ToolNode(self.tools)]: one [ToolMessage] per tool call of the latest
    assistant message, in order; the node refuses a log that does not end
    with an assistant message. *)
Fixpoint run_tools (tool_calls : list ToolCall) : list Message + Failure :=
  match tool_calls with
  | [] => inl []
  | tc :: rest =>
      match run_tool tc with
      | inr exception => inr (ToolRaised exception)
      | inl output =>
          match run_tools rest with
          | inl outputs =>
              inl (ToolMessage output (tc_name tc) (tc_id tc) :: outputs)
          | inr e => inr e
          end
      end
  end.

Definition tool_node (state : AgentState) : list Message + Failure :=
  match last_message state with
  | Some (AIMessage _ tool_calls) => run_tools tool_calls
  | _ => inr (ValueError "Last message is not an AIMessage")
  end.

(** [_build_graph]: the two nodes, the entry point, the conditional edges
    of [agent], the edge of [tools]. *)
Definition node (n : Node) (state : AgentState) : list Message + Failure :=
  match n with
  | agent => _agent_node state
  | tools => tool_node state
  end.

Definition entry_point : Node := agent.

Definition conditional_edges (label : string) : option Target :=
  if String.eqb label "continue" then Some (To tools)
  else if String.eqb label "end" then Some END
  else None.

Definition edge (n : Node) (state : AgentState) : Target + Failure :=
  match n with
  | agent =>
      match _should_continue state with
      | None => inr IndexError
      | Some label =>
          match conditional_edges label with
          | Some target => inl target
          | None => inr (KeyError label)
          end
      end
  | tools => inl (To agent)
  end.

(** One super-step of the compiled graph: run the node, merge its update
    into the state, follow the edge. *)
Definition superstep (n : Node) (st : AgentState) : StepResult :=
  match node n st with
  | inr e => Failed e
  | inl update =>
      let st' := add_messages st update in
      match edge n st' with
      | inl (To n') => Next n' st'
      | inl END => Done st'
      | inr e => Failed e
      end
  end.

(** How a run ends whose super-step has reached [END], [left] super-steps
    being left of its limit: it finishes, unless that super-step was the
    last one allowed and the library tests the limit first. *)
Definition reached_END (left : nat) (st : AgentState) : GraphResult :=
  match left with
  | O =>
      if limit_tested_first langgraph then GraphRecursionError st
      else Finished st
  | S _ => Finished st
  end.

(** The driver: a run that has not reached [END] within [recursion_limit]
    super-steps is abandoned with [GraphRecursionError]. *)
Fixpoint pregel_loop (recursion_limit : nat) (n : Node) (st : AgentState)
  : GraphResult :=
  match recursion_limit with
  | O => GraphRecursionError st
  | S k =>
      match superstep n st with
      | Next n' st' => pregel_loop k n' st'
      | Done st' => reached_END k st'
      | Failed e => Raised e
      end
  end.

(** [self.graph.invoke(initial_state)]: no configuration is passed, so the
    library's default limit applies. *)
Definition graph_invoke (initial_state : AgentState) : GraphResult :=
  pregel_loop (DEFAULT_RECURSION_LIMIT langgraph) entry_point initial_state.

(** [ReActAgent.invoke]. *)
Definition invoke (query : string) : string + GraphResult :=
  let initial_state := [HumanMessage query] in
  match graph_invoke initial_state with
  | Finished messages =>
      match last_message messages with
      | Some final_message => inl (content final_message)
      | None => inr (Raised IndexError)
      end
  | failure => inr failure
  end.

(** [self.graph.stream(initial_state)]: the updates the driver yields, one
    per super-step ([{node: update}]), and how the run ended. *)
Fixpoint pregel_stream (recursion_limit : nat) (n : Node) (st : AgentState)
  : list (Node * list Message) * GraphResult :=
  match recursion_limit with
  | O => ([], GraphRecursionError st)
  | S k =>
      match node n st with
      | inr e => ([], Raised e)
      | inl update =>
          match superstep n st with
          | Next n' st' =>
              let (chunks, r) := pregel_stream k n' st' in
              ((n, update) :: chunks, r)
          | Done st' => ([(n, update)], reached_END k st')
          | Failed e => ([], Raised e)
          end
      end
  end.

(** [ReActAgent.stream]. *)
Definition stream (query : string) : list (Node * list Message) * GraphResult :=
  pregel_stream (DEFAULT_RECURSION_LIMIT langgraph) entry_point
                [HumanMessage query].

(** *** Vocabulary for the properties *)

(** [steps c k c']: the driver gets from configuration [c] to [c'] in
    exactly [k] super-steps. *)
Inductive steps (c : Node * AgentState)
  : nat -> Node * AgentState -> Prop :=
| steps_O : steps c 0 c
| steps_S k n st n' st' :
    steps c k (n, st) ->
    superstep n st = Next n' st' ->
    steps c (S k) (n', st').

(** A run that needs [n] super-steps to reach [END] is within the limit
    of [invoke] and [stream]. *)
Definition within_limit (n : nat) : Prop :=
  if limit_tested_first langgraph
  then n < DEFAULT_RECURSION_LIMIT langgraph
  else n <= DEFAULT_RECURSION_LIMIT langgraph.

(** Every tool call returns to [ToolNode]. *)
Definition tools_return : Prop :=
  forall tc, exists output, run_tool tc = inl output.

(** A model that asks for at least one tool whatever it is shown. *)
Definition always_requests_tool : Prop :=
  forall messages, exists text calls,
    llm_with_tools messages = inl (text, calls) /\ calls <> [].

End ReActAgent.

Definition count_system (st : AgentState) : nat :=
  List.length (List.filter is_SystemMessage st).

Definition is_AIMessage (m : Message) : bool :=
  match m with AIMessage _ _ => true | _ => false end.

(** The number of assistant messages of a log: one per call of the model. *)
Definition model_calls (st : AgentState) : nat :=
  List.length (List.filter is_AIMessage st).

Definition is_ToolMessage (m : Message) : bool :=
  match m with ToolMessage _ _ _ => true | _ => false end.

(** What a run adds to a log: assistant messages and tool messages. *)
Definition added_by_run (m : Message) : Prop :=
  is_AIMessage m = true \/ is_ToolMessage m = true.

(** The messages the chunks of a stream carry, in order. *)
Definition streamed (chunks : list (Node * list Message)) : list Message :=
  List.flat_map snd chunks.

(** *** Scripted models and tools used as concrete instances *)

(** Two libraries: one gives up after 25 super-steps and lets the last of
    them finish a run, the other gives up after 7 and tests the limit
    first. *)
Definition library_25 : GraphLibrary := mkGraphLibrary 25 false.
Definition library_7 : GraphLibrary := mkGraphLibrary 7 true.

Definition time_call : ToolCall :=
  mkToolCall "get_current_time" [] "call_0".

Definition calculator_call : ToolCall :=
  mkToolCall "calculator" [("expression", "2 + 2")] "call_1".

(** Asks for a tool on every turn. *)
Definition looping_llm (_ : list Message) : string * list ToolCall + string :=
  inl (EmptyString, [time_call]).

(** Asks for the calculator once, then answers. *)
Definition scripted_llm (messages : list Message)
  : string * list ToolCall + string :=
  match last_message messages with
  | Some (ToolMessage result _ _) => inl (("The answer is " ++ result)%string, [])
  | _ => inl (EmptyString, [calculator_call])
  end.

Definition scripted_tool (tc : ToolCall) : string + string :=
  if String.eqb (tc_name tc) "calculator" then inl "Result: 4"
  else inl "unavailable".

(** A tool that ends in [SystemExit]. *)
Definition exiting_tool (_ : ToolCall) : string + string :=
  inr "SystemExit".

End Agent.

(** ** [src/prompts/react_prompts.py] *)

Module Prompts.

Definition REACT_SYSTEM_PROMPT : string :=
  "You are a helpful AI assistant that uses the ReAct (Reasoning + Acting) approach.

## Your Approach:
1. **Think** - Analyze the user's question and plan your approach
2. **Act** - Use available tools when needed to gather information
3. **Observe** - Process the results from tools
4. **Respond** - Provide a clear, helpful answer

## Available Tools:
You have access to the following tools:
- **calculator**: Evaluate mathematical expressions
- **add**: Add two numbers
- **multiply**: Multiply two numbers
- **web_search**: Search for information on any topic
- **get_current_time**: Get the current date and time
- **get_weather**: Get weather for a city

## Guidelines:
- Always think step-by-step before acting
- Use tools when you need external information or calculations
- Be concise but thorough in your responses
- If a tool fails, try an alternative approach
- Explain your reasoning when helpful

## Response Format:
- For factual questions: Provide direct, accurate answers
- For calculations: Show the result clearly
- For multi-step problems: Walk through your reasoning
".

Definition REACT_SYSTEM_PROMPT_SHORT : string :=
  "You are a helpful assistant using ReAct reasoning.
Think step-by-step, use tools when needed, and provide clear answers.
Available tools: calculator, web_search, get_current_time, get_weather.".

Definition HUMAN_TEMPLATE : string :=
  "
User Query: {query}

Please help me with this request. Use your available tools if needed.
".

(** [get_system_prompt]. *)
Definition get_system_prompt (verbose : bool) : string :=
  if verbose then REACT_SYSTEM_PROMPT else REACT_SYSTEM_PROMPT_SHORT.

(** [str.format] with keyword arguments, on templates whose replacement
    fields are plain names: literal text, the doubled braces, and [{name}] replaced by
    the keyword argument of that name. A field with a conversion, a format
    specification, an attribute or an index is outside this part
    ([FormatBeyond]). *)
Inductive format_result :=
| Formatted (text : string)
| FormatRaises (e : Agent.Failure)
| FormatBeyond.

Definition emit (text : string) (r : format_result) : format_result :=
  match r with
  | Formatted more => Formatted (text ++ more)%string
  | other => other
  end.

Fixpoint keyword (name : string) (kwargs : list (string * string))
  : option string :=
  match kwargs with
  | [] => None
  | (k, v) :: rest => if String.eqb name k then Some v else keyword name rest
  end.

Fixpoint all_digits (s : string) : bool :=
  match s with
  | EmptyString => true
  | String c r =>
      Nat.leb 48 (nat_of_ascii c) && Nat.leb (nat_of_ascii c) 57
      && all_digits r
  end.

(** The value of the field [{name}]: an empty or numeric name asks for a
    positional argument, and there is none. *)
Definition replacement (kwargs : list (string * string)) (name : string)
  : format_result :=
  if all_digits name then FormatRaises Agent.IndexError
  else match keyword name kwargs with
       | Some value => Formatted value
       | None => FormatRaises (Agent.KeyError name)
       end.

Definition starts_markup (c : ascii) : bool :=
  List.existsb (Ascii.eqb c) ["!"; ":"; "."; "["]%char.

(** [field] is the part of a field's name read so far, [None] outside a
    field. *)
Fixpoint format_from (kwargs : list (string * string)) (field : option string)
         (template : string) : format_result :=
  match template with
  | EmptyString =>
      match field with
      | None => Formatted EmptyString
      | Some _ =>
          FormatRaises (Agent.ValueError "expected '}' before end of string")
      end
  | String c rest =>
      match field with
      | Some name =>
          if Ascii.eqb c "}" then
            match replacement kwargs name with
            | Formatted value => emit value (format_from kwargs None rest)
            | other => other
            end
          else if Ascii.eqb c "{" then
            FormatRaises (Agent.ValueError "unexpected '{' in field name")
          else if starts_markup c then FormatBeyond
          else format_from kwargs (Some (name ++ String c EmptyString)%string)
                           rest
      | None =>
          if Ascii.eqb c "{" then
            match rest with
            | String "{" rest' => emit "{" (format_from kwargs None rest')
            | EmptyString =>
                FormatRaises
                  (Agent.ValueError "Single '{' encountered in format string")
            | _ => format_from kwargs (Some EmptyString) rest
            end
          else if Ascii.eqb c "}" then
            match rest with
            | String "}" rest' => emit "}" (format_from kwargs None rest')
            | _ =>
                FormatRaises
                  (Agent.ValueError "Single '}' encountered in format string")
            end
          else emit (String c EmptyString) (format_from kwargs None rest)
      end
  end.

Definition format (template : string) (kwargs : list (string * string))
  : format_result :=
  format_from kwargs None template.

(** [format_human_message]. *)
Definition format_human_message (query : string) : format_result :=
  format HUMAN_TEMPLATE [("query", query)].

End Prompts.

(** ** [src/utils/helpers.py] *)

(** The helpers write to the standard output; what a function prints is
    modelled as the text it writes, each [print] ending its text with a
    newline. *)

Module Helpers.
Import Agent.

Definition nl : string := String (ascii_of_nat 10) EmptyString.

(** [print(text)]. *)
Definition print (text : string) : string := (text ++ nl)%string.

(** [type(message).__name__]. *)
Definition class_name (message : Message) : string :=
  match message with
  | SystemMessage _ => "SystemMessage"
  | HumanMessage _ => "HumanMessage"
  | AIMessage _ _ => "AIMessage"
  | ToolMessage _ _ _ => "ToolMessage"
  end.

(** [format_message]. *)
Definition format_message (message : Message) : string :=
  match message with
  | HumanMessage content => ("👤 Human: " ++ content)%string
  | AIMessage content tool_calls =>
      let content :=
        match content with EmptyString => "[Tool Call]" | _ => content end in
      let tool_info :=
        if Py.truthy tool_calls
        then let tools := List.map tc_name tool_calls in
             (nl ++ "   🔧 Tools: " ++ Py.join ", " tools)%string
        else EmptyString in
      ("🤖 Agent: " ++ content ++ tool_info)%string
  | ToolMessage content name _ =>
      ("⚙️  Tool (" ++ name ++ "): " ++ Py.take_chars 100 content ++ "...")%string
  | _ =>
      ("📝 " ++ class_name message ++ ": " ++ Agent.content message)%string
  end.

(** [print_step]: a step is a dictionary from node names to updates, an
    update holding the key ["messages"] or not. *)
Definition print_step (step : list (string * option (list Message)))
           (step_num : option Z) : string :=
  let prefix :=
    match step_num with
    | None | Some Z0 => "Step"
    | Some n => ("Step " ++ Py.str_int n)%string
    end in
  (print (nl ++ Py.repeat "=" 60)
   ++ print ("📌 " ++ prefix)
   ++ print (Py.repeat "=" 60)
   ++ String.concat EmptyString
        (List.map
           (fun item =>
              print (nl ++ "🔹 Node: " ++ fst item)
              ++ match snd item with
                 | Some messages =>
                     String.concat EmptyString
                       (List.map
                          (fun msg => print ("   " ++ format_message msg))
                          messages)
                 | None => EmptyString
                 end)
           step))%string.

(** The loop of [print_conversation], from index [i]. *)
Fixpoint print_messages (i : nat) (messages : list Message) : string :=
  match messages with
  | [] => EmptyString
  | msg :: rest =>
      (print (nl ++ "[" ++ Py.str_int (Z.of_nat i) ++ "] " ++ format_message msg)
       ++ print_messages (S i) rest)%string
  end.

(** [print_conversation]. *)
Definition print_conversation (messages : list Message) : string :=
  (print (nl ++ Py.repeat "=" 60)
   ++ print "📜 Conversation History"
   ++ print (Py.repeat "=" 60)
   ++ print_messages 1 messages)%string.

(** [create_demo_banner]. *)
Definition create_demo_banner (title : string) : string :=
  let width := Nat.max 60 (Py.len title + 10) in
  let border := Py.repeat "═" width in
  let padding := Py.repeat " " ((width - Py.len title) / 2) in
  (nl ++ "╔" ++ border ++ "╗" ++ nl
   ++ "║" ++ padding ++ title ++ padding ++ "║" ++ nl
   ++ "║" ++ Py.repeat " " ((width - 29) / 2)
   ++ "Built with LangGraph + Gemini"
   ++ Py.repeat " " ((width - 29) / 2) ++ "║" ++ nl
   ++ "╚" ++ border ++ "╝" ++ nl)%string.

(** *** Vocabulary for the properties *)

(** The four lines of the banner. *)
Definition banner_width (title : string) : nat :=
  Nat.max 60 (Py.len title + 10).

Definition border_line (left right : string) (title : string) : string :=
  (left ++ Py.repeat "═" (banner_width title) ++ right)%string.

Definition title_line (title : string) : string :=
  let padding := Py.repeat " " ((banner_width title - Py.len title) / 2) in
  ("║" ++ padding ++ title ++ padding ++ "║")%string.

Definition subtitle_line (title : string) : string :=
  let padding := Py.repeat " " ((banner_width title - 29) / 2) in
  ("║" ++ padding ++ "Built with LangGraph + Gemini" ++ padding ++ "║")%string.

End Helpers.

(** ** Python floats *)

Module PyFloat.

(** Python's [float] is IEEE 754 binary64: 53 bits of precision. *)
Definition prec : Z := 53.
Definition emax : Z := 1024.

(** An integer as the exact (unrounded) pair of a mantissa and exponent 0. *)
Definition exact (z : Z) : spec_float :=
  match z with
  | Z0 => S754_zero false
  | Zpos p => S754_finite false p 0
  | Zneg p => S754_finite true p 0
  end.

(** [a / b] on two integers, [b] not zero: the quotient correctly rounded to
    the nearest float (an infinite result stands for [OverflowError]). *)
Definition int_true_div (a b : Z) : spec_float :=
  SFdiv prec emax (exact a) (exact b).

(** [|x| * 10^digits] rounded to the nearest integer, ties to even, for
    [|x| = m * 2^e]. *)
Definition scaled_round (m : positive) (e : Z) (digits : nat) : Z :=
  let scaled := (Zpos m * 10 ^ Z.of_nat digits)%Z in
  match e with
  | Zneg k =>
      let den := (2 ^ Zpos k)%Z in
      let q := (scaled / den)%Z in
      let r := (scaled mod den)%Z in
      match (2 * r ?= den)%Z with
      | Lt => q
      | Gt => (q + 1)%Z
      | Eq => if Z.even q then q else (q + 1)%Z
      end
  | _ => (scaled * 2 ^ e)%Z
  end.

Fixpoint zeros (n : nat) : string :=
  match n with O => EmptyString | S k => String "0" (zeros k) end.

(** The digits of [n / 10^digits] with [digits] places after the point. *)
Definition fixed_digits (n : Z) (digits : nat) : string :=
  let unit := (10 ^ Z.of_nat digits)%Z in
  let int_part := Py.str_int (n / unit) in
  match digits with
  | O => int_part
  | _ =>
      let frac := Py.str_int (n mod unit) in
      (int_part ++ "." ++ zeros (digits - String.length frac) ++ frac)%string
  end.

(** [format(x, ".<digits>f")]. *)
Definition format_f (digits : nat) (x : spec_float) : string :=
  match x with
  | S754_nan => "nan"
  | S754_infinity s => if s then "-inf" else "inf"
  | S754_zero s =>
      ((if s then "-" else "") ++ fixed_digits 0 digits)%string
  | S754_finite s m e =>
      ((if s then "-" else "")
         ++ fixed_digits (scaled_round m e digits) digits)%string
  end.

(** The decimal with [digits] places nearest to the rational [num / den]
    ([den > 0]), ties to even: what rounding the exact quotient gives. *)
Definition decimal_of_ratio (num den : Z) (digits : nat) : string :=
  let scaled := (Z.abs num * 10 ^ Z.of_nat digits)%Z in
  let q := (scaled / den)%Z in
  let r := (scaled mod den)%Z in
  let n := match (2 * r ?= den)%Z with
           | Lt => q
           | Gt => (q + 1)%Z
           | Eq => if Z.even q then q else (q + 1)%Z
           end in
  ((if (num <? 0)%Z then "-" else "") ++ fixed_digits n digits)%string.

End PyFloat.

(** ** [src/tools/search.py] *)

Module Search.

Definition nl : string := String (ascii_of_nat 10) EmptyString.

Record Topic := mkTopic {
  title : string;
  content : string;
  url : string
}.

Section Interpreter.

(** [str.lower()] and [str.title()] of the interpreter that runs the tools.
    They convert Unicode text by the tables of the interpreter's Unicode
    database (the Kelvin sign becomes the letter k, a capital I with a dot
    above becomes an i followed by a combining dot), so the tools are
    modelled for every such pair of functions; [Py.lower] and [Py.title]
    are what they do on text in ASCII. *)
Variable str_lower : string -> string.
Variable str_title : string -> string.

Section KnowledgeBase.

(** [datetime.now().strftime('%Y-%m-%d')] at the time the module is loaded. *)
Variable today : string.

(** [KNOWLEDGE_BASE], in the order of the dictionary. *)
Definition KNOWLEDGE_BASE : list (string * Topic) :=
  [ ("langgraph",
     mkTopic "LangGraph - Build Stateful AI Agents"
       "LangGraph is a library for building stateful, multi-actor applications with LLMs. It extends LangChain with cyclic computational capabilities, enabling complex agent workflows. Key features: State management, Conditional edges, Parallel execution, Human-in-the-loop."
       "https://langchain-ai.github.io/langgraph/");
    ("react agent",
     mkTopic "ReAct: Synergizing Reasoning and Acting in Language Models"
       "ReAct (Reasoning + Acting) is a paradigm where LLMs interleave reasoning traces and actions. The agent thinks step-by-step (Thought), takes an action (Action), and observes the result (Observation). This loop continues until the task is complete."
       "https://arxiv.org/abs/2210.03629");
    ("gemini api",
     mkTopic "Google Gemini API Documentation"
       "Gemini is Google's most capable AI model family. The API provides access to Gemini 1.5 Pro, Gemini 1.5 Flash, and other models. Features include multimodal understanding, long context windows (up to 2M tokens), and function calling capabilities."
       "https://ai.google.dev/docs");
    ("langchain",
     mkTopic "LangChain - Build LLM Applications"
       "LangChain is a framework for developing applications powered by language models. It provides modules for prompts, models, memory, chains, agents, and tools. LangChain Expression Language (LCEL) enables easy composition of components."
       "https://python.langchain.com/");
    ("python",
     mkTopic "Python Programming Language"
       "Python is a high-level, general-purpose programming language. Current stable version is Python 3.12. Known for readability and extensive libraries. Widely used in AI/ML, web development, data science, and automation."
       "https://www.python.org/");
    ("weather",
     mkTopic "Current Weather Information"
       ("Weather data as of " ++ today ++ ": Temperature varies by location. For accurate weather, please specify a city. Demo shows: New York - 45°F, London - 50°F, Tokyo - 55°F, Sydney - 75°F.")%string
       "https://weather.example.com/") ].

(** The test of line 80: the key occurs in the query, or one of its words
    does. *)
Definition key_matches (query_lower key : string) : bool :=
  Py.contains key query_lower
  || Py.any (fun word => Py.contains word query_lower) (Py.split key).

(** The loop of lines 78-81: the records whose key matches, in order. *)
Fixpoint collect (query_lower : string) (items : list (string * Topic))
  : list Topic :=
  match items with
  | [] => []
  | (key, data) :: rest =>
      if key_matches query_lower key
      then data :: collect query_lower rest
      else collect query_lower rest
  end.

(** The loop of lines 94-97, from index [i]. *)
Fixpoint format_results (i : nat) (results : list Topic) : string :=
  match results with
  | [] => EmptyString
  | result :: rest =>
      (Py.str_int (Z.of_nat i) ++ ". **" ++ title result ++ "**" ++ nl
       ++ "   " ++ content result ++ nl
       ++ "   Source: " ++ url result ++ nl ++ nl
       ++ format_results (S i) rest)%string
  end.

Definition no_results (query : string) : string :=
  ("Search results for '" ++ query ++ "':" ++ nl
   ++ "No specific results found in demo knowledge base." ++ nl
   ++ "In production, this would return real web search results." ++ nl
   ++ "Tip: Try searching for 'LangGraph', 'ReAct agent', 'Gemini API', or 'Python'.")%string.

(** [web_search]. *)
Definition web_search (query : string) : string :=
  let query_lower := str_lower query in
  let results := collect query_lower KNOWLEDGE_BASE in
  if negb (Py.truthy results)
  then no_results query
  else ("Search results for '" ++ query ++ "':" ++ nl ++ nl
        ++ format_results 1 results)%string.

End KnowledgeBase.

(** [get_current_time], given [now.strftime('%A, %B %d, %Y at %I:%M %p')]. *)
Definition get_current_time (now : string) : string :=
  ("Current date and time: " ++ now)%string.

Record Weather := mkWeather {
  temp : Z;
  condition : string;
  humidity : Z
}.

(** [weather_data], in the order of the dictionary. *)
Definition weather_data : list (string * Weather) :=
  [ ("new york", mkWeather 45 "Partly Cloudy" 65);
    ("london", mkWeather 50 "Rainy" 80);
    ("tokyo", mkWeather 55 "Clear" 55);
    ("sydney", mkWeather 75 "Sunny" 60);
    ("paris", mkWeather 48 "Overcast" 70);
    ("mumbai", mkWeather 85 "Humid" 85) ].

(** [key in d] and [d[key]] on a dictionary kept as its list of items. *)
Fixpoint lookup {A} (key : string) (d : list (string * A)) : option A :=
  match d with
  | [] => None
  | (k, v) :: rest => if String.eqb key k then Some v else lookup key rest
  end.

Definition keys {A} (d : list (string * A)) : list string := List.map fst d.

(** [(data['temp']-32)*5/9] formatted with [:.1f]. *)
Definition celsius (t : Z) : string :=
  PyFloat.format_f 1 (PyFloat.int_true_div ((t - 32) * 5) 9).

(** [get_weather]. *)
Definition get_weather (city : string) : string :=
  let city_lower := str_lower city in
  match lookup city_lower weather_data with
  | Some data =>
      ("Weather in " ++ str_title city ++ ":" ++ nl
       ++ "- Temperature: " ++ Py.str_int (temp data) ++ "°F ("
       ++ celsius (temp data) ++ "°C)" ++ nl
       ++ "- Condition: " ++ condition data ++ nl
       ++ "- Humidity: " ++ Py.str_int (humidity data) ++ "%")%string
  | None =>
      ("Weather data not available for '" ++ city ++ "'. Available cities: "
       ++ Py.join ", " (keys weather_data))%string
  end.

(** *** Vocabulary for the properties *)

(** [x] occurs in [s] as a contiguous piece. *)
Definition occurs_in (x s : string) : Prop :=
  exists a b, s = (a ++ x ++ b)%string.

(** The text of a successful [get_weather], by the row found. *)
Definition report (city : string) (data : Weather) : string :=
  ("Weather in " ++ str_title city ++ ":" ++ nl
   ++ "- Temperature: " ++ Py.str_int (temp data) ++ "°F ("
   ++ celsius (temp data) ++ "°C)" ++ nl
   ++ "- Condition: " ++ condition data ++ nl
   ++ "- Humidity: " ++ Py.str_int (humidity data) ++ "%")%string.

End Interpreter.

(** Two conversions agree on text in ASCII. *)
Definition agree_on_ascii (f g : string -> string) : Prop :=
  forall s, Py.is_ascii s = true -> f s = g s.

(** One entry of the numbered list [web_search] prints. *)
Definition entry (i : nat) (result : Topic) : string :=
  (Py.str_int (Z.of_nat i) ++ ". **" ++ title result ++ "**" ++ nl
   ++ "   " ++ content result ++ nl
   ++ "   Source: " ++ url result ++ nl ++ nl)%string.

(** The entries numbered [i], [i+1], ... one after the other. *)
Definition numbered_list (i : nat) (results : list Topic) : string :=
  String.concat EmptyString
    (List.map (fun p => entry (fst p) (snd p))
              (List.combine (List.seq i (List.length results)) results)).

(** An ASCII letter. *)
Definition is_letter (c : ascii) : bool := Py.is_upper c || Py.is_lower c.

(** The text holds at least one ASCII letter. *)
Fixpoint has_letter (s : string) : bool :=
  match s with
  | EmptyString => false
  | String c r => is_letter c || has_letter r
  end.

End Search.

(** ** [src/tools/calculator.py] *)

(** [calculator] hands its argument to Python's [eval] with the globals
    [{"__builtins__": {}}] and the locals [safe_dict]. The embedding covers
    the part of Python's expression language made of integer and decimal
    literals, quoted text, names, the unary [+ -], the binary
    [+ - * / // % **], parentheses, calls with positional arguments and
    attribute access, in sources of at most [max_tokens] tokens. A source
    outside this part is [Unmodelled], and the outcome [Beyond] marks it, or
    an attribute or an import the model does not know: about these the model
    says nothing. Inside this part an expression without attribute access is
    followed to its end, with the functions of the library taken as
    given. *)

Module Calculator.

(** *** Values and exceptions *)

Inductive builtin :=
| math_sqrt | math_pow | math_sin | math_cos | math_tan
| math_log | math_log10 | math_exp
| builtins_abs | builtins_round
| builtins_import
| sys_exit.

Inductive value :=
| VInt (n : Z)
| VBool (b : bool)
| VFloat (x : spec_float)
| VComplex (re im : spec_float)
| VStr (s : string)
| VFun (f : builtin)
| VEmptyDict
| VModule (name : string).

(** The exception classes that occur, and [issubclass(c, Exception)]. *)
Inductive exn_class :=
| SyntaxError | NameError | TypeError | ZeroDivisionError
| OverflowError | ValueError | MemoryError
| SystemExit.

Definition is_Exception (c : exn_class) : bool :=
  match c with SystemExit => false | _ => true end.

(** An exception: its class and [str(e)]. *)
Record exn := mk_exn { exn_type : exn_class; exn_str : string }.

Inductive outcome (A : Type) :=
| Value (a : A)
| Raise (e : exn)
| Beyond.
Arguments Value {A} a.
Arguments Raise {A} e.
Arguments Beyond {A}.

(** *** The parts of the Python runtime taken as given *)

(** What an operation of the library gives: a number or a text, or one of
    the errors it raises. Every such operation returns: none of them loops,
    imports or exits. *)
Inductive lib_value :=
| LInt (n : Z)
| LFloat (x : spec_float)
| LComplex (re im : spec_float)
| LStr (s : string).

Inductive lib_error := LibTypeError | LibValueError | LibOverflowError
                     | LibZeroDivisionError | LibMemoryError.

Inductive lib_result :=
| Gives (v : lib_value)
| Fails (c : lib_error) (message : string).

Inductive unop := UAdd | USub.
Inductive binop := Add | Sub | Mult | Div | FloorDiv | Mod | Pow.

Record Runtime := mkRuntime {
  (** [__debug__]: true unless the interpreter runs with [-O] *)
  debug : bool;
  (** [repr] of a float, of a complex number and of a module object *)
  float_repr : spec_float -> string;
  complex_repr : spec_float -> spec_float -> string;
  module_repr : string -> string;
  (** the functions of the [math] module, [abs] of a complex number and
      [round] with [ndigits] *)
  lib_call : builtin -> list value -> lib_result;
  (** [//], [%] and [**] on two floats *)
  float_op : binop -> spec_float -> spec_float -> lib_result;
  (** [+ - * / **] on two numbers one of which is complex *)
  complex_op : binop -> value -> value -> lib_result;
  (** repetition ([*]) and formatting ([%]) of a text *)
  text_op : binop -> value -> value -> lib_result;
  (** [str(e)] of the [SyntaxError] raised for a malformed source *)
  syntax_message : string -> string
}.

Definition class_of_lib_error (c : lib_error) : exn_class :=
  match c with
  | LibTypeError => TypeError
  | LibValueError => ValueError
  | LibOverflowError => OverflowError
  | LibZeroDivisionError => ZeroDivisionError
  | LibMemoryError => MemoryError
  end.

(** *** Evaluation with a log of the modules imported *)

Definition M (A : Type) : Type := list string * outcome A.

Definition ret {A} (a : A) : M A := ([], Value a).
Definition raise {A} (c : exn_class) (message : string) : M A :=
  ([], Raise (mk_exn c message)).
Definition beyond {A} : M A := ([], Beyond).

Definition bind {A B} (m : M A) (f : A -> M B) : M B :=
  match m with
  | (log, Value a) => let (log', r) := f a in (log ++ log', r)
  | (log, Raise e) => (log, Raise e)
  | (log, Beyond) => (log, Beyond)
  end.

Notation "x <- m ;; k" := (bind m (fun x => k))
  (at level 61, m at next level, right associativity).

Definition of_lib (r : lib_result) : M value :=
  match r with
  | Gives (LInt n) => ret (VInt n)
  | Gives (LFloat x) => ret (VFloat x)
  | Gives (LComplex re im) => ret (VComplex re im)
  | Gives (LStr s) => ret (VStr s)
  | Fails c message => raise (class_of_lib_error c) message
  end.

(** *** Syntax *)

#[warnings="-register-all"]
Inductive expr :=
| Num (n : Z)
| Decimal (digits : Z) (places : nat)
| Str (s : string)
| Name (id : string)
| UnaryOp (op : unop) (operand : expr)
| BinOp (left : expr) (op : binop) (right : expr)
| Call (func : expr) (args : list expr)
| Attribute (obj : expr) (attr : string).

Inductive token :=
| T_INT (n : Z)
| T_DECIMAL (digits : Z) (places : nat)
| T_NAME (id : string)
| T_STRING (s : string)
| T_PLUS | T_MINUS | T_STAR | T_SLASH | T_DSLASH | T_PERCENT | T_DSTAR
| T_LPAR | T_RPAR | T_COMMA | T_DOT.

Definition code (c : ascii) : nat := nat_of_ascii c.

Definition is_digit (c : ascii) : bool :=
  Nat.leb 48 (code c) && Nat.leb (code c) 57.

Definition is_name_start (c : ascii) : bool :=
  Py.is_upper c || Py.is_lower c || Nat.eqb (code c) 95.

Definition is_name_char (c : ascii) : bool := is_name_start c || is_digit c.

Definition is_blank (c : ascii) : bool :=
  Nat.eqb (code c) 32 || Nat.eqb (code c) 9.

Definition is_quote (c : ascii) : bool :=
  Nat.eqb (code c) 39 || Nat.eqb (code c) 34.

(** The longest prefix of characters satisfying [p], and the rest. *)
Fixpoint span (p : ascii -> bool) (s : string) : string * string :=
  match s with
  | EmptyString => (EmptyString, EmptyString)
  | String c r =>
      if p c then let (a, b) := span p r in (String c a, b)
      else (EmptyString, s)
  end.

Fixpoint all_chars (p : ascii -> bool) (s : string) : bool :=
  match s with
  | EmptyString => true
  | String c r => p c && all_chars p r
  end.

(** The value of a run of decimal digits. *)
Fixpoint digits_value (acc : Z) (s : string) : Z :=
  match s with
  | EmptyString => acc
  | String c r => digits_value (10 * acc + Z.of_nat (code c - 48)) r
  end.

(** Python's keywords: none of them is a name. *)
Definition keywords : list string :=
  [ "False"; "None"; "True"; "and"; "as"; "assert"; "async"; "await";
    "break"; "class"; "continue"; "def"; "del"; "elif"; "else"; "except";
    "finally"; "for"; "from"; "global"; "if"; "import"; "in"; "is";
    "lambda"; "nonlocal"; "not"; "or"; "pass"; "raise"; "return"; "try";
    "while"; "with"; "yield" ].

Definition is_keyword (id : string) : bool :=
  List.existsb (String.eqb id) keywords.

(** The longest integer literal the interpreter converts
    ([sys.get_int_max_str_digits()], at its default). *)
Definition int_max_str_digits : nat := 4300.

(** A run of letters, digits, [_] and [.] that starts a number: an integer
    without a leading zero (or all zeros) and of at most 4300 digits, or
    digits around one point. *)
Definition number_token (run : string) : option token :=
  let (whole, rest) := span is_digit run in
  match rest with
  | EmptyString =>
      match whole with
      | String "0" (String _ _) =>
          if all_chars (Ascii.eqb "0") whole then Some (T_INT 0) else None
      | _ =>
          if Nat.ltb int_max_str_digits (String.length whole) then None
          else Some (T_INT (digits_value 0 whole))
      end
  | String "." frac =>
      if all_chars is_digit frac
         && negb (Nat.eqb (String.length whole + String.length frac) 0)
      then Some (T_DECIMAL (digits_value 0 (whole ++ frac)) (String.length frac))
      else None
  | _ => None
  end.

Definition starts_number (s : string) : bool :=
  match s with
  | String c r =>
      is_digit c ||
      (Ascii.eqb c "." && match r with String d _ => is_digit d | _ => false end)
  | EmptyString => false
  end.

(** A character of a quoted text of the modelled part: printable ASCII, no
    backslash and not the quote [q] that ends the text. *)
Definition is_text_char (q x : ascii) : bool :=
  Nat.leb 32 (code x) && Nat.leb (code x) 126
  && negb (Ascii.eqb x q) && negb (Nat.eqb (code x) 92).

(** The tokens of a source text; [None] when it holds something that is
    not a token of the modelled part (among them the text in triple quotes
    and the three dots of [Ellipsis]). *)
Fixpoint lex (fuel : nat) (s : string) : option (list token) :=
  match fuel with
  | O => match s with EmptyString => Some [] | _ => None end
  | S fuel' =>
      let continue (t : token) (rest : string) :=
        option_map (cons t) (lex fuel' rest) in
      match s with
      | EmptyString => Some []
      | String c r =>
          if is_blank c then lex fuel' r
          else if starts_number s then
            let (run, rest) :=
              span (fun x => is_name_char x || Ascii.eqb x ".") s in
            match number_token run with
            | Some t => continue t rest
            | None => None
            end
          else if is_name_start c then
            let (id, rest) := span is_name_char s in
            if is_keyword id then None
            else match rest with
                 | String q _ => if is_quote q then None
                                 else continue (T_NAME id) rest
                 | EmptyString => continue (T_NAME id) rest
                 end
          else if is_quote c then
            if prefix (String c (String c EmptyString)) r then None
            else
              let (body, rest) := span (is_text_char c) r in
              match rest with
              | String q rest' =>
                  if Ascii.eqb q c then continue (T_STRING body) rest'
                  else None
              | EmptyString => None
              end
          else
            match c, r with
            | "."%char, String "." (String "." _) => None
            | "*"%char, String "*" r' => continue T_DSTAR r'
            | "/"%char, String "/" r' => continue T_DSLASH r'
            | "+"%char, _ => continue T_PLUS r
            | "-"%char, _ => continue T_MINUS r
            | "*"%char, _ => continue T_STAR r
            | "/"%char, _ => continue T_SLASH r
            | "%"%char, _ => continue T_PERCENT r
            | "("%char, _ => continue T_LPAR r
            | ")"%char, _ => continue T_RPAR r
            | ","%char, _ => continue T_COMMA r
            | "."%char, _ => continue T_DOT r
            | _, _ => None
            end
      end
  end.

Definition tokenize (s : string) : option (list token) :=
  lex (S (String.length s)) s.

(** The grammar, each rule with a bound on the depth of its calls:
<<
    arith   ::= term (('+' | '-') term)*
    term    ::= factor (('*' | '/' | '//' | '%') factor)*
    factor  ::= ('+' | '-') factor | power
    power   ::= primary ['**' factor]
    primary ::= atom ('(' [arith (',' arith)* [',']] ')' | '.' NAME)*
    atom    ::= NAME | NUMBER | STRING | '(' arith ')'
>> *)
Fixpoint p_arith (n : nat) (ts : list token) : option (expr * list token) :=
  match n with
  | O => None
  | S n =>
      match p_term n ts with
      | Some (l, rest) => p_arith_rest n l rest
      | None => None
      end
  end
with p_arith_rest (n : nat) (l : expr) (ts : list token)
  : option (expr * list token) :=
  match n with
  | O => None
  | S n =>
      match ts with
      | T_PLUS :: ts' =>
          match p_term n ts' with
          | Some (r, rest) => p_arith_rest n (BinOp l Add r) rest
          | None => None
          end
      | T_MINUS :: ts' =>
          match p_term n ts' with
          | Some (r, rest) => p_arith_rest n (BinOp l Sub r) rest
          | None => None
          end
      | _ => Some (l, ts)
      end
  end
with p_term (n : nat) (ts : list token) : option (expr * list token) :=
  match n with
  | O => None
  | S n =>
      match p_factor n ts with
      | Some (l, rest) => p_term_rest n l rest
      | None => None
      end
  end
with p_term_rest (n : nat) (l : expr) (ts : list token)
  : option (expr * list token) :=
  match n with
  | O => None
  | S n =>
      let step (op : binop) (ts' : list token) :=
        match p_factor n ts' with
        | Some (r, rest) => p_term_rest n (BinOp l op r) rest
        | None => None
        end in
      match ts with
      | T_STAR :: ts' => step Mult ts'
      | T_SLASH :: ts' => step Div ts'
      | T_DSLASH :: ts' => step FloorDiv ts'
      | T_PERCENT :: ts' => step Mod ts'
      | _ => Some (l, ts)
      end
  end
with p_factor (n : nat) (ts : list token) : option (expr * list token) :=
  match n with
  | O => None
  | S n =>
      match ts with
      | T_PLUS :: ts' =>
          match p_factor n ts' with
          | Some (a, rest) => Some (UnaryOp UAdd a, rest)
          | None => None
          end
      | T_MINUS :: ts' =>
          match p_factor n ts' with
          | Some (a, rest) => Some (UnaryOp USub a, rest)
          | None => None
          end
      | _ => p_power n ts
      end
  end
with p_power (n : nat) (ts : list token) : option (expr * list token) :=
  match n with
  | O => None
  | S n =>
      match p_primary n ts with
      | Some (base, T_DSTAR :: ts') =>
          match p_factor n ts' with
          | Some (exponent, rest) => Some (BinOp base Pow exponent, rest)
          | None => None
          end
      | other => other
      end
  end
with p_primary (n : nat) (ts : list token) : option (expr * list token) :=
  match n with
  | O => None
  | S n =>
      match p_atom n ts with
      | Some (a, rest) => p_trailers n a rest
      | None => None
      end
  end
with p_trailers (n : nat) (a : expr) (ts : list token)
  : option (expr * list token) :=
  match n with
  | O => None
  | S n =>
      match ts with
      | T_LPAR :: T_RPAR :: ts' => p_trailers n (Call a []) ts'
      | T_LPAR :: ts' =>
          match p_args n ts' with
          | Some (args, rest) => p_trailers n (Call a args) rest
          | None => None
          end
      | T_DOT :: T_NAME attr :: ts' => p_trailers n (Attribute a attr) ts'
      | T_DOT :: _ => None
      | _ => Some (a, ts)
      end
  end
with p_args (n : nat) (ts : list token) : option (list expr * list token) :=
  match n with
  | O => None
  | S n =>
      match p_arith n ts with
      | Some (a, T_RPAR :: rest) => Some ([a], rest)
      | Some (a, T_COMMA :: T_RPAR :: rest) => Some ([a], rest)
      | Some (a, T_COMMA :: rest) =>
          match p_args n rest with
          | Some (more, rest') => Some (a :: more, rest')
          | None => None
          end
      | _ => None
      end
  end
with p_atom (n : nat) (ts : list token) : option (expr * list token) :=
  match n with
  | O => None
  | S n =>
      match ts with
      | T_NAME id :: rest => Some (Name id, rest)
      | T_INT k :: rest => Some (Num k, rest)
      | T_DECIMAL d k :: rest => Some (Decimal d k, rest)
      | T_STRING s :: T_STRING _ :: _ => None
      | T_STRING s :: rest => Some (Str s, rest)
      | T_LPAR :: ts' =>
          match p_arith n ts' with
          | Some (a, T_RPAR :: rest) => Some (a, rest)
          | _ => None
          end
      | _ => None
      end
  end.

(** Token lists that are certainly no Python expression: nothing at all, a
    last token that cannot end an expression, or parentheses that do not
    pair up. *)
Definition cannot_end (t : token) : bool :=
  match t with
  | T_PLUS | T_MINUS | T_STAR | T_SLASH | T_DSLASH | T_PERCENT | T_DSTAR
  | T_LPAR | T_DOT => true
  | _ => false
  end.

Fixpoint balanced (depth : nat) (ts : list token) : bool :=
  match ts with
  | [] => Nat.eqb depth 0
  | T_LPAR :: r => balanced (S depth) r
  | T_RPAR :: r => match depth with O => false | S d => balanced d r end
  | _ :: r => balanced depth r
  end.

Definition malformed (ts : list token) : bool :=
  match ts with
  | [] => true
  | _ => cannot_end (List.last ts T_COMMA) || negb (balanced 0 ts)
  end.

Inductive parse_result :=
| Parsed (e : expr)
| Malformed
| Unmodelled.

(** The longest source the model follows, in tokens. The tokenizer refuses
    more than 200 nested parentheses and the compiler works on a stack of
    bounded depth: what they make of a longer source depends on how it
    nests and on the stack in use when the tool is called. *)
Definition max_tokens : nat := 100.

Definition parse (source : string) : parse_result :=
  match tokenize source with
  | None => Unmodelled
  | Some ts =>
      if Nat.ltb max_tokens (List.length ts) then Unmodelled
      else if malformed ts then Malformed
      else match p_arith (16 * S (List.length ts)) ts with
           | Some (e, []) => Parsed e
           | _ => Unmodelled
           end
  end.

(** *** Semantics *)

Definition namespace := list (string * value).

Fixpoint lookup (id : string) (ns : namespace) : option value :=
  match ns with
  | [] => None
  | (k, v) :: rest => if String.eqb id k then Some v else lookup id rest
  end.

(** [type(v).__name__]. *)
Definition type_name (v : value) : string :=
  match v with
  | VInt _ => "int"
  | VBool _ => "bool"
  | VFloat _ => "float"
  | VComplex _ _ => "complex"
  | VStr _ => "str"
  | VFun _ => "builtin_function_or_method"
  | VEmptyDict => "dict"
  | VModule _ => "module"
  end.

Definition builtin_name (f : builtin) : string :=
  match f with
  | math_sqrt => "sqrt" | math_pow => "pow" | math_sin => "sin"
  | math_cos => "cos" | math_tan => "tan" | math_log => "log"
  | math_log10 => "log10" | math_exp => "exp"
  | builtins_abs => "abs" | builtins_round => "round"
  | builtins_import => "__import__"
  | sys_exit => "exit"
  end.

(** The module a built-in function belongs to ([f.__self__]). *)
Definition module_of (f : builtin) : string :=
  match f with
  | builtins_abs | builtins_round | builtins_import => "builtins"
  | sys_exit => "sys"
  | _ => "math"
  end.

Definition op_symbol (op : binop) : string :=
  match op with
  | Add => "+" | Sub => "-" | Mult => "*" | Div => "/"
  | FloorDiv => "//" | Mod => "%" | Pow => "** or pow()"
  end.

Definition dq : string := String (ascii_of_nat 34) EmptyString.

(** [math.pi] and [math.e]. *)
Definition math_pi : spec_float := S754_finite false 7074237752028440 (-51).
Definition math_e : spec_float := S754_finite false 6121026514868073 (-51).

(** The value of the literal [digits / 10^places]. *)
Definition decimal_literal (digits : Z) (places : nat) : spec_float :=
  PyFloat.int_true_div digits (10 ^ Z.of_nat places).

Definition float_of_int (n : Z) : M spec_float :=
  match binary_normalize PyFloat.prec PyFloat.emax n 0 false with
  | S754_infinity _ => raise OverflowError "int too large to convert to float"
  | x => ret x
  end.

Definition is_zero (x : spec_float) : bool :=
  match x with S754_zero _ => true | _ => false end.

Section Semantics.

Variable rt : Runtime.

Definition unsupported {A} (op : binop) (a b : value) : M A :=
  raise TypeError
    ("unsupported operand type(s) for " ++ op_symbol op ++ ": '"
     ++ type_name a ++ "' and '" ++ type_name b ++ "'")%string.

Definition float_binop (op : binop) (x y : spec_float) : M value :=
  match op with
  | Add => ret (VFloat (SFadd PyFloat.prec PyFloat.emax x y))
  | Sub => ret (VFloat (SFsub PyFloat.prec PyFloat.emax x y))
  | Mult => ret (VFloat (SFmul PyFloat.prec PyFloat.emax x y))
  | Div =>
      if is_zero y then raise ZeroDivisionError "float division by zero"
      else ret (VFloat (SFdiv PyFloat.prec PyFloat.emax x y))
  | FloorDiv | Mod | Pow => of_lib (float_op rt op x y)
  end.

Definition int_binop (op : binop) (a b : Z) : M value :=
  match op with
  | Add => ret (VInt (a + b))
  | Sub => ret (VInt (a - b))
  | Mult => ret (VInt (a * b))
  | Div =>
      if (b =? 0)%Z then raise ZeroDivisionError "division by zero"
      else match PyFloat.int_true_div a b with
           | S754_infinity _ =>
               raise OverflowError
                     "integer division result too large for a float"
           | q => ret (VFloat q)
           end
  | FloorDiv =>
      if (b =? 0)%Z
      then raise ZeroDivisionError "integer division or modulo by zero"
      else ret (VInt (a / b))
  | Mod =>
      if (b =? 0)%Z then raise ZeroDivisionError "integer modulo by zero"
      else ret (VInt (a mod b))
  | Pow =>
      if (0 <=? b)%Z then ret (VInt (a ^ b))
      else x <- float_of_int a ;; y <- float_of_int b ;;
           of_lib (float_op rt Pow x y)
  end.

(** A truth value counts as the integer 0 or 1 in arithmetic. *)
Definition as_number (v : value) : value :=
  match v with
  | VBool b => VInt (Z.b2z b)
  | _ => v
  end.

(** A binary operator on two values. *)
Definition binary (op : binop) (a b : value) : M value :=
  match as_number a, as_number b with
  | VInt x, VInt y => int_binop op x y
  | VInt x, VFloat y => fx <- float_of_int x ;; float_binop op fx y
  | VFloat x, VInt y => fy <- float_of_int y ;; float_binop op x fy
  | VFloat x, VFloat y => float_binop op x y
  | VComplex _ _, (VInt _ | VFloat _ | VComplex _ _)
  | (VInt _ | VFloat _), VComplex _ _ =>
      match op with
      | FloorDiv | Mod => unsupported op a b
      | _ => of_lib (complex_op rt op a b)
      end
  | VStr x, _ =>
      match op, b with
      | Add, VStr y => ret (VStr (x ++ y))
      | Add, _ =>
          raise TypeError
            ("can only concatenate str (not " ++ dq ++ type_name b ++ dq
             ++ ") to str")%string
      | Mult, _ => of_lib (text_op rt op a b)
      | Mod, _ => of_lib (text_op rt op a b)
      | _, _ => unsupported op a b
      end
  | _, VStr _ =>
      match op with
      | Mult => of_lib (text_op rt op a b)
      | _ => unsupported op a b
      end
  | _, _ => unsupported op a b
  end.

Definition unary (op : unop) (a : value) : M value :=
  match op, as_number a with
  | USub, VInt n => ret (VInt (- n))
  | USub, VFloat x => ret (VFloat (SFopp x))
  | USub, VComplex re im => ret (VComplex (SFopp re) (SFopp im))
  | UAdd, VInt n => ret (VInt n)
  | UAdd, VFloat x => ret (VFloat x)
  | UAdd, VComplex re im => ret (VComplex re im)
  | _, _ =>
      raise TypeError
        ("bad operand type for unary "
         ++ (match op with USub => "-" | UAdd => "+" end)
         ++ ": '" ++ type_name a ++ "'")%string
  end.

(** [round(x)] of a float. *)
Definition round_float (x : spec_float) : M value :=
  match x with
  | S754_nan => raise ValueError "cannot convert float NaN to integer"
  | S754_infinity _ =>
      raise OverflowError "cannot convert float infinity to integer"
  | S754_zero _ => ret (VInt 0)
  | S754_finite s m e =>
      let n := PyFloat.scaled_round m e 0 in
      ret (VInt (if s then (- n)%Z else n))
  end.

(** The modules [__import__] finds whatever the installation. *)
Definition always_importable (name : string) : bool :=
  List.existsb (String.eqb name) ["sys"; "os"; "math"; "builtins"].

(** Calling a value with positional arguments. *)
Definition call (f : value) (args : list value) : M value :=
  match f with
  | VFun builtins_abs =>
      match args with
      | [VInt n] => ret (VInt (Z.abs n))
      | [VBool b] => ret (VInt (Z.b2z b))
      | [VFloat x] => ret (VFloat (SFabs x))
      | [VComplex _ _] => of_lib (lib_call rt builtins_abs args)
      | [v] =>
          raise TypeError
            ("bad operand type for abs(): '" ++ type_name v ++ "'")%string
      | _ =>
          raise TypeError
            ("abs() takes exactly one argument ("
             ++ Py.str_int (Z.of_nat (List.length args)) ++ " given)")%string
      end
  | VFun builtins_round =>
      match args with
      | [] =>
          raise TypeError "round() missing required argument 'number' (pos 1)"
      | [VInt n] => ret (VInt n)
      | [VBool b] => ret (VInt (Z.b2z b))
      | [VFloat x] => round_float x
      | [v] =>
          raise TypeError
            ("type " ++ type_name v ++ " doesn't define __round__ method")%string
      | _ => of_lib (lib_call rt builtins_round args)
      end
  | VFun builtins_import =>
      match args with
      | [VStr name] =>
          if always_importable name then ([name], Value (VModule name))
          else beyond
      | _ => beyond
      end
  | VFun sys_exit =>
      match args with
      | [] => raise SystemExit EmptyString
      | _ => beyond
      end
  | VFun f => of_lib (lib_call rt f args)
  | v =>
      raise TypeError ("'" ++ type_name v ++ "' object is not callable")%string
  end.

(** The attributes of the [math] module that [safe_dict] uses. *)
Definition math_module : namespace :=
  [ ("sqrt", VFun math_sqrt); ("pow", VFun math_pow);
    ("sin", VFun math_sin); ("cos", VFun math_cos); ("tan", VFun math_tan);
    ("log", VFun math_log); ("log10", VFun math_log10);
    ("exp", VFun math_exp);
    ("pi", VFloat math_pi); ("e", VFloat math_e) ].

(** Three of the names of the [builtins] module. *)
Definition builtins_module : namespace :=
  [ ("__import__", VFun builtins_import);
    ("abs", VFun builtins_abs); ("round", VFun builtins_round) ].

(** [obj.attr] where the model knows the attribute. *)
Definition getattr (obj : value) (attr : string) : M value :=
  match obj with
  | VFun f =>
      if String.eqb attr "__self__" then ret (VModule (module_of f))
      else beyond
  | VModule name =>
      let members :=
        if String.eqb name "builtins" then builtins_module
        else if String.eqb name "math" then math_module
        else if String.eqb name "sys" then [("exit", VFun sys_exit)]
        else [] in
      match lookup attr members with
      | Some v => ret v
      | None => beyond
      end
  | _ => beyond
  end.

(** The three name spaces of the evaluated code. *)
Variable builtins globals locals : namespace.

Definition load_name (id : string) : M value :=
  match lookup id locals with
  | Some v => ret v
  | None =>
      match lookup id globals with
      | Some v => ret v
      | None =>
          match lookup id builtins with
          | Some v => ret v
          | None =>
              raise NameError ("name '" ++ id ++ "' is not defined")%string
          end
      end
  end.

Fixpoint eval (e : expr) : M value :=
  match e with
  | Num n => ret (VInt n)
  | Decimal d k => ret (VFloat (decimal_literal d k))
  | Str s => ret (VStr s)
  | Name id =>
      (* the compiler replaces [__debug__] by its value *)
      if String.eqb id "__debug__" then ret (VBool (debug rt))
      else load_name id
  | UnaryOp op a => v <- eval a ;; unary op v
  | BinOp l op r => a <- eval l ;; b <- eval r ;; binary op a b
  | Call f args =>
      fv <- eval f ;;
      vs <- (fix eval_args (l : list expr) : M (list value) :=
               match l with
               | [] => ret []
               | a :: rest =>
                   v <- eval a ;; vs <- eval_args rest ;; ret (v :: vs)
               end) args ;;
      call fv vs
  | Attribute a attr => v <- eval a ;; getattr v attr
  end.

(** [eval(source, globals, locals)]. *)
Definition py_eval (source : string) : M value :=
  match parse source with
  | Parsed e => eval e
  | Malformed => raise SyntaxError (syntax_message rt source)
  | Unmodelled => beyond
  end.

End Semantics.

(** [str(v)]; an integer of more than 4300 digits is refused. *)
Definition py_str (rt : Runtime) (v : value) : M string :=
  match v with
  | VInt n =>
      if Nat.ltb 4300 (String.length (Py.str_int (Z.abs n)))
      then raise ValueError
             "Exceeds the limit (4300 digits) for integer string conversion; use sys.set_int_max_str_digits() to increase the limit"
      else ret (Py.str_int n)
  | VBool b => ret (if b then "True" else "False")
  | VFloat x => ret (float_repr rt x)
  | VComplex re im => ret (complex_repr rt re im)
  | VStr s => ret s
  | VFun f => ret ("<built-in function " ++ builtin_name f ++ ">")%string
  | VEmptyDict => ret "{}"
  | VModule name => ret (module_repr rt name)
  end.

(** [safe_dict] (lines 31-44). *)
Definition safe_dict : namespace :=
  [ ("sqrt", VFun math_sqrt);
    ("pow", VFun math_pow);
    ("sin", VFun math_sin);
    ("cos", VFun math_cos);
    ("tan", VFun math_tan);
    ("log", VFun math_log);
    ("log10", VFun math_log10);
    ("exp", VFun math_exp);
    ("abs", VFun builtins_abs);
    ("round", VFun builtins_round);
    ("pi", VFloat math_pi);
    ("e", VFloat math_e) ].

(** The globals [{"__builtins__": {}}]: the evaluated code gets the empty
    dictionary as its built-in name space. *)
Definition calculator_globals : namespace := [("__builtins__", VEmptyDict)].
Definition calculator_builtins : namespace := [].

(** [calculator]: the body of the [try], then the [except Exception]. *)
Definition calculator (rt : Runtime) (expression : string) : M string :=
  let attempt :=
    result <- py_eval rt calculator_builtins calculator_globals safe_dict
                      expression ;;
    text <- py_str rt result ;;
    ret ("Result: " ++ text)%string in
  match attempt with
  | (log, Raise e) =>
      if is_Exception (exn_type e)
      then (log, Value ("Error evaluating expression: " ++ exn_str e)%string)
      else (log, Raise e)
  | other => other
  end.

(** [add] and [multiply]: the two arguments are floats, as the signatures
    declare them (the tool's schema converts what the model sends). *)
Definition add (rt : Runtime) (a b : spec_float) : string :=
  ("Result: " ++ float_repr rt (SFadd PyFloat.prec PyFloat.emax a b))%string.

Definition multiply (rt : Runtime) (a b : spec_float) : string :=
  ("Result: " ++ float_repr rt (SFmul PyFloat.prec PyFloat.emax a b))%string.

(** *** Vocabulary for the properties *)

(** The names of [safe_dict]. *)
Definition allowed_names : list string := List.map fst safe_dict.

(** The symbols the specification allows: numbers, the six operators
    [+ - * / ** %], parentheses, the comma between arguments, and the twelve
    names. *)
Definition allowed_token (t : token) : bool :=
  match t with
  | T_INT _ | T_DECIMAL _ _ => true
  | T_NAME id => List.existsb (String.eqb id) allowed_names
  | T_PLUS | T_MINUS | T_STAR | T_SLASH | T_PERCENT | T_DSTAR => true
  | T_LPAR | T_RPAR | T_COMMA => true
  | T_STRING _ | T_DSLASH | T_DOT => false
  end.

Definition is_error_text (text : string) : bool :=
  prefix "Error evaluating expression: " text.

(** The names an expression mentions. *)
Fixpoint names (e : expr) : list string :=
  match e with
  | Num _ | Decimal _ _ | Str _ => []
  | Name id => [id]
  | UnaryOp _ a => names a
  | BinOp l _ r => names l ++ names r
  | Call f args => names f ++ List.flat_map names args
  | Attribute a _ => names a
  end.

(** No attribute access anywhere in the expression. *)
Fixpoint attribute_free (e : expr) : bool :=
  match e with
  | Num _ | Decimal _ _ | Str _ | Name _ => true
  | UnaryOp _ a => attribute_free a
  | BinOp l _ r => attribute_free l && attribute_free r
  | Call f args => attribute_free f && List.forallb attribute_free args
  | Attribute _ _ => false
  end.

(** The values [safe_dict] and arithmetic give: no module, and no function
    other than the ten of [safe_dict]. *)
Definition harmless (v : value) : bool :=
  match v with
  | VFun builtins_import | VFun sys_exit | VModule _ => false
  | _ => true
  end.

(** A run the model follows to its end, that imports nothing and ends in a
    value satisfying [Q] or in an exception derived from [Exception]. *)
Definition contained {A} (Q : A -> Prop) (m : M A) : Prop :=
  fst m = [] /\
  match snd m with
  | Value a => Q a
  | Raise e => is_Exception (exn_type e) = true
  | Beyond => False
  end.

(** A run that does not end in a value. *)
Definition fruitless {A} (m : M A) : Prop :=
  match snd m with Value _ => False | _ => True end.

Definition harmless_value (v : value) : Prop := harmless v = true.

(** The argument loop of a call in [calculator]'s name spaces. *)
Fixpoint eval_args (rt : Runtime) (l : list expr) : M (list value) :=
  match l with
  | [] => ret []
  | a :: rest =>
      v <- eval rt calculator_builtins calculator_globals safe_dict a ;;
      vs <- eval_args rt rest ;;
      ret (v :: vs)
  end.

(** The body of the [try] of [calculator]. *)
Definition attempt (rt : Runtime) (expression : string) : M string :=
  result <- py_eval rt calculator_builtins calculator_globals safe_dict
                    expression ;;
  text <- py_str rt result ;;
  ret ("Result: " ++ text)%string.

(** A runtime to run the model on where a concrete one is needed: it shows
    every float, complex number and module as a question mark, and its
    library answers every call with zero (with the empty text, for an
    operation on text). *)
Definition silent_runtime : Runtime :=
  mkRuntime true (fun _ => "?") (fun _ _ => "?") (fun _ => "?")
            (fun _ _ => Gives (LFloat (S754_zero false)))
            (fun _ _ _ => Gives (LFloat (S754_zero false)))
            (fun _ _ _ => Gives (LFloat (S754_zero false)))
            (fun _ _ _ => Gives (LStr EmptyString))
            (fun _ => "invalid syntax").

(** How a binary operator is written in a source text. *)
Definition operator_text (op : binop) : string :=
  match op with
  | Add => "+" | Sub => "-" | Mult => "*" | Div => "/"
  | FloorDiv => "//" | Mod => "%" | Pow => "**"
  end.

Definition operator_token (op : binop) : token :=
  match op with
  | Add => T_PLUS | Sub => T_MINUS | Mult => T_STAR | Div => T_SLASH
  | FloorDiv => T_DSLASH | Mod => T_PERCENT | Pow => T_DSTAR
  end.

(** The source text [a op b] for two integers written in decimal. *)
Definition binary_source (a : Z) (op : binop) (b : Z) : string :=
  (Py.str_int a ++ " " ++ operator_text op ++ " " ++ Py.str_int b)%string.

(** The number of decimal digits of an integer. *)
Definition digits (n : Z) : nat := String.length (Py.str_int (Z.abs n)).

(** The text [calculator] gives for an integer result. *)
Definition integer_result (n : Z) : string :=
  if Nat.ltb 4300 (digits n)
  then "Error evaluating expression: Exceeds the limit (4300 digits) for integer string conversion; use sys.set_int_max_str_digits() to increase the limit"
  else ("Result: " ++ Py.str_int n)%string.

(** The source text [f.__self__.__import__('name')]. *)
Definition import_through (f name : string) : string :=
  (f ++ ".__self__.__import__('" ++ name ++ "')")%string.

End Calculator.

(** ** [config/settings.py] *)

Module Settings.

Record LLMConfig := mkLLMConfig {
  provider : string;
  model_name : string;
  temperature : spec_float;
  max_tokens : Z;
  api_key : option string
}.

Record AgentConfig := mkAgentConfig {
  max_iterations : Z;
  verbose : bool;
  enable_memory : bool;
  recursion_limit : Z
}.

Record AppConfig := mkAppConfig {
  app_name : string;
  version : string;
  debug : bool;
  llm : LLMConfig;
  agent : AgentConfig
}.

(** The dataclasses' default values; [env_key] is what
    [os.getenv("GOOGLE_API_KEY") or os.getenv("GEMINI_API_KEY")] gives in
    [LLMConfig.__post_init__]. *)
Definition default_LLMConfig (env_key : option string) : LLMConfig :=
  mkLLMConfig "google" "gemini-1.5-flash"
              (PyFloat.int_true_div 1 10) 2048 env_key.

Definition default_AgentConfig : AgentConfig :=
  mkAgentConfig 5 true true 25.

(** [config = AppConfig()]. *)
Definition config (env_key : option string) : AppConfig :=
  mkAppConfig "ReAct Agent Demo" "1.0.0" true
              (default_LLMConfig env_key) default_AgentConfig.

End Settings.

(** ** [src/agents/react_agent.py]: the constructor and the factory *)

Module Factory.

(** [ALL_TOOLS] ([src/tools/__init__.py]); a tool stands here as its name. *)
Definition ALL_TOOLS : list string :=
  [ "calculator"; "add"; "multiply";
    "web_search"; "get_current_time"; "get_weather" ].

(** [os.environ], as far as it is read. *)
Record Environ := mkEnviron {
  GOOGLE_API_KEY : option string;
  GEMINI_API_KEY : option string
}.

(** The default values of [create_react_agent]'s parameters. *)
Definition DEFAULT_MODEL : string := "gemini-1.5-flash".
Definition DEFAULT_TEMPERATURE : spec_float := PyFloat.int_true_div 1 10.

Section ReActAgent.

(** The graph library that is installed. *)
Variable langgraph : Agent.GraphLibrary.

(** A chat model, what [llm.bind_tools(tools)] answers to a conversation,
    and what [ToolNode(tools)] makes of one tool call. *)
Variable LLM : Type.
Variable bind_tools :
  LLM -> list string ->
  list Agent.Message -> string * list Agent.ToolCall + string.
Variable ToolNode : list string -> Agent.ToolCall -> string + string.

(** An instance of [ReActAgent]: its attributes, and the tools node of its
    graph. *)
Record ReActAgent := mkReActAgent {
  tools : list string;
  system_prompt : string;
  llm_with_tools : list Agent.Message -> string * list Agent.ToolCall + string;
  tool_node : Agent.ToolCall -> string + string
}.

(** [ReActAgent.__init__] (lines 86-93). *)
Definition __init__ (llm : LLM) (tools : option (list string))
           (system_prompt : option string) : ReActAgent :=
  let tools :=
    match tools with
    | Some (t :: ts) => t :: ts
    | _ => ALL_TOOLS
    end in
  let system_prompt :=
    match system_prompt with
    | Some (String c s) => String c s
    | _ => Prompts.REACT_SYSTEM_PROMPT
    end in
  mkReActAgent tools system_prompt (bind_tools llm tools) (ToolNode tools).

(** [agent.invoke] and [agent.stream] of an instance. *)
Definition invoke (self : ReActAgent) (query : string)
  : string + Agent.GraphResult :=
  Agent.invoke langgraph (llm_with_tools self) (tool_node self)
               (system_prompt self) query.

Definition stream (self : ReActAgent) (query : string)
  : list (Agent.Node * list Agent.Message) * Agent.GraphResult :=
  Agent.stream langgraph (llm_with_tools self) (tool_node self)
               (system_prompt self) query.

(** The constructor of the chat model (the import of line 249 is taken to
    succeed): the model, or the detail of the exception it raises. *)
Variable ChatGoogleGenerativeAI :
  string -> string -> spec_float -> LLM + string.

(** [create_react_agent]. *)
Definition create_react_agent (environ : Environ) (api_key : option string)
           (model : string) (temperature : spec_float)
           (tools : option (list string)) : ReActAgent + Agent.Failure :=
  let api_key :=
    Py.or_else (Py.or_else api_key (GOOGLE_API_KEY environ))
               (GEMINI_API_KEY environ) in
  match api_key with
  | Some (String c s) =>
      match ChatGoogleGenerativeAI model (String c s) temperature with
      | inl llm => inl (__init__ llm tools None)
      | inr detail => inr (Agent.ModelCallError detail)
      end
  | _ =>
      inr (Agent.ValueError
             "API key required. Set GOOGLE_API_KEY environment variable or pass api_key parameter.")
  end.

End ReActAgent.

(** *** Vocabulary for the properties *)

(** The first of the texts that is neither [None] nor empty. *)
Fixpoint first_nonempty (sources : list (option string)) : option string :=
  match sources with
  | [] => None
  | Some (String c s) :: _ => Some (String c s)
  | _ :: rest => first_nonempty rest
  end.

Definition no_environ : Environ := mkEnviron None None.

End Factory.

(** ** The standard input *)

Module Stdin.

(** What one call of [input()] gives: a line, [EOFError] or
    [KeyboardInterrupt]. An interrupt is modelled where [input()] waits and
    where a tool raises it. *)
Inductive Input :=
| Line (text : string)
| EOF
| CtrlC.

(** The standard input as the script of what the calls of [input()] give;
    once the script is used up the input is at its end. *)
Definition read (stdin : list Input) : Input * list Input :=
  match stdin with
  | [] => (EOF, [])
  | i :: rest => (i, rest)
  end.

End Stdin.

(** ** [main.py] *)

Module Main.
Import Agent Stdin.

(** What the front ends do that can be observed: the calls of the agent,
    the lines that report steps and answers, and the waits for the Enter key
    (banners and timings are left out). *)
Inductive Event :=
| AgentStream (query : string)
| AgentInvoke (query : string)
| PrintStep (step_num : nat) (node : Node) (update : list Message)
| PrintResponse (text : string)
| WaitForEnter.

(** The exceptions that leave a front end: the failure of a run of the
    agent, and what [input()] raises. *)
Inductive InputError := EOFError | KeyboardInterrupt.

Inductive Uncaught :=
| RunFailed (failure : GraphResult)
| InputFailed (e : InputError).

(** What a front end works on: the number of runs of the agent made so far,
    and what is left of the standard input. *)
Record World := mkWorld {
  runs : nat;
  stdin : list Input
}.

(** A computation of the front end: from the world it starts in, the events
    it adds, a value or the exception that escaped, and the world it
    leaves. *)
Definition Result (A : Type) : Type := list Event * (A + Uncaught) * World.
Definition IO (A : Type) : Type := World -> Result A.

Definition ret {A} (a : A) : IO A := fun w => ([], inl a, w).

Definition bind {A B} (m : IO A) (f : A -> IO B) : IO B :=
  fun w =>
    match m w with
    | (events, inl a, w') =>
        match f a w' with
        | (events', r, w'') => (events ++ events', r, w'')
        end
    | (events, inr e, w') => (events, inr e, w')
    end.

Definition emit (e : Event) : IO unit := fun w => ([e], inl tt, w).

Notation "x <- m ;; k" := (bind m (fun x => k))
  (at level 61, m at next level, right associativity).
Notation "m ;; k" := (bind m (fun _ => k))
  (at level 61, right associativity).

Fixpoint for_each {A} (items : list A) (body : A -> IO unit) : IO unit :=
  match items with
  | [] => ret tt
  | x :: rest => body x ;; for_each rest body
  end.

(** [enumerate(items, start)]. *)
Fixpoint enumerate {A} (items : list A) (start : nat) : list (nat * A) :=
  match items with
  | [] => []
  | x :: rest => (start, x) :: enumerate rest (S start)
  end.

(** [input(prompt)] of line 92: the prompt is shown, and the call returns
    when a line comes. *)
Definition wait_for_enter : IO unit :=
  fun w =>
    let (input, rest) := read (stdin w) in
    ([WaitForEnter],
     match input with
     | Line _ => inl tt
     | EOF => inr (InputFailed EOFError)
     | CtrlC => inr (InputFailed KeyboardInterrupt)
     end,
     mkWorld (runs w) rest).

(** [if i < len(queries): input(...)] of lines 91-92: the wait for the Enter
    key, except after the last query. *)
Definition turn_end (total i : nat) : IO unit :=
  if Nat.ltb i total then wait_for_enter else ret tt.

Definition demo_queries : list string :=
  [ "What is 25 multiplied by 4, then add 50?";
    "What is LangGraph and how does it work?";
    "What is the current date and time?";
    "What's the weather like in Tokyo?";
    "If I have 3 apples costing $2 each and 5 oranges costing $1.50 each, what's my total cost?" ].

Section FrontEnd.

(** The graph library that is installed. *)
Variable langgraph : GraphLibrary.

(** The [agent] argument: a [ReActAgent] instance. Its model and its tools
    are no functions of what they are given (the model samples its answer,
    a tool may read the clock), so every run of the agent has its own; the
    runs of a front end are numbered in the order they are made. *)
Variable llm_with_tools :
  nat -> list Message -> string * list ToolCall + string.
Variable run_tool : nat -> ToolCall -> string + string.
Variable system_prompt : string.

(** [agent.invoke(query)]. *)
Definition agent_invoke (query : string) : IO string :=
  fun w =>
    ([AgentInvoke query],
     match invoke langgraph (llm_with_tools (runs w)) (run_tool (runs w))
                  system_prompt query with
     | inl answer => inl answer
     | inr failure => inr (RunFailed failure)
     end,
     mkWorld (S (runs w)) (stdin w)).

(** [for step in agent.stream(query): print_step(step, step_num)]. *)
Definition agent_stream_printing (query : string) : IO unit :=
  fun w =>
    let (chunks, r) :=
      stream langgraph (llm_with_tools (runs w)) (run_tool (runs w))
             system_prompt query in
    (AgentStream query
       :: List.map (fun c => PrintStep (fst c) (fst (snd c)) (snd (snd c)))
                   (enumerate chunks 1),
     match r with
     | Finished _ => inl tt
     | failure => inr (RunFailed failure)
     end,
     mkWorld (S (runs w)) (stdin w)).

(** The body of the loop of [run_demo_queries] (lines 61-92). *)
Definition demo_step (verbose : bool) (total i : nat) (query : string)
  : IO unit :=
  (if verbose
   then agent_stream_printing query
   else (_ <- agent_invoke query ;; ret tt)) ;;
  final_response <-
    (if negb verbose then agent_invoke query else ret "See steps above") ;;
  emit (PrintResponse final_response) ;;
  turn_end total i.

(** [run_demo_queries(agent, verbose)]. *)
Definition run_demo_queries (verbose : bool) : IO unit :=
  for_each (enumerate demo_queries 1)
           (fun iq => demo_step verbose (List.length demo_queries)
                                (fst iq) (snd iq)).

(** [run_single_query(agent, query, verbose)]. *)
Definition run_single_query (query : string) (verbose : bool) : IO string :=
  (if verbose then agent_stream_printing query else ret tt) ;;
  response <- agent_invoke query ;;
  emit (PrintResponse response) ;;
  ret response.

(** *** Vocabulary for the properties *)

(** The run numbered [run] finishes, as a stream and as a call of
    [invoke]. *)
Definition stream_finishes (run : nat) (query : string) : bool :=
  match snd (stream langgraph (llm_with_tools run) (run_tool run)
                    system_prompt query) with
  | Finished _ => true
  | _ => false
  end.

Definition invoke_returns (run : nat) (query : string) : bool :=
  match invoke langgraph (llm_with_tools run) (run_tool run)
               system_prompt query with
  | inl _ => true
  | inr _ => false
  end.

End FrontEnd.

(** The events, the outcome and the last world of a computation that has
    been run. *)
Definition events {A} (r : Result A) : list Event := fst (fst r).
Definition outcome {A} (r : Result A) : A + Uncaught := snd (fst r).
Definition world {A} (r : Result A) : World := snd r.

Definition is_agent_call (e : Event) : bool :=
  match e with AgentStream _ | AgentInvoke _ => true | _ => false end.

(** The calls of the agent among the events of a computation. *)
Definition agent_calls {A} (r : Result A) : list Event :=
  List.filter is_agent_call (events r).

(** The final responses printed. *)
Definition responses {A} (r : Result A) : list string :=
  List.flat_map (fun e => match e with PrintResponse text => [text] | _ => [] end)
                (events r).

(** The world a front end starts in. *)
Definition start (stdin : list Input) : World := mkWorld 0 stdin.

(** The next [n] calls of [input()] return a line. *)
Fixpoint lines_ahead (n : nat) (stdin : list Input) : bool :=
  match n, stdin with
  | O, _ => true
  | S k, Line _ :: rest => lines_ahead k rest
  | S _, _ => false
  end.

(** A model that answers at once. *)
Definition direct_llm (_ : list Message) : string * list ToolCall + string :=
  inl ("Done.", []).

End Main.

(** ** [main.py]: the interactive mode and the entry point *)

Module App.
Import Agent Stdin.

(** What an [except Exception] of [main.py] receives. *)
Inductive Caught :=
| CaughtEOFError
| CaughtIndexError
| CaughtFailure (failure : GraphResult).

(** What the program does that can be observed (headers and timings are
    left out), by the lines of [main.py]. *)
Inductive Event :=
| Banner (text : string)                   (* 239 *)
| MissingKey                               (* 245-249 *)
| Initializing                             (* 254 *)
| Ready (model : string)                   (* 259 *)
| Fatal (e : Caught)                       (* 275 *)
| Front (e : Main.Event)                   (* the agent's calls and the steps *)
| Prompt                                   (* 115 *)
| Goodbye                                  (* 122 *)
| Help                                     (* 126-131 *)
| VerboseMode (on : bool)                  (* 136 *)
| Thinking                                 (* 140 *)
| Answer (final_response : option string)  (* 158-160 *)
| Interrupted                              (* 163 *)
| Error (e : Caught).                      (* 166-167 *)

(** How a front end ends: it returns, the process exits with a status, an
    exception of a run or of [input()] leaves it, or the loop is still going
    when the fuel of the model is used up. *)
Inductive Ending :=
| Returned
| Exit (status : Z)
| Escaped (failure : GraphResult)
| EscapedInput (e : Main.InputError)
| Unfinished.

(** The built-in exception classes that do not derive from [Exception]. *)
Definition base_exceptions : list string :=
  [ "BaseException"; "BaseExceptionGroup"; "GeneratorExit";
    "KeyboardInterrupt"; "SystemExit" ].

(** The failures of a run by class: an exception that left the tools node
    is known by the name of its class, and is an [Exception] unless that is
    one of the names above; the other failures are [Exception]s. *)
Definition is_Exception (failure : GraphResult) : bool :=
  match failure with
  | Raised (ToolRaised name) =>
      negb (List.existsb (String.eqb name) base_exceptions)
  | _ => true
  end.

Definition is_KeyboardInterrupt (failure : GraphResult) : bool :=
  match failure with
  | Raised (ToolRaised name) => String.eqb name "KeyboardInterrupt"
  | _ => false
  end.

(** What the two [except] clauses of the loop (lines 162-167) make of an
    exception raised by the agent: the events, and how the loop ends, if it
    does. *)
Definition handle (failure : GraphResult) : list Event * option Ending :=
  if is_KeyboardInterrupt failure then ([Interrupted], Some Returned)
  else if is_Exception failure then ([Error (CaughtFailure failure)], None)
  else ([], Some (Escaped failure)).

(** Lines 146-152: the steps are printed and [final_response] is updated
    chunk by chunk; [None] when an update has no last message. *)
Fixpoint follow (step_num : nat) (final_response : option string)
         (chunks : list (Node * list Message))
  : list Event * option (option string) :=
  match chunks with
  | [] => ([], Some final_response)
  | (node, update) :: rest =>
      match last_message update with
      | Some m =>
          let (events, r) := follow (S step_num) (Some (content m)) rest in
          (Front (Main.PrintStep step_num node update) :: events, r)
      | None => ([Front (Main.PrintStep step_num node update)], None)
      end
  end.

Section Interactive.

(** The graph library that is installed. *)
Variable langgraph : GraphLibrary.

(** The [agent] argument: a [ReActAgent] instance. *)
Variable llm_with_tools : list Message -> string * list ToolCall + string.
Variable run_tool : ToolCall -> string + string.
Variable system_prompt : string.

(** Lines 140-160: one query is answered. *)
Definition answer_query (verbose : bool) (query : string)
  : list Event * option Ending :=
  if verbose then
    let (chunks, r) :=
      stream langgraph llm_with_tools run_tool system_prompt query in
    let (steps, final) := follow 1 None chunks in
    match final with
    | None =>
        (Thinking :: Front (Main.AgentStream query) :: steps
           ++ [Error CaughtIndexError], None)
    | Some final_response =>
        match r with
        | Finished _ =>
            (Thinking :: Front (Main.AgentStream query) :: steps
               ++ [Answer final_response], None)
        | failure =>
            let (events, ending) := handle failure in
            (Thinking :: Front (Main.AgentStream query) :: steps ++ events,
             ending)
        end
    end
  else
    match invoke langgraph llm_with_tools run_tool system_prompt query with
    | inl answer =>
        ([Thinking; Front (Main.AgentInvoke query); Answer (Some answer)], None)
    | inr failure =>
        let (events, ending) := handle failure in
        (Thinking :: Front (Main.AgentInvoke query) :: events, ending)
    end.

(** The [while True] of [run_interactive_mode] (lines 113-167); every turn
    of the loop uses one unit of fuel. The tests on [query.lower()] compare
    with texts made of the letters e, h, i, l, n, o, p, q, t, u, v, r, b, s
    and x: among these the conversion of Unicode text makes only an i out of
    a character outside ASCII, and then with a combining dot after it, so
    the tests give what they give on the text with its letters [A-Z] made
    small, which is [Py.lower]. *)
Fixpoint interactive_loop (fuel : nat) (verbose : bool) (stdin : list Input)
  : list Event * Ending :=
  match fuel with
  | O => ([], Unfinished)
  | S fuel' =>
      let (input, rest) := read stdin in
      let again (events : list Event) (verbose : bool) :=
        let (more, ending) := interactive_loop fuel' verbose rest in
        (Prompt :: events ++ more, ending) in
      match input with
      | CtrlC => ([Prompt; Interrupted], Returned)
      | EOF => again [Error CaughtEOFError] verbose
      | Line text =>
          let query := Py.strip text in
          match query with
          | EmptyString => again [] verbose
          | _ =>
              if List.existsb (String.eqb (Py.lower query)) ["quit"; "exit"; "q"]
              then ([Prompt; Goodbye], Returned)
              else if String.eqb (Py.lower query) "help"
              then again [Help] verbose
              else if prefix "verbose" (Py.lower query)
              then let verbose := Py.contains "on" (Py.lower query) in
                   again [VerboseMode verbose] verbose
              else
                match answer_query verbose query with
                | (events, None) => again events verbose
                | (events, Some ending) => (Prompt :: events, ending)
                end
          end
      end
  end.

(** [run_interactive_mode(agent)]. *)
Definition run_interactive_mode (fuel : nat) (stdin : list Input)
  : list Event * Ending :=
  interactive_loop fuel true stdin.

(** *** Vocabulary for the properties *)

(** What one turn of the loop does with the input it reads: its events
    after the prompt, and either the verbosity the next turn starts with or
    the way the session ends. *)
Definition turn (verbose : bool) (input : Input)
  : list Event * (bool + Ending) :=
  match input with
  | CtrlC => ([Interrupted], inr Returned)
  | EOF => ([Error CaughtEOFError], inl verbose)
  | Line text =>
      match Py.strip text with
      | EmptyString => ([], inl verbose)
      | query =>
          if List.existsb (String.eqb (Py.lower query)) ["quit"; "exit"; "q"]
          then ([Goodbye], inr Returned)
          else if String.eqb (Py.lower query) "help"
          then ([Help], inl verbose)
          else if prefix "verbose" (Py.lower query)
          then ([VerboseMode (Py.contains "on" (Py.lower query))],
                inl (Py.contains "on" (Py.lower query)))
          else
            match answer_query verbose query with
            | (events, None) => (events, inl verbose)
            | (events, Some ending) => (events, inr ending)
            end
      end
  end.

End Interactive.

(** The parsed command line. *)
Record Args := mkArgs {
  query : option string;
  demo : bool;
  quiet : bool;
  api_key : option string;
  model : string
}.

(** A front end of [Main] seen from [main]. *)
Definition front {A} (r : Main.Result A) : list Event * Ending :=
  (List.map Front (Main.events r),
   match Main.outcome r with
   | inl _ => Returned
   | inr (Main.RunFailed failure) => Escaped failure
   | inr (Main.InputFailed e) => EscapedInput e
   end).

Section EntryPoint.

(** The graph library that is installed. *)
Variable langgraph : GraphLibrary.

Variable LLM : Type.
Variable bind_tools :
  LLM -> list string -> list Message -> string * list ToolCall + string.
Variable ToolNode : list string -> ToolCall -> string + string.
Variable ChatGoogleGenerativeAI :
  string -> string -> spec_float -> LLM + string.

(** Lines 264-272: the mode is chosen and run. *)
Definition run_mode (instance : Factory.ReActAgent) (args : Args) (fuel : nat)
           (stdin : list Input) : list Event * Ending :=
  let verbose := negb (quiet args) in
  let llm := Factory.llm_with_tools instance in
  let node := Factory.tool_node instance in
  let prompt := Factory.system_prompt instance in
  match query args with
  | Some (String c s) =>
      front (Main.run_single_query langgraph (fun _ => llm) (fun _ => node)
                                   prompt (String c s) verbose
                                   (Main.start stdin))
  | _ =>
      if demo args
      then front (Main.run_demo_queries langgraph (fun _ => llm)
                                        (fun _ => node) prompt verbose
                                        (Main.start stdin))
      else run_interactive_mode langgraph llm node prompt fuel stdin
  end.

(** [main()], after the command line is parsed. *)
Definition main (fuel : nat) (args : Args) (environ : Factory.Environ)
           (stdin : list Input) : list Event * Ending :=
  let banner := Banner (Helpers.create_demo_banner "ReAct Agent Demo") in
  let api_key :=
    Py.or_else (Py.or_else (api_key args) (Factory.GOOGLE_API_KEY environ))
               (Factory.GEMINI_API_KEY environ) in
  if negb (Py.truthy_text api_key) then ([banner; MissingKey], Exit 1)
  else
    match Factory.create_react_agent bind_tools ToolNode ChatGoogleGenerativeAI
            environ api_key (model args) Factory.DEFAULT_TEMPERATURE None with
    | inr e =>
        ([banner; Initializing; Fatal (CaughtFailure (Raised e))], Exit 1)
    | inl instance =>
        let (events, ending) := run_mode instance args fuel stdin in
        let shown := banner :: Initializing :: Ready (model args) :: events in
        match ending with
        | Escaped failure =>
            if is_Exception failure
            then (shown ++ [Fatal (CaughtFailure failure)], Exit 1)
            else (shown, Escaped failure)
        | EscapedInput Main.EOFError =>
            (shown ++ [Fatal CaughtEOFError], Exit 1)
        | other => (shown, other)
        end
    end.

End EntryPoint.

(** *** Vocabulary for the properties *)

(** The calls of the agent among the events. *)
Definition is_agent_call (e : Event) : bool :=
  match e with
  | Front e => Main.is_agent_call e
  | _ => false
  end.

Definition agent_calls (events : list Event) : list Event :=
  List.filter is_agent_call events.

(** The line ends the session: [quit], [exit] or [q] in any letter case,
    blanks around it or not. *)
Definition is_quit (text : string) : bool :=
  List.existsb (String.eqb (Py.lower (Py.strip text))) ["quit"; "exit"; "q"].

(** The line is handled by the loop itself: it is blank, or one of the
    commands. *)
Definition is_command (text : string) : bool :=
  match Py.strip text with
  | EmptyString => true
  | query =>
      List.existsb (String.eqb (Py.lower query)) ["quit"; "exit"; "q"]
      || String.eqb (Py.lower query) "help"
      || prefix "verbose" (Py.lower query)
  end.

(** An input that neither ends the session nor reaches the agent. *)
Definition stays (i : Input) : bool :=
  match i with
  | Line text => is_command text && negb (is_quit text)
  | EOF => true
  | CtrlC => false
  end.

(** An input that does not reach the agent. *)
Definition no_query (i : Input) : bool :=
  match i with
  | Line text => is_command text
  | _ => true
  end.

Definition is_EOF_error (e : Event) : bool :=
  match e with Error CaughtEOFError => true | _ => false end.

(** The steps of a stream as the verbose modes print them, numbered from
    [start]. *)
Definition printed_steps (chunks : list (Node * list Message)) (start : nat)
  : list Event :=
  List.map (fun c => Front (Main.PrintStep (fst c) (fst (snd c)) (snd (snd c))))
           (Main.enumerate chunks start).

(** The command line with another [--quiet]. *)
Definition with_quiet (b : bool) (args : Args) : Args :=
  mkArgs (query args) (demo args) b (api_key args) (model args).

End App.

(* ================================================================= *)
(** * Part II: properties *)
(* ================================================================= *)

Module AgentFacts.
Import Agent.

Section Loop.

Variable langgraph : GraphLibrary.
Variable llm : list Message -> string * list ToolCall + string.
Variable run_tool : ToolCall -> string + string.
Variable prompt : string.

Local Abbreviation superstep := (superstep llm run_tool prompt).
Local Abbreviation pregel_loop := (pregel_loop langgraph llm run_tool prompt).
Local Abbreviation pregel_stream :=
  (pregel_stream langgraph llm run_tool prompt).
Local Abbreviation reached_END := (reached_END langgraph).
Local Abbreviation steps := (steps llm run_tool prompt).
Local Abbreviation graph_invoke := (graph_invoke langgraph llm run_tool prompt).
Local Abbreviation invoke := (invoke langgraph llm run_tool prompt).
Local Abbreviation within_limit := (within_limit langgraph).
Local Abbreviation model_input := (model_input prompt).
Local Abbreviation _agent_node := (_agent_node llm prompt).
Local Abbreviation tool_node := (tool_node run_tool).

(** *** The log and its last message *)

Lemma last_message_snoc (st : AgentState) (m : Message) :
  last_message (st ++ [m]) = Some m.
Proof.
  unfold last_message. rewrite List.map_app. simpl.
  apply List.last_last.
Qed.

Lemma last_message_nil : last_message [] = None.
Proof. reflexivity. Qed.

Lemma count_system_app (a b : AgentState) :
  count_system (a ++ b) = count_system a + count_system b.
Proof.
  unfold count_system. now rewrite List.filter_app, List.length_app.
Qed.

Lemma model_calls_app (a b : AgentState) :
  model_calls (a ++ b) = model_calls a + model_calls b.
Proof.
  unfold model_calls. now rewrite List.filter_app, List.length_app.
Qed.

(** The tool node answers with tool messages only. *)
Lemma run_tools_update calls : forall update,
  run_tools run_tool calls = inl update ->
  count_system update = 0 /\ model_calls update = 0.
Proof.
  induction calls as [|tc calls IH]; intros update; cbn [run_tools].
  - now intros [= <-].
  - destruct (run_tool tc) as [output|exception]; [|discriminate].
    destruct (run_tools run_tool calls) as [outputs|e]; [|discriminate].
    intros [= <-]. exact (IH _ eq_refl).
Qed.

Lemma tool_node_update (st : AgentState) update :
  tool_node st = inl update ->
  count_system update = 0 /\ model_calls update = 0.
Proof.
  unfold Agent.tool_node.
  destruct (last_message st) as [[c|c|c calls|c n i]|]; try discriminate.
  apply run_tools_update.
Qed.

Lemma run_tools_return (Hret : tools_return run_tool) calls :
  exists outputs, run_tools run_tool calls = inl outputs.
Proof.
  induction calls as [|tc calls (outputs & IH)]; cbn [run_tools].
  - now exists [].
  - destruct (Hret tc) as (output & ->). rewrite IH. eauto.
Qed.

Lemma tool_node_after_AI (st : AgentState) text calls :
  tool_node (st ++ [AIMessage text calls]) = run_tools run_tool calls.
Proof. unfold Agent.tool_node. now rewrite last_message_snoc. Qed.

(** *** The continuation predicate *)

Lemma should_continue_snoc_AI (st : AgentState) text calls :
  _should_continue (st ++ [AIMessage text calls])
  = Some (if Py.truthy calls then "continue" else "end").
Proof.
  unfold _should_continue. rewrite last_message_snoc.
  now destruct (Py.truthy calls).
Qed.

(** *** One super-step *)

(** What the agent node's super-step does, by the model's answer. *)
Lemma superstep_agent (st : AgentState) :
  superstep agent st =
  match llm (model_input st) with
  | inl (text, []) => Done (st ++ [AIMessage text []])
  | inl (text, calls) => Next tools (st ++ [AIMessage text calls])
  | inr detail => Failed (ModelCallError detail)
  end.
Proof.
  unfold Agent.superstep, Agent.node, Agent.edge, Agent._agent_node.
  destruct (llm (model_input st)) as [[text calls]|detail]; [|reflexivity].
  unfold add_messages. rewrite should_continue_snoc_AI.
  now destruct calls.
Qed.

Lemma superstep_tools (st : AgentState) :
  superstep tools st =
  match tool_node st with
  | inl update => Next agent (st ++ update)
  | inr e => Failed e
  end.
Proof.
  unfold Agent.superstep, Agent.node, Agent.edge.
  now destruct (tool_node st).
Qed.

(** A super-step only appends to the log, adds no system message, and
    adds one assistant message exactly when it runs the agent node. *)
Lemma superstep_Next_inv n st n' st' :
  superstep n st = Next n' st' ->
  exists ext, st' = st ++ ext /\ count_system ext = 0 /\
              model_calls ext = (match n with agent => 1 | tools => 0 end).
Proof.
  destruct n.
  - rewrite superstep_agent.
    destruct (llm (model_input st)) as [[text [|tc calls]]|detail];
      try discriminate.
    intros [= <- <-]. now exists [AIMessage text (tc :: calls)].
  - rewrite superstep_tools.
    destruct (tool_node st) as [update|e] eqn:E; [|discriminate].
    intros [= <- <-]. exists update.
    destruct (tool_node_update _ E) as [H1 H2]. now rewrite H1, H2.
Qed.

Lemma superstep_Done_inv n st st' :
  superstep n st = Done st' ->
  exists text, n = agent /\ llm (model_input st) = inl (text, []) /\
               st' = st ++ [AIMessage text []].
Proof.
  destruct n.
  - rewrite superstep_agent.
    destruct (llm (model_input st)) as [[text [|tc calls]]|detail];
      try discriminate.
    intros [= <-]. now exists text.
  - rewrite superstep_tools. now destruct (tool_node st).
Qed.

(** *** Runs of the driver *)

Lemma steps_cons k n st n1 st1 c' :
  superstep n st = Next n1 st1 ->
  steps (n1, st1) k c' ->
  steps (n, st) (S k) c'.
Proof.
  intros Hstep Hrun. induction Hrun as [|k n2 st2 n3 st3 Hrun IH Hlast].
  - eapply steps_S; [apply steps_O | exact Hstep].
  - eapply steps_S; [exact IH | exact Hlast].
Qed.

(** Running [k] super-steps first and the rest afterwards is one run. *)
Lemma pregel_loop_steps k c n' st' :
  steps c k (n', st') ->
  forall m, pregel_loop (k + m) (fst c) (snd c) = pregel_loop m n' st'.
Proof.
  intros Hrun. remember (n', st') as c' eqn:E. revert n' st' E.
  induction Hrun as [|k n1 st1 n2 st2 Hrun IH Hlast]; intros n' st' E m;
    [subst c|injection E as <- <-].
  - reflexivity.
  - replace (S k + m) with (k + S m) by lia.
    rewrite (IH _ _ eq_refl). cbn [Agent.pregel_loop]. now rewrite Hlast.
Qed.

(** How a run that reaches [END] ends. *)
Lemma reached_END_Finished left st log :
  reached_END left st = Finished log ->
  log = st /\ (limit_tested_first langgraph = true -> 0 < left).
Proof.
  unfold Agent.reached_END. destruct left as [|left].
  - destruct (limit_tested_first langgraph); [discriminate|].
    intros [= <-]. split; [reflexivity | discriminate].
  - intros [= <-]. split; [reflexivity | lia].
Qed.

Lemma reached_END_cases left st :
  reached_END left st = Finished st \/
  reached_END left st = GraphRecursionError st.
Proof.
  unfold Agent.reached_END. destruct left as [|left]; [|now left].
  destruct (limit_tested_first langgraph); auto.
Qed.

(** A finished run is a sequence of super-steps ending in the agent node's
    final answer. *)
Lemma pregel_loop_Finished limit : forall n st log,
  pregel_loop limit n st = Finished log ->
  exists k st0 text,
    k < limit /\ steps (n, st) k (agent, st0) /\
    llm (model_input st0) = inl (text, []) /\
    log = st0 ++ [AIMessage text []].
Proof.
  induction limit as [|limit IH]; intros n st log; [discriminate|].
  cbn [Agent.pregel_loop].
  destruct (superstep n st) as [n1 st1|st1|e] eqn:Hstep; [| |discriminate].
  - intros Hrun. destruct (IH _ _ _ Hrun) as (k & st0 & text & Hk & Hs & Hl & ->).
    exists (S k), st0, text. repeat split; try lia; try assumption.
    eapply steps_cons; eassumption.
  - intros Hend. apply reached_END_Finished in Hend. destruct Hend as [<- _].
    destruct (superstep_Done_inv _ _ Hstep) as (text & -> & Hl & ->).
    exists 0, st, text. repeat split; try lia; try assumption.
    apply steps_O.
Qed.

(** A run finishes exactly when it reaches [END] within the limit: after
    [k] super-steps the agent node gives an answer without tool calls, and
    the [k + 1] super-steps are allowed. *)
Lemma pregel_loop_Finished_iff limit n st log :
  pregel_loop limit n st = Finished log <->
  exists k st0 text,
    (if limit_tested_first langgraph then S k < limit else S k <= limit) /\
    steps (n, st) k (agent, st0) /\
    llm (model_input st0) = inl (text, []) /\
    log = st0 ++ [AIMessage text []].
Proof.
  split.
  - revert n st. induction limit as [|limit IH]; intros n st; [discriminate|].
    cbn [Agent.pregel_loop].
    destruct (superstep n st) as [n1 st1|st1|e] eqn:Hstep; [| |discriminate].
    + intros Hrun.
      destruct (IH _ _ Hrun) as (k & st0 & text & Hk & Hs & Hl & ->).
      exists (S k), st0, text. split.
      * destruct (limit_tested_first langgraph); lia.
      * repeat split; try assumption. eapply steps_cons; eassumption.
    + intros Hend. apply reached_END_Finished in Hend.
      destruct Hend as [<- Hk].
      destruct (superstep_Done_inv _ _ Hstep) as (text & -> & Hl & ->).
      exists 0, st, text. split.
      * destruct (limit_tested_first langgraph);
          [specialize (Hk eq_refl)|]; lia.
      * repeat split; try assumption. apply steps_O.
  - intros (k & st0 & text & Hk & Hs & Hl & ->).
    pose proof (pregel_loop_steps Hs (limit - k)) as Hrun.
    assert (Hlimit : S k <= limit)
      by (destruct (limit_tested_first langgraph); lia).
    replace (k + (limit - k)) with limit in Hrun by lia.
    cbn [fst snd] in Hrun. rewrite Hrun.
    destruct (limit - k) as [|m] eqn:Hm; [lia|].
    cbn [Agent.pregel_loop]. rewrite superstep_agent, Hl.
    unfold Agent.reached_END. destruct m as [|m]; [|reflexivity].
    destruct (limit_tested_first langgraph); [lia | reflexivity].
Qed.

(** No system message enters the log along a run. *)
Lemma steps_no_system k c c' :
  steps c k c' ->
  count_system (snd c) = 0 -> count_system (snd c') = 0.
Proof.
  induction 1 as [|k n1 st1 n2 st2 Hrun IH Hlast]; intro H0; [exact H0|].
  destruct (superstep_Next_inv _ _ Hlast) as (ext & -> & Hext & _).
  simpl in *. rewrite count_system_app, (IH H0), Hext. reflexivity.
Qed.

Lemma model_input_head (st : AgentState) :
  count_system st = 0 ->
  model_input st = SystemMessage prompt :: st.
Proof.
  destruct st as [|m st]; [reflexivity|].
  unfold Agent.model_input, count_system. simpl.
  destruct (is_SystemMessage m); [discriminate | reflexivity].
Qed.

(** An abandoned run has used up its limit, the last super-step going on
    or reaching [END]. *)
Lemma pregel_loop_out_of_steps limit : forall n st log,
  pregel_loop limit n st = GraphRecursionError log ->
  (exists n', steps (n, st) limit (n', log)) \/
  (exists k st0 text,
     steps (n, st) k (agent, st0) /\ log = st0 ++ [AIMessage text []]).
Proof.
  induction limit as [|limit IH]; intros n st log.
  - intros [= <-]. left. exists n. apply steps_O.
  - cbn [Agent.pregel_loop].
    destruct (superstep n st) as [n1 st1|st1|e] eqn:Hstep; [| |discriminate].
    + intros Hrun.
      destruct (IH _ _ _ Hrun) as [(n' & Hs)|(k & st0 & text & Hs & ->)].
      * left. exists n'. eapply steps_cons; eassumption.
      * right. exists (S k), st0, text. split; [|reflexivity].
        eapply steps_cons; eassumption.
    + intros Hend.
      destruct (reached_END_cases limit st1) as [H|H]; rewrite H in Hend;
        [discriminate|]. injection Hend as <-.
      destruct (superstep_Done_inv _ _ Hstep) as (text & -> & Hl & ->).
      right. exists 0, st, text. split; [apply steps_O | reflexivity].
Qed.

(** *** The claims about the loop *)

(** C3. The continuation predicate, on a state whose latest message is an
    assistant message, answers ["continue"] exactly when that message carries
    at least one tool call and ["end"] exactly when it carries none; the
    answer is a function of the state alone. *)
Theorem should_continue_iff_tool_calls (st : AgentState) text calls :
  (_should_continue (st ++ [AIMessage text calls]) = Some "continue"
     <-> calls <> []) /\
  (_should_continue (st ++ [AIMessage text calls]) = Some "end"
     <-> calls = []).
Proof.
  rewrite should_continue_snoc_AI.
  destruct calls as [|tc calls]; simpl; split; split;
    intros H; try reflexivity; try discriminate; try congruence.
Qed.

(** C4. The system message is put in front of the model's input exactly when
    the conversation does not already start with one, and a conversation
    that starts with one is passed on unchanged; along a run started by
    [invoke] the stored log holds at most one (in fact no) system message,
    and every model input is the system message followed by the whole log:
    it holds exactly one system message, at index 0. *)
Theorem system_message_injected_only_if_absent :
  (forall m st, is_SystemMessage m = true ->
     model_input (m :: st) = m :: st) /\
  (forall m st, is_SystemMessage m = false ->
     model_input (m :: st) = SystemMessage prompt :: m :: st) /\
  model_input [] = [SystemMessage prompt] /\
  (forall query k n st,
     steps (agent, [HumanMessage query]) k (n, st) ->
     count_system st <= 1 /\
     model_input st = SystemMessage prompt :: st /\
     count_system (model_input st) = 1).
Proof.
  split; [|split; [|split]].
  - intros m st Hm. unfold Agent.model_input. now rewrite Hm.
  - intros m st Hm. unfold Agent.model_input. now rewrite Hm.
  - reflexivity.
  - intros query k n st Hrun.
    assert (H0 : count_system st = 0)
      by exact (steps_no_system Hrun eq_refl).
    rewrite (model_input_head _ H0). unfold count_system in *. simpl.
    rewrite H0. repeat split; lia.
Qed.

(** C10. The agent node's update is the one-element list holding the model's
    response (or the model call fails); no system message is ever stored: the
    log a run ends with, finished or abandoned, contains none. *)
Theorem agent_node_returns_only_the_response :
  (forall st,
     match _agent_node st with
     | inl update =>
         exists text calls,
           llm (model_input st) = inl (text, calls) /\
           update = [AIMessage text calls]
     | inr e =>
         exists detail,
           llm (model_input st) = inr detail /\ e = ModelCallError detail
     end) /\
  (forall query limit log,
     pregel_loop limit agent [HumanMessage query] = Finished log \/
     pregel_loop limit agent [HumanMessage query] = GraphRecursionError log ->
     List.Forall (fun m => is_SystemMessage m = false) log).
Proof.
  split.
  - intros st. unfold Agent._agent_node.
    destruct (llm (model_input st)) as [[text calls]|detail]; eauto.
  - intros query limit log Hrun.
    assert (H0 : count_system log = 0).
    { destruct Hrun as [Hrun|Hrun].
      + destruct (pregel_loop_Finished _ _ _ Hrun)
          as (k & st0 & text & _ & Hs & _ & ->).
        pose proof (steps_no_system Hs eq_refl) as H0. simpl in H0.
        rewrite count_system_app, H0. reflexivity.
      + destruct (pregel_loop_out_of_steps _ _ _ Hrun)
          as [(n' & Hs)|(k & st0 & text & Hs & ->)].
        * exact (steps_no_system Hs eq_refl).
        * pose proof (steps_no_system Hs eq_refl) as H0. simpl in H0.
          rewrite count_system_app, H0. reflexivity. }
    clear Hrun. induction log as [|m log IH]; constructor.
    + unfold count_system in H0. simpl in H0.
      destruct (is_SystemMessage m); [discriminate | reflexivity].
    + apply IH. unfold count_system in *. simpl in H0.
      destruct (is_SystemMessage m); [discriminate | exact H0].
Qed.


(** The number of assistant messages a run of [limit] super-steps adds when
    the model always asks for a tool: one for every two super-steps. *)
Lemma looping_run (Hloop : always_requests_tool llm)
      (Hret : tools_return run_tool) limit :
  forall st, exists log,
    pregel_loop limit agent st = GraphRecursionError log /\
    model_calls log = model_calls st + Nat.div2 (S limit).
Proof.
  induction limit as [limit IH] using lt_wf_ind. intros st.
  destruct limit as [|[|limit]].
  - exists st. split; [reflexivity | simpl; lia].
  - cbn [Agent.pregel_loop]. rewrite superstep_agent.
    destruct (Hloop (model_input st)) as (text & calls & -> & Hne).
    destruct calls as [|tc calls]; [congruence|].
    eexists. split; [reflexivity|].
    rewrite model_calls_app. reflexivity.
  - cbn [Agent.pregel_loop]. rewrite superstep_agent.
    destruct (Hloop (model_input st)) as (text & calls & -> & Hne).
    destruct calls as [|tc calls]; [congruence|].
    rewrite superstep_tools, tool_node_after_AI.
    destruct (run_tools_return Hret (tc :: calls)) as (answers & Hrun).
    rewrite Hrun.
    destruct (IH limit ltac:(lia)
                 ((st ++ [AIMessage text (tc :: calls)]) ++ answers))
      as (log & -> & Hc).
    exists log. split; [reflexivity|].
    destruct (run_tools_update _ Hrun) as [_ Ha].
    rewrite Hc, !model_calls_app, Ha.
    change (model_calls [AIMessage text (tc :: calls)]) with 1.
    change (Nat.div2 (S (S (S limit)))) with (S (Nat.div2 (S limit))). lia.
Qed.

(** An exception that passes through [ToolNode] ends the run: when the
    model's first answer asks for a tool that raises it, [invoke] raises. *)
Lemma tool_exception_aborts_run query text tc calls exception :
  2 <= DEFAULT_RECURSION_LIMIT langgraph ->
  llm (model_input [HumanMessage query]) = inl (text, tc :: calls) ->
  run_tool tc = inr exception ->
  invoke query = inr (Raised (ToolRaised exception)).
Proof.
  intros Hlimit Hllm Htool.
  unfold Agent.invoke, Agent.graph_invoke, entry_point.
  destruct (DEFAULT_RECURSION_LIMIT langgraph) as [|[|limit]]; try lia.
  cbn [Agent.pregel_loop]. rewrite superstep_agent, Hllm.
  rewrite superstep_tools, tool_node_after_AI. cbn [run_tools].
  now rewrite Htool.
Qed.

(** C2 (amended). With a model that asks for a tool on every reasoning step
    (and tools that return) the driver does stop: whatever the recursion
    limit of the run, it never finishes and gives up with
    [GraphRecursionError] once the limit is used up, the model having been
    called for every other super-step. [invoke] passes no configuration, so
    its limit is the default of the graph library that is installed,
    whatever that is: the number of calls of the model follows from it
    alone, and nothing of the agent configuration enters the run. *)
Theorem looping_model_stops_at_recursion_limit :
  always_requests_tool llm ->
  tools_return run_tool ->
  (forall limit st, exists log,
     pregel_loop limit agent st = GraphRecursionError log /\
     model_calls log = model_calls st + Nat.div2 (S limit)) /\
  (forall query, exists log,
     invoke query = inr (GraphRecursionError log) /\
     graph_invoke [HumanMessage query] = GraphRecursionError log /\
     model_calls log = Nat.div2 (S (DEFAULT_RECURSION_LIMIT langgraph))).
Proof.
  intros Hloop Hret. split.
  - intros limit st. exact (looping_run Hloop Hret limit st).
  - intros query.
    destruct (looping_run Hloop Hret (DEFAULT_RECURSION_LIMIT langgraph)
                          [HumanMessage query]) as (log & Hrun & Hc).
    exists log. unfold Agent.invoke, Agent.graph_invoke, entry_point.
    rewrite Hrun. split; [reflexivity|]. split; [reflexivity | exact Hc].
Qed.


(** *** The other outcomes of a run *)

Lemma last_message_None (st : AgentState) : last_message st = None <-> st = [].
Proof.
  split; [|now intros ->].
  destruct st as [|m st] using List.rev_ind; [reflexivity|].
  now rewrite last_message_snoc.
Qed.

Lemma run_tools_failure calls : forall e,
  run_tools run_tool calls = inr e -> exists exception, e = ToolRaised exception.
Proof.
  induction calls as [|tc calls IH]; intros e; cbn [run_tools]; [discriminate|].
  destruct (run_tool tc) as [output|exception].
  - destruct (run_tools run_tool calls) as [outputs|e'];
      [discriminate|]. intros [= <-]. now apply IH.
  - intros [= <-]. now exists exception.
Qed.

Lemma run_tools_answers calls : forall update,
  run_tools run_tool calls = inl update ->
  List.Forall added_by_run update /\
  List.map tc_id calls
  = List.map (fun m => match m with ToolMessage _ _ i => i | _ => EmptyString end)
             update.
Proof.
  induction calls as [|tc calls IH]; intros update; cbn [run_tools].
  - intros [= <-]. now split.
  - destruct (run_tool tc) as [output|exception]; [|discriminate].
    destruct (run_tools run_tool calls) as [outputs|e]; [|discriminate].
    intros [= <-]. destruct (IH _ eq_refl) as [HF Hids]. split.
    + constructor; [now right | exact HF].
    + simpl. now rewrite Hids.
Qed.

(** A super-step that goes on or finishes appends to the log what its node
    returned. *)
Lemma superstep_appends n st :
  match superstep n st with
  | Next _ st' | Done st' =>
      exists update, node llm run_tool prompt n st = inl update /\
                     st' = st ++ update /\ List.Forall added_by_run update
  | Failed _ => True
  end.
Proof.
  unfold Agent.superstep, add_messages.
  destruct (node llm run_tool prompt n st) as [update|e] eqn:Hnode; [|exact I].
  assert (HF : List.Forall added_by_run update).
  { destruct n; simpl in Hnode.
    - unfold Agent._agent_node in Hnode.
      destruct (llm (model_input st)) as [[text calls]|detail];
        [|discriminate].
      injection Hnode as <-. constructor; [now left | constructor].
    - unfold Agent.tool_node in Hnode.
      destruct (last_message st) as [[c|c|c calls|c x i]|]; try discriminate.
      exact (proj1 (run_tools_answers _ Hnode)). }
  destruct (edge n (st ++ update)) as [[n'|]|e]; eauto.
Qed.

(** Along a run started at the agent node the two nodes alternate, the
    model has been called once for every visit of the agent node, and the
    tools node is entered on a log that ends with an assistant message
    asking for tools. *)
Lemma steps_alternate st0 k n st :
  steps (agent, st0) k (n, st) ->
  (n = agent /\ exists j, k = 2 * j /\ model_calls st = model_calls st0 + j) \/
  (n = tools /\
   (exists j, k = 2 * j + 1 /\ model_calls st = model_calls st0 + j + 1) /\
   exists st1 text tc calls, st = st1 ++ [AIMessage text (tc :: calls)]).
Proof.
  intros Hrun. remember (agent, st0) as c eqn:Ec. remember (n, st) as c' eqn:Ec'.
  revert n st Ec'.
  induction Hrun as [|k n1 st1 n2 st2 Hrun IH Hlast]; intros n st Ec'.
  - subst c. injection Ec' as <- <-. left. split; [reflexivity|].
    exists 0. split; lia.
  - injection Ec' as <- <-.
    destruct (IH _ _ eq_refl)
      as [(-> & j & -> & Hc)|(-> & (j & -> & Hc) & st' & text & tc & calls & ->)].
    + rewrite superstep_agent in Hlast.
      destruct (llm (model_input st1)) as [[text [|tc calls]]|detail];
        try discriminate.
      injection Hlast as <- <-. right. split; [reflexivity|]. split.
      * exists j. rewrite model_calls_app, Hc.
        change (model_calls [AIMessage text (tc :: calls)]) with 1.
        split; lia.
      * now exists st1, text, tc, calls.
    + rewrite superstep_tools, tool_node_after_AI in Hlast.
      destruct (run_tools run_tool (tc :: calls)) as [update|e] eqn:Hrt;
        [|discriminate].
      injection Hlast as <- <-. left. split; [reflexivity|].
      exists (S j). rewrite model_calls_app, Hc.
      rewrite (proj2 (run_tools_update _ Hrt)). split; lia.
Qed.

(** A run that raises is a sequence of super-steps ending in a failed one. *)
Lemma pregel_loop_Raised limit : forall n st e,
  pregel_loop limit n st = Raised e ->
  exists k n' st',
    k < limit /\ steps (n, st) k (n', st') /\ superstep n' st' = Failed e.
Proof.
  induction limit as [|limit IH]; intros n st e; [discriminate|].
  cbn [Agent.pregel_loop].
  destruct (superstep n st) as [n1 st1|st1|e1] eqn:Hstep;
    [|now destruct (reached_END_cases limit st1) as [-> | ->]|].
  - intros Hrun. destruct (IH _ _ _ Hrun) as (k & n' & st' & Hk & Hs & Hf).
    exists (S k), n', st'. repeat split; try lia; try assumption.
    eapply steps_cons; eassumption.
  - intros [= <-]. exists 0, n, st. repeat split; try lia; try assumption.
    apply steps_O.
Qed.

(** The chunks of a stream: one per super-step run, each holding what the
    super-step added to the log. *)
Lemma pregel_stream_chunks limit : forall n st,
  snd (pregel_stream limit n st) = pregel_loop limit n st /\
  List.length (fst (pregel_stream limit n st)) <= limit /\
  (forall log,
     pregel_loop limit n st = Finished log \/
     pregel_loop limit n st = GraphRecursionError log ->
     log = st ++ streamed (fst (pregel_stream limit n st))) /\
  (forall log,
     pregel_loop limit n st = Finished log ->
     exists earlier text,
       fst (pregel_stream limit n st)
       = earlier ++ [(agent, [AIMessage text []])] /\
       log = (st ++ streamed earlier) ++ [AIMessage text []]).
Proof.
  induction limit as [|limit IH]; intros n st.
  - cbn. repeat split; try lia.
    + intros log [H|H]; [discriminate|]. injection H as <-.
      now rewrite List.app_nil_r.
    + discriminate.
  - cbn [Agent.pregel_stream Agent.pregel_loop].
    pose proof (superstep_appends n st) as Happ.
    destruct (superstep n st) as [n1 st1|st1|e] eqn:Hstep.
    + destruct Happ as (update & Hnode & -> & _). rewrite Hnode.
      destruct (IH n1 (st ++ update)) as (Hr & Hlen & Hlog & Hlast).
      destruct (pregel_stream limit n1 (st ++ update))
        as [chunks r]. simpl in *.
      repeat split; try assumption; try lia.
      * intros log Hrun. rewrite (Hlog _ Hrun). unfold streamed. simpl.
        now rewrite List.app_assoc.
      * intros log Hrun.
        destruct (Hlast _ Hrun) as (earlier & text & -> & ->).
        exists ((n, update) :: earlier), text. split; [reflexivity|].
        unfold streamed. simpl. now rewrite !List.app_assoc.
    + destruct Happ as (update & Hnode & -> & _). rewrite Hnode.
      cbn [fst snd List.length].
      destruct (superstep_Done_inv _ _ Hstep) as (text & -> & Hl & Hst).
      apply List.app_inv_head in Hst. subst update.
      split; [reflexivity|]. split; [lia|]. split.
      * intros log Hrun. unfold streamed. cbn [List.flat_map snd].
        rewrite List.app_nil_r.
        destruct (reached_END_cases limit (st ++ [AIMessage text []]))
          as [H|H]; rewrite H in Hrun; destruct Hrun as [Hrun|Hrun];
          congruence.
      * intros log Hrun. apply reached_END_Finished in Hrun.
        destruct Hrun as [-> _]. exists [], text. split; [reflexivity|].
        unfold streamed. cbn [List.flat_map]. now rewrite List.app_nil_r.
    + assert (Hchunks :
        (match node llm run_tool prompt n st with
         | inl _ => ([], Raised e)
         | inr e' => ([], Raised e')
         end : list (Node * list Message) * GraphResult) = ([], Raised e)).
      { unfold Agent.superstep in Hstep.
        destruct (node llm run_tool prompt n st) as [update|e'];
          [reflexivity|]. now injection Hstep as ->. }
      rewrite Hchunks. simpl. split; [reflexivity|]. split; [lia|].
      split; [intros log [H|H]; discriminate | discriminate].
Qed.

(** What streaming one super-step yields, by the node. *)
Lemma pregel_stream_agent k (st : AgentState) :
  pregel_stream (S k) agent st =
  match llm (model_input st) with
  | inl (text, []) =>
      ([(agent, [AIMessage text []])],
       reached_END k (st ++ [AIMessage text []]))
  | inl (text, calls) =>
      let (chunks, r) :=
        pregel_stream k tools
                      (st ++ [AIMessage text calls]) in
      ((agent, [AIMessage text calls]) :: chunks, r)
  | inr detail => ([], Raised (ModelCallError detail))
  end.
Proof.
  cbn [Agent.pregel_stream]. rewrite superstep_agent.
  unfold node, Agent._agent_node.
  destruct (llm (model_input st)) as [[text [|tc calls]]|detail]; reflexivity.
Qed.

Lemma pregel_stream_tools k (st : AgentState) :
  pregel_stream (S k) tools st =
  match tool_node st with
  | inl update =>
      let (chunks, r) :=
        pregel_stream k agent (st ++ update) in
      ((tools, update) :: chunks, r)
  | inr e => ([], Raised e)
  end.
Proof.
  cbn [Agent.pregel_stream]. rewrite superstep_tools. unfold node.
  destruct (tool_node st) as [update|e]; reflexivity.
Qed.

(** No chunk of a stream started at the agent node is empty. *)
Lemma stream_updates_nonempty limit : forall st,
  List.Forall (fun c => snd c <> [])
              (fst (pregel_stream limit agent st)).
Proof.
  induction limit as [limit IH] using lt_wf_ind. intros st.
  destruct limit as [|limit]; [constructor|].
  rewrite pregel_stream_agent.
  destruct (llm (model_input st)) as [[text [|tc calls]]|detail];
    [repeat constructor; discriminate| |constructor].
  destruct limit as [|limit]; [repeat constructor; discriminate|].
  rewrite pregel_stream_tools, tool_node_after_AI.
  destruct (run_tools run_tool (tc :: calls)) as [update|e] eqn:Hrt;
    [|repeat constructor; discriminate].
  specialize (IH limit ltac:(lia)
                 ((st ++ [AIMessage text (tc :: calls)]) ++ update)).
  destruct (pregel_stream limit agent
              ((st ++ [AIMessage text (tc :: calls)]) ++ update))
    as [chunks r].
  constructor; [discriminate|]. constructor; [|exact IH].
  cbn [run_tools] in Hrt. destruct (run_tool tc); [|discriminate].
  destruct (run_tools run_tool calls); [|discriminate].
  injection Hrt as <-. discriminate.
Qed.

(** X1. [_should_continue] fails (on the index [-1]) exactly on the empty
    log; it answers ["continue"] exactly when the last message is an
    assistant message with at least one tool call, and ["end"] in every other
    case; both labels are keys of the conditional edges of the graph, so
    following the edge of the agent node never fails on an unknown label. *)
Theorem should_continue_labels (st : AgentState) :
  (_should_continue st = None <-> st = []) /\
  (_should_continue st = Some "continue" <->
   exists st0 text tc calls, st = st0 ++ [AIMessage text (tc :: calls)]) /\
  (forall label, _should_continue st = Some label ->
     label = "continue" \/ label = "end") /\
  (forall label, edge agent st <> inr (KeyError label)).
Proof.
  destruct st as [|m st _] using List.rev_ind.
  - repeat split; try discriminate; try reflexivity.
    intros (st0 & text & tc & calls & H). now destruct st0.
  - unfold edge, _should_continue. rewrite last_message_snoc.
    split; [|split; [|split]].
    + split; [now destruct m as [c|c|c [|tc calls]|c x i]|].
      intros H. now destruct st.
    + split.
      * destruct m as [c|c|c [|tc calls]|c x i]; try discriminate.
        intros _. now exists st, c, tc, calls.
      * intros (st0 & text & tc & calls & H).
        apply List.app_inj_tail in H. destruct H as [_ ->]. reflexivity.
    + intros label.
      destruct m as [c|c|c [|tc calls]|c x i]; intros [= <-]; auto.
    + intros label. now destruct m as [c|c|c [|tc calls]|c x i].
Qed.

(** X5. When [invoke] does not return an answer, the exception is one of
    three: the graph library's [GraphRecursionError], the failure of a call
    of the model, or an exception that passed through the tools node. The
    indexing [-1] in [_should_continue] and in [invoke], the lookup of the
    edge label and the tools node's search for an assistant message never
    fail on a run started by [invoke]. *)
Theorem invoke_failure_kinds (query : string) (failure : GraphResult) :
  invoke query = inr failure ->
  (exists log, failure = GraphRecursionError log) \/
  (exists detail, failure = Raised (ModelCallError detail)) \/
  (exists exception, failure = Raised (ToolRaised exception)).
Proof.
  unfold Agent.invoke, Agent.graph_invoke, entry_point.
  destruct (pregel_loop (DEFAULT_RECURSION_LIMIT langgraph) agent
                        [HumanMessage query]) as [log|log|e] eqn:Hrun.
  - destruct (pregel_loop_Finished _ _ _ Hrun)
      as (k & st0 & text & _ & _ & _ & ->).
    now rewrite last_message_snoc.
  - intros [= <-]. left. now exists log.
  - intros [= <-]. right.
    destruct (pregel_loop_Raised _ _ _ Hrun) as (k & n' & st' & _ & Hs & Hf).
    destruct (steps_alternate Hs)
      as [(-> & _)|(-> & _ & st1 & text & tc & calls & ->)].
    + rewrite superstep_agent in Hf.
      destruct (llm (model_input st')) as [[text [|tc calls]]|detail];
        try discriminate.
      injection Hf as <-. left. now exists detail.
    + rewrite superstep_tools, tool_node_after_AI in Hf.
      destruct (run_tools run_tool (tc :: calls)) as [update|e'] eqn:Hrt;
        [discriminate|].
      injection Hf as <-. right.
      destruct (run_tools_failure _ Hrt) as (exception & ->).
      now exists exception.
Qed.

End Loop.

Lemma looping_llm_always_requests_tool : always_requests_tool looping_llm.
Proof.
  intros messages. exists EmptyString, [time_call].
  split; [reflexivity | discriminate].
Qed.

Lemma scripted_tool_returns : tools_return scripted_tool.
Proof.
  intros tc. unfold scripted_tool.
  destruct (String.eqb (tc_name tc) "calculator"); eauto.
Qed.

(** The looping model and the scripted tool meet the hypotheses of C2
    (amended), here with a library that gives up after 7 super-steps. *)
Lemma looping_model_stops_at_recursion_limit_witness :
  always_requests_tool looping_llm /\
  tools_return scripted_tool /\
  exists log,
    invoke library_7 looping_llm scripted_tool "You are a helpful agent."
           "loop"
    = inr (GraphRecursionError log) /\
    graph_invoke library_7 looping_llm scripted_tool
                 "You are a helpful agent." [HumanMessage "loop"]
    = GraphRecursionError log /\
    model_calls log = Nat.div2 (S (DEFAULT_RECURSION_LIMIT library_7)).
Proof.
  split; [exact looping_llm_always_requests_tool|].
  split; [exact scripted_tool_returns|].
  exact (proj2 (looping_model_stops_at_recursion_limit
                  library_7 "You are a helpful agent."
                  looping_llm_always_requests_tool
                  scripted_tool_returns) "loop").
Defined.

(** C2 (as stated) fails: the bound that stops the loop is not a configured
    one. The agent configuration says [max_iterations = 5] and
    [recursion_limit = 25], and the run takes neither: with a library whose
    limit is 25 super-steps the looping model is called 13 times before the
    driver gives up, and with a library whose limit is 7 it is called 4
    times, after 7 super-steps (every super-step of this run adds one
    message to the log), under the same configuration. *)
Lemma loop_bound_is_not_the_agent_config :
  Settings.max_iterations (Settings.agent (Settings.config None)) = 5%Z /\
  Settings.recursion_limit (Settings.agent (Settings.config None)) = 25%Z /\
  (exists log,
     graph_invoke library_25 looping_llm scripted_tool
                  "You are a helpful agent." [HumanMessage "loop"]
     = GraphRecursionError log /\
     model_calls log = 13 /\ List.length log - 1 = 25) /\
  (exists log,
     graph_invoke library_7 looping_llm scripted_tool
                  "You are a helpful agent." [HumanMessage "loop"]
     = GraphRecursionError log /\
     model_calls log = 4 /\ List.length log - 1 = 7).
Proof.
  split; [reflexivity|]. split; [reflexivity|].
  split; (eexists; split; [vm_compute; reflexivity|]);
    split; vm_compute; reflexivity.
Qed.

(** The conversation ends when the one tool asked for ends in
    [SystemExit]. *)
Example exit_aborts_conversation (langgraph : GraphLibrary) :
  2 <= DEFAULT_RECURSION_LIMIT langgraph ->
  invoke langgraph scripted_llm exiting_tool "You are a helpful agent."
         "What is 2 + 2?"
  = inr (Raised (ToolRaised "SystemExit")).
Proof.
  intros Hlimit.
  apply tool_exception_aborts_run
    with (text := EmptyString) (tc := calculator_call) (calls := []);
    [exact Hlimit | reflexivity | reflexivity].
Qed.

(** A run of the scripted model: one tool round, then the answer. The run
    takes three super-steps: a library that gives up after three and tests
    the limit first abandons it. *)
Example scripted_run :
  invoke library_25 scripted_llm scripted_tool "You are a helpful agent."
         "What is 2 + 2?"
  = inl "The answer is Result: 4" /\
  invoke (mkGraphLibrary 3 false) scripted_llm scripted_tool
         "You are a helpful agent." "What is 2 + 2?"
  = inl "The answer is Result: 4" /\
  invoke (mkGraphLibrary 3 true) scripted_llm scripted_tool
         "You are a helpful agent." "What is 2 + 2?"
  = inr (GraphRecursionError
           [ HumanMessage "What is 2 + 2?";
             AIMessage EmptyString [calculator_call];
             ToolMessage "Result: 4" "calculator" "call_1";
             AIMessage "The answer is Result: 4" [] ]).
Proof. repeat split; vm_compute; reflexivity. Qed.


(** X5 at the run whose tool ends in [SystemExit]. *)
Lemma invoke_failure_kinds_witness :
  invoke library_25 scripted_llm exiting_tool "You are a helpful agent."
         "What is 2 + 2?"
  = inr (Raised (ToolRaised "SystemExit")) /\
  ((exists log, Raised (ToolRaised "SystemExit") = GraphRecursionError log) \/
   (exists detail,
      Raised (ToolRaised "SystemExit") = Raised (ModelCallError detail)) \/
   (exists exception,
      Raised (ToolRaised "SystemExit") = Raised (ToolRaised exception))).
Proof.
  split; [reflexivity|].
  exact (@invoke_failure_kinds library_25 scripted_llm exiting_tool
           "You are a helpful agent." "What is 2 + 2?" _ eq_refl).
Defined.

End AgentFacts.

(** ** The front ends of [main.py] *)

Module MainFacts.
Import Agent Stdin Main.

(** What a computation followed by another leaves. *)
Lemma bind_result {A B} (m : IO A) (f : A -> IO B) (w : World) :
  bind m f w =
  match outcome (m w) with
  | inl a =>
      (events (m w) ++ events (f a (world (m w))),
       outcome (f a (world (m w))),
       world (f a (world (m w))))
  | inr e => (events (m w), inr e, world (m w))
  end.
Proof.
  unfold bind, events, outcome, world.
  destruct (m w) as [[ev [a|e]] w']; cbn [fst snd]; [|reflexivity].
  now destruct (f a w') as [[ev' r] w''].
Qed.

Lemma agent_calls_result {A} (ev : list Event) (r : A + Uncaught) (w : World) :
  agent_calls (ev, r, w) = List.filter is_agent_call ev.
Proof. reflexivity. Qed.

Lemma responses_result {A} (ev : list Event) (r : A + Uncaught) (w : World) :
  responses (ev, r, w)
  = List.flat_map
      (fun e => match e with PrintResponse text => [text] | _ => [] end) ev.
Proof. reflexivity. Qed.

Lemma print_steps_silent (chunks : list (nat * (Node * list Message))) :
  List.filter is_agent_call
    (List.map (fun c => PrintStep (fst c) (fst (snd c)) (snd (snd c))) chunks)
  = [] /\
  List.flat_map
    (fun e => match e with PrintResponse text => [text] | _ => [] end)
    (List.map (fun c => PrintStep (fst c) (fst (snd c)) (snd (snd c))) chunks)
  = [].
Proof.
  induction chunks as [|c chunks [IH1 IH2]]; [now split|].
  split; [exact IH1 | exact IH2].
Qed.

Section FrontEnd.

Variable langgraph : GraphLibrary.
Variable llm : nat -> list Message -> string * list ToolCall + string.
Variable run_tool : nat -> ToolCall -> string + string.
Variable prompt : string.

Local Abbreviation invoke :=
  (fun run => invoke langgraph (llm run) (run_tool run) prompt).
Local Abbreviation stream :=
  (fun run => stream langgraph (llm run) (run_tool run) prompt).
Local Abbreviation agent_invoke := (agent_invoke langgraph llm run_tool prompt).
Local Abbreviation agent_stream_printing :=
  (agent_stream_printing langgraph llm run_tool prompt).
Local Abbreviation demo_step := (demo_step langgraph llm run_tool prompt).
Local Abbreviation run_demo_queries :=
  (run_demo_queries langgraph llm run_tool prompt).
Local Abbreviation run_single_query :=
  (run_single_query langgraph llm run_tool prompt).
Local Abbreviation stream_finishes :=
  (stream_finishes langgraph llm run_tool prompt).
Local Abbreviation invoke_returns :=
  (invoke_returns langgraph llm run_tool prompt).

(** Streaming a query with the steps printed: one call of the agent, no
    response printed, and the exception of the run when it fails. *)
Lemma agent_stream_printing_result (query : string) (w : World) :
  exists steps,
    agent_stream_printing query w
    = (AgentStream query :: steps,
       (if stream_finishes (runs w) query then inl tt
        else inr (RunFailed (snd (stream (runs w) query)))),
       mkWorld (S (runs w)) (stdin w)) /\
    List.filter is_agent_call steps = [] /\
    List.flat_map
      (fun e => match e with PrintResponse text => [text] | _ => [] end) steps
    = [].
Proof.
  unfold Main.agent_stream_printing, Main.stream_finishes.
  destruct (Agent.stream langgraph (llm (runs w)) (run_tool (runs w)) prompt
                         query) as [chunks r].
  eexists. split; [|apply print_steps_silent].
  cbn [snd]. now destruct r.
Qed.

Lemma agent_invoke_result (query : string) (w : World) :
  agent_invoke query w
  = ([AgentInvoke query],
     match invoke (runs w) query with
     | inl answer => inl answer
     | inr failure => inr (RunFailed failure)
     end,
     mkWorld (S (runs w)) (stdin w)).
Proof. reflexivity. Qed.

Lemma turn_end_silent total i w :
  List.filter is_agent_call (events (turn_end total i w)) = [] /\
  List.flat_map
    (fun e => match e with PrintResponse text => [text] | _ => [] end)
    (events (turn_end total i w)) = [] /\
  runs (world (turn_end total i w)) = runs w.
Proof.
  unfold turn_end, wait_for_enter.
  destruct (Nat.ltb i total); [|now repeat split].
  destruct (read (stdin w)) as [input rest]. now repeat split.
Qed.

(** One turn of the demo loop with the steps shown. *)
Lemma demo_step_verbose total i query w :
  agent_calls (demo_step true total i query w) = [AgentStream query] /\
  responses (demo_step true total i query w)
  = (if stream_finishes (runs w) query then ["See steps above"] else []) /\
  runs (world (demo_step true total i query w)) = S (runs w) /\
  (stream_finishes (runs w) query = true ->
   outcome (demo_step true total i query w)
   = outcome (turn_end total i (mkWorld (S (runs w)) (stdin w))) /\
   stdin (world (demo_step true total i query w))
   = stdin (world (turn_end total i (mkWorld (S (runs w)) (stdin w))))).
Proof.
  unfold Main.demo_step. fold (turn_end total i). cbn [negb].
  destruct (agent_stream_printing_result query w) as (steps & Hs & Hc & Hr).
  unfold bind. rewrite Hs.
  destruct (stream_finishes (runs w) query).
  - unfold ret, emit. cbv beta iota.
    destruct (turn_end_silent total i (mkWorld (S (runs w)) (stdin w)))
      as (Hc' & Hr' & Hw').
    destruct (turn_end total i (mkWorld (S (runs w)) (stdin w)))
      as [[ev r] w'].
    unfold agent_calls, responses, events, outcome, world in *.
    cbn [fst snd List.app List.filter is_agent_call List.flat_map] in *.
    rewrite !List.filter_app, !List.flat_map_app, Hc, Hr.
    cbn [List.app List.filter is_agent_call List.flat_map].
    rewrite Hc', Hr'. now repeat split.
  - unfold agent_calls, responses, events, outcome, world.
    cbn [fst snd List.filter is_agent_call List.flat_map List.app runs].
    rewrite Hc, Hr. split; [reflexivity|]. split; [reflexivity|].
    split; [reflexivity | discriminate].
Qed.

(** One turn of the demo loop with the steps hidden. *)
Lemma demo_step_quiet total i query w :
  agent_calls (demo_step false total i query w)
  = (if invoke_returns (runs w) query
     then [AgentInvoke query; AgentInvoke query]
     else [AgentInvoke query]) /\
  responses (demo_step false total i query w)
  = match invoke (runs w) query, invoke (S (runs w)) query with
    | inl _, inl answer => [answer]
    | _, _ => []
    end /\
  (invoke_returns (runs w) query = true ->
   invoke_returns (S (runs w)) query = true ->
   runs (world (demo_step false total i query w)) = S (S (runs w)) /\
   outcome (demo_step false total i query w)
   = outcome (turn_end total i (mkWorld (S (S (runs w))) (stdin w))) /\
   stdin (world (demo_step false total i query w))
   = stdin (world (turn_end total i (mkWorld (S (S (runs w))) (stdin w))))).
Proof.
  unfold Main.demo_step, Main.invoke_returns. fold (turn_end total i).
  cbn [negb]. unfold bind. rewrite !agent_invoke_result.
  destruct (invoke (runs w) query) as [first|failure].
  - unfold ret. cbv beta iota. rewrite agent_invoke_result. cbn [runs stdin].
    destruct (invoke (S (runs w)) query) as [answer|failure].
    + unfold emit. cbv beta iota.
      destruct (turn_end_silent total i (mkWorld (S (S (runs w))) (stdin w)))
        as (Hc' & Hr' & Hw').
      destruct (turn_end total i (mkWorld (S (S (runs w))) (stdin w)))
        as [[ev r] w'].
      unfold agent_calls, responses, events, outcome, world in *.
      cbn [fst snd List.app List.filter is_agent_call List.flat_map] in *.
      rewrite Hc', Hr'. now repeat split.
    + split; [reflexivity|]. split; [reflexivity | discriminate].
  - split; [reflexivity|]. split; [reflexivity | discriminate].
Qed.

(** The loop of the demo, query by query. *)
Lemma for_each_cons {A} (body : A -> IO unit) (x : A) (rest : list A)
      (w : World) :
  for_each (x :: rest) body w =
  match outcome (body x w) with
  | inl _ =>
      (events (body x w) ++ events (for_each rest body (world (body x w))),
       outcome (for_each rest body (world (body x w))),
       world (for_each rest body (world (body x w))))
  | inr e => (events (body x w), inr e, world (body x w))
  end.
Proof.
  cbn [for_each].
  exact (bind_result (body x) (fun _ => for_each rest body) w).
Qed.

Lemma agent_calls_sequence {A} (ev ev' : list Event) (r : A + Uncaught) w :
  agent_calls (ev ++ ev', r, w)
  = (List.filter is_agent_call ev ++ List.filter is_agent_call ev')%list.
Proof. unfold agent_calls, events. cbn [fst]. apply List.filter_app. Qed.

Lemma responses_app {A} (ev ev' : list Event) (r : A + Uncaught) w :
  responses (ev ++ ev', r, w)
  = (responses (ev, r, w) ++ responses (ev', r, w))%list.
Proof. unfold responses, events. cbn [fst]. apply List.flat_map_app. Qed.

(** The wait after a query that is not the last takes a line of the
    input. *)
Lemma turn_end_line total i (w : World) :
  match Nat.ltb i total, stdin w with
  | true, Line _ :: rest =>
      outcome (turn_end total i w) = inl tt /\
      stdin (world (turn_end total i w)) = rest
  | true, _ => exists e, outcome (turn_end total i w) = inr (InputFailed e)
  | false, _ =>
      outcome (turn_end total i w) = inl tt /\
      stdin (world (turn_end total i w)) = stdin w
  end.
Proof.
  unfold turn_end, wait_for_enter. destruct (Nat.ltb i total); [|now split].
  destruct (stdin w) as [|[text| |] rest]; cbn; eauto.
Qed.

(** The whole demo when every run finishes and the Enter key is pressed
    after each query but the last. *)
Lemma demo_loop (verbose : bool) (total : nat)
      (Hstream : forall run query, stream_finishes run query = true)
      (Hinvoke : forall run query, invoke_returns run query = true) :
  forall (items : list string) (start : nat) (w : World),
    start + List.length items = S total ->
    lines_ahead (List.length items - 1) (stdin w) = true ->
    agent_calls
      (for_each (enumerate items start)
                (fun iq => demo_step verbose total (fst iq) (snd iq)) w)
    = List.flat_map
        (fun q => if verbose then [AgentStream q]
                  else [AgentInvoke q; AgentInvoke q]) items /\
    outcome
      (for_each (enumerate items start)
                (fun iq => demo_step verbose total (fst iq) (snd iq)) w)
    = inl tt.
Proof.
  induction items as [|q items IH]; intros start w Hlen Hlines;
    [now split|].
  cbn [enumerate]. rewrite for_each_cons. cbn [fst snd].
  assert (Hstep :
    agent_calls (demo_step verbose total start q w)
    = (if verbose then [AgentStream q] else [AgentInvoke q; AgentInvoke q]) /\
    exists n,
      outcome (demo_step verbose total start q w)
      = outcome (turn_end total start (mkWorld n (stdin w))) /\
      stdin (world (demo_step verbose total start q w))
      = stdin (world (turn_end total start (mkWorld n (stdin w))))).
  { destruct verbose.
    - destruct (demo_step_verbose total start q w) as (Hc & _ & _ & Hw).
      split; [exact Hc|]. exists (S (runs w)). exact (Hw (Hstream _ _)).
    - destruct (demo_step_quiet total start q w) as (Hc & _ & Hw).
      rewrite Hinvoke in Hc. split; [exact Hc|]. exists (S (S (runs w))).
      exact (proj2 (Hw (Hinvoke _ _) (Hinvoke _ _))). }
  destruct Hstep as (Hcalls & n & Hout & Hin).
  pose proof (turn_end_line total start (mkWorld n (stdin w))) as Hend.
  cbn [stdin] in Hend. cbn [List.length] in Hlen, Hlines.
  assert (Hnext :
    outcome (demo_step verbose total start q w) = inl tt /\
    lines_ahead (List.length items - 1)
                (stdin (world (demo_step verbose total start q w))) = true).
  { rewrite Hout, Hin. destruct items as [|q' items].
    - replace (Nat.ltb start total) with false in Hend
        by (symmetry; apply Nat.ltb_ge; cbn in Hlen; lia).
      destruct Hend as [-> _]. now split.
    - replace (Nat.ltb start total) with true in Hend
        by (symmetry; apply Nat.ltb_lt; cbn in Hlen; lia).
      cbn [List.length Nat.sub] in Hlines.
      rewrite ?Nat.sub_0_r in Hlines. cbn [lines_ahead] in Hlines.
      destruct (stdin w) as [|[text| |] rest]; try discriminate.
      destruct Hend as [-> ->]. split; [reflexivity|].
      cbn [List.length Nat.sub]. now rewrite ?Nat.sub_0_r. }
  destruct Hnext as [Hok Hlines'].
  rewrite Hok.
  destruct (IH (S start) (world (demo_step verbose total start q w))
               ltac:(lia) Hlines') as [IHc IHo].
  split.
  - unfold agent_calls in *. unfold events at 1. cbn [fst].
    rewrite List.filter_app, Hcalls, IHc. cbn [List.flat_map].
    now destruct verbose.
  - exact IHo.
Qed.

(** The single-query mode. *)
Lemma run_single_query_result (query : string) (verbose : bool) (w : World) :
  agent_calls (run_single_query query verbose w)
  = (if verbose
     then if stream_finishes (runs w) query
          then [AgentStream query; AgentInvoke query]
          else [AgentStream query]
     else [AgentInvoke query]) /\
  outcome (run_single_query query verbose w)
  = (if verbose
     then if stream_finishes (runs w) query
          then match invoke (S (runs w)) query with
               | inl answer => inl answer
               | inr failure => inr (RunFailed failure)
               end
          else inr (RunFailed (snd (stream (runs w) query)))
     else match invoke (runs w) query with
          | inl answer => inl answer
          | inr failure => inr (RunFailed failure)
          end) /\
  responses (run_single_query query verbose w)
  = match outcome (run_single_query query verbose w) with
    | inl answer => [answer]
    | inr _ => []
    end.
Proof.
  unfold Main.run_single_query, bind. destruct verbose.
  - destruct (agent_stream_printing_result query w) as (steps & -> & Hc & Hr).
    destruct (stream_finishes (runs w) query).
    + rewrite agent_invoke_result. cbn [runs stdin].
      destruct (invoke (S (runs w)) query) as [answer|failure];
        unfold ret, emit; cbv beta iota;
        unfold agent_calls, responses, events, outcome;
        cbn [fst snd List.app List.filter is_agent_call List.flat_map];
        rewrite ?List.filter_app, ?List.flat_map_app, ?Hc, ?Hr;
        now repeat split.
    + unfold agent_calls, responses, events, outcome.
      cbn [fst snd List.app List.filter is_agent_call List.flat_map].
      rewrite Hc, Hr. now repeat split.
  - unfold ret. cbv beta iota. rewrite agent_invoke_result.
    destruct (invoke (runs w) query) as [answer|failure];
      unfold emit; cbv beta iota; now repeat split.
Qed.

(** C9 (amended). In demo mode with the steps shown, a query calls the agent
    once, through [stream] only, and the final response printed is the
    fixed text, if the run finishes; with the steps hidden it calls
    [invoke], and a second time when the first call returned. The
    single-query mode with the steps shown calls [stream] and then, unless
    the streaming run failed, [invoke], whose answer it prints and returns;
    with the steps hidden it calls [invoke] once; a run of it that fails
    ends the function with that failure. When every run finishes and the
    Enter key is pressed after each demo query but the last, the demo makes
    one call of [stream] per query with the steps shown and two calls of
    [invoke] per query with the steps hidden; when the input is at its end,
    the demo with the steps shown ends after its first query, with
    [EOFError]. *)
Theorem agent_runs_per_query (w : World) :
  (forall total i query,
     agent_calls (demo_step true total i query w) = [AgentStream query] /\
     responses (demo_step true total i query w)
     = (if stream_finishes (runs w) query then ["See steps above"] else [])) /\
  (forall total i query,
     agent_calls (demo_step false total i query w)
     = (if invoke_returns (runs w) query
        then [AgentInvoke query; AgentInvoke query]
        else [AgentInvoke query]) /\
     responses (demo_step false total i query w)
     = match invoke (runs w) query, invoke (S (runs w)) query with
       | inl _, inl answer => [answer]
       | _, _ => []
       end) /\
  (forall query verbose,
     agent_calls (run_single_query query verbose w)
     = (if verbose
        then if stream_finishes (runs w) query
             then [AgentStream query; AgentInvoke query]
             else [AgentStream query]
        else [AgentInvoke query]) /\
     outcome (run_single_query query verbose w)
     = (if verbose
        then if stream_finishes (runs w) query
             then match invoke (S (runs w)) query with
                  | inl answer => inl answer
                  | inr failure => inr (RunFailed failure)
                  end
             else inr (RunFailed (snd (stream (runs w) query)))
        else match invoke (runs w) query with
             | inl answer => inl answer
             | inr failure => inr (RunFailed failure)
             end) /\
     responses (run_single_query query verbose w)
     = match outcome (run_single_query query verbose w) with
       | inl answer => [answer]
       | inr _ => []
       end) /\
  ((forall run query, stream_finishes run query = true) ->
   (forall run query, invoke_returns run query = true) ->
   lines_ahead 4 (stdin w) = true ->
   forall verbose,
     agent_calls (run_demo_queries verbose w)
     = List.flat_map
         (fun q => if verbose then [AgentStream q]
                   else [AgentInvoke q; AgentInvoke q]) demo_queries /\
     outcome (run_demo_queries verbose w) = inl tt) /\
  (stream_finishes (runs w) "What is 25 multiplied by 4, then add 50?" = true ->
   stdin w = [] ->
   agent_calls (run_demo_queries true w)
   = [AgentStream "What is 25 multiplied by 4, then add 50?"] /\
   outcome (run_demo_queries true w) = inr (InputFailed EOFError)).
Proof.
  split; [|split; [|split; [|split]]].
  - intros total i query.
    destruct (demo_step_verbose total i query w) as (Hc & Hr & _).
    now split.
  - intros total i query.
    destruct (demo_step_quiet total i query w) as (Hc & Hr & _).
    now split.
  - intros query verbose. apply run_single_query_result.
  - intros Hstream Hinvoke Hlines verbose. unfold Main.run_demo_queries.
    apply (demo_loop verbose Hstream Hinvoke); [reflexivity | exact Hlines].
  - intros Hfin Hstdin. unfold Main.run_demo_queries. cbn [demo_queries
      enumerate List.length]. rewrite for_each_cons. cbn [fst snd].
    destruct (demo_step_verbose 5 1 "What is 25 multiplied by 4, then add 50?"
                                w) as (Hc & _ & _ & Hw).
    destruct (Hw Hfin) as [Hout _].
    rewrite Hout. unfold turn_end, wait_for_enter. cbn [Nat.ltb Nat.leb stdin].
    rewrite Hstdin. cbn [read outcome fst snd].
    split; [|reflexivity].
    unfold agent_calls at 1. unfold events at 1. cbn [fst]. exact Hc.
Qed.

End FrontEnd.

(** C9 (amended) at a model that answers at once, with four presses of the
    Enter key: five queries, five calls of [stream]. *)
Lemma agent_runs_per_query_witness :
  agent_calls (run_demo_queries library_25 (fun _ => direct_llm)
                                (fun _ => scripted_tool)
                                "You are a helpful agent." true
                                (start [Line ""; Line ""; Line ""; Line ""]))
  = List.map AgentStream demo_queries.
Proof.
  assert (Hstream : forall run query,
            stream_finishes library_25 (fun _ => direct_llm)
                            (fun _ => scripted_tool)
                            "You are a helpful agent." run query = true)
    by reflexivity.
  assert (Hinvoke : forall run query,
            invoke_returns library_25 (fun _ => direct_llm)
                           (fun _ => scripted_tool)
                           "You are a helpful agent." run query = true)
    by reflexivity.
  exact (proj1 (proj1 (proj2 (proj2 (proj2
           (agent_runs_per_query library_25 (fun _ => direct_llm)
              (fun _ => scripted_tool) "You are a helpful agent."
              (start [Line ""; Line ""; Line ""; Line ""])))))
           Hstream Hinvoke eq_refl true)).
Defined.

(** C9 (as stated) fails: in demo mode with [verbose] true the first demo
    query is run once, through [stream]; no [invoke] follows it, and the
    answer printed is the fixed text. So it is for all five queries. *)
Lemma demo_verbose_runs_each_query_once :
  events (demo_step library_25 (fun _ => direct_llm) (fun _ => scripted_tool)
                    "You are a helpful agent." true 5 1
                    "What is 25 multiplied by 4, then add 50?"
                    (start [Line ""; Line ""; Line ""; Line ""]))
  = [ AgentStream "What is 25 multiplied by 4, then add 50?";
      PrintStep 1 agent [AIMessage "Done." []];
      PrintResponse "See steps above";
      WaitForEnter ] /\
  agent_calls (run_demo_queries library_25 (fun _ => direct_llm)
                                (fun _ => scripted_tool)
                                "You are a helpful agent." true
                                (start [Line ""; Line ""; Line ""; Line ""]))
  = List.map AgentStream demo_queries.
Proof. split; vm_compute; reflexivity. Qed.

End MainFacts.

(** ** The constructor and the factory *)

Module FactoryFacts.
Import Factory.

Section ReActAgent.

Variable LLM : Type.
Variable bind_tools :
  LLM -> list string ->
  list Agent.Message -> string * list Agent.ToolCall + string.
Variable ToolNode : list string -> Agent.ToolCall -> string + string.
Variable ChatGoogleGenerativeAI :
  string -> string -> spec_float -> LLM + string.

Local Abbreviation create_react_agent :=
  (create_react_agent bind_tools ToolNode ChatGoogleGenerativeAI).

(** The chain of [or] picks the first text that is neither [None] nor
    empty. *)
Lemma or_else_first_nonempty (a b c : option string) :
  Py.or_else (Py.or_else a b) c =
  match first_nonempty [a; b; c] with
  | Some key => Some key
  | None => c
  end.
Proof.
  destruct a as [[|x a]|], b as [[|y b]|], c as [[|z c]|]; reflexivity.
Qed.

Lemma first_nonempty_None (a b c : option string) :
  first_nonempty [a; b; c] = None ->
  Py.truthy_text (Py.or_else (Py.or_else a b) c) = false.
Proof.
  destruct a as [[|x a]|], b as [[|y b]|], c as [[|z c]|];
    try discriminate; reflexivity.
Qed.

Lemma first_nonempty_Some (a b c : option string) key :
  first_nonempty [a; b; c] = Some key ->
  Py.or_else (Py.or_else a b) c = Some key /\
  exists x rest, key = String x rest.
Proof.
  destruct a as [[|x a]|], b as [[|y b]|], c as [[|z c]|];
    try discriminate; intros [= <-]; split; eauto.
Qed.

(** X6. [create_react_agent] uses the first of its argument,
    [GOOGLE_API_KEY] and [GEMINI_API_KEY] that is neither [None] nor empty,
    and raises [ValueError] exactly when there is none; the agent it builds
    always has the long default system prompt, and the default tools unless
    a list that is not empty is given. *)
Theorem create_react_agent_resolves_key environ api_key model temperature
        tools :
  create_react_agent environ api_key model temperature tools =
  match first_nonempty [api_key; GOOGLE_API_KEY environ;
                        GEMINI_API_KEY environ] with
  | Some key =>
      match ChatGoogleGenerativeAI model key temperature with
      | inl llm =>
          let tools :=
            match tools with
            | Some (t :: ts) => t :: ts
            | _ => ALL_TOOLS
            end in
          inl (mkReActAgent tools Prompts.REACT_SYSTEM_PROMPT
                            (bind_tools llm tools) (ToolNode tools))
      | inr detail => inr (Agent.ModelCallError detail)
      end
  | None =>
      inr (Agent.ValueError
             "API key required. Set GOOGLE_API_KEY environment variable or pass api_key parameter.")
  end.
Proof.
  unfold Factory.create_react_agent.
  destruct (first_nonempty [api_key; GOOGLE_API_KEY environ;
                            GEMINI_API_KEY environ]) as [key|] eqn:E.
  - destruct (first_nonempty_Some _ _ _ E) as (-> & x & rest & ->).
    reflexivity.
  - pose proof (first_nonempty_None _ _ _ E) as H.
    destruct (Py.or_else (Py.or_else api_key (GOOGLE_API_KEY environ))
                         (GEMINI_API_KEY environ)) as [[|x rest]|];
      try reflexivity. discriminate.
Qed.

End ReActAgent.

End FactoryFacts.

(** ** The interactive mode and the entry point of [main.py] *)

Module AppFacts.
Import Agent Stdin App.

Lemma agent_calls_app (a b : list Event) :
  agent_calls (a ++ b) = agent_calls a ++ agent_calls b.
Proof. unfold agent_calls. apply List.filter_app. Qed.

Lemma handle_calls failure : agent_calls (fst (handle failure)) = [].
Proof.
  unfold handle.
  destruct (is_KeyboardInterrupt failure); [reflexivity|].
  destruct (is_Exception failure); reflexivity.
Qed.

(** An exception of the agent ends the session when it is
    [KeyboardInterrupt], leaves it when it is no [Exception], and is
    reported otherwise. *)
Lemma handle_ending failure :
  handle failure = ([Interrupted], Some Returned) \/
  handle failure = ([Error (CaughtFailure failure)], None) \/
  (handle failure = ([], Some (Escaped failure)) /\
   exists exception,
     failure = Raised (ToolRaised exception) /\
     exception <> "KeyboardInterrupt").
Proof.
  unfold handle.
  destruct failure as [st|st|[d| |l|d|name]]; cbn [is_KeyboardInterrupt];
    auto.
  destruct (String.eqb name "KeyboardInterrupt") eqn:E; auto.
  destruct (is_Exception (Raised (ToolRaised name))); auto.
  right. right. split; [reflexivity|]. exists name. split; [reflexivity|].
  now apply String.eqb_neq.
Qed.

Lemma follow_calls chunks : forall step_num final_response,
  agent_calls (fst (follow step_num final_response chunks)) = [].
Proof.
  induction chunks as [|[n update] chunks IH]; intros k fr; [reflexivity|].
  cbn [follow]. destruct (last_message update) as [m|]; [|reflexivity].
  specialize (IH (S k) (Some (content m))).
  destruct (follow (S k) (Some (content m)) chunks) as [events r].
  exact IH.
Qed.

(** On chunks none of which is empty every step is printed, and the final
    response is the content of the last message of the last chunk. *)
Lemma follow_nonempty earlier : forall step_num final_response n update m,
  List.Forall (fun c => snd c <> []) earlier ->
  follow step_num final_response (earlier ++ [(n, update ++ [m])])
  = (printed_steps (earlier ++ [(n, update ++ [m])]) step_num,
     Some (Some (content m))).
Proof.
  induction earlier as [|[n0 u0] earlier IH]; intros k fr n update m HF.
  - cbn [follow List.app]. now rewrite AgentFacts.last_message_snoc.
  - inversion HF as [|c cs Hne HF']; subst. cbn [follow List.app].
    destruct (last_message u0) as [m0|] eqn:E.
    + rewrite (IH (S k) (Some (content m0)) n update m HF'). reflexivity.
    + apply AgentFacts.last_message_None in E. now elim Hne.
Qed.

Section Interactive.

Variable langgraph : GraphLibrary.
Variable llm : list Message -> string * list ToolCall + string.
Variable run_tool : ToolCall -> string + string.
Variable prompt : string.

Local Abbreviation answer_query :=
  (answer_query langgraph llm run_tool prompt).
Local Abbreviation interactive_loop :=
  (interactive_loop langgraph llm run_tool prompt).
Local Abbreviation turn := (turn langgraph llm run_tool prompt).
Local Abbreviation invoke := (invoke langgraph llm run_tool prompt).
Local Abbreviation stream := (stream langgraph llm run_tool prompt).

(** The loop, turn by turn. *)
Lemma interactive_loop_turn fuel verbose stdin :
  interactive_loop (S fuel) verbose stdin =
  match turn verbose (fst (read stdin)) with
  | (events, inl verbose') =>
      let (more, ending) :=
        interactive_loop fuel verbose' (snd (read stdin)) in
      (Prompt :: events ++ more, ending)
  | (events, inr ending) => (Prompt :: events, ending)
  end.
Proof.
  cbn [App.interactive_loop]. destruct (read stdin) as [input rest].
  cbn [fst snd]. unfold App.turn. destruct input as [text| |]; try reflexivity.
  destruct (Py.strip text) as [|c q]; [reflexivity|].
  destruct (List.existsb _ _); [reflexivity|].
  destruct (String.eqb _ _); [reflexivity|].
  destruct (prefix _ _); [reflexivity|].
  destruct (answer_query verbose (String c q)) as [events [ending|]];
    reflexivity.
Qed.

(** One query is one call of the agent. *)
Lemma answer_query_calls verbose query :
  agent_calls (fst (answer_query verbose query))
  = [Front (if verbose then Main.AgentStream query
            else Main.AgentInvoke query)].
Proof.
  unfold App.answer_query. destruct verbose.
  - destruct (Agent.stream langgraph llm run_tool prompt query) as [chunks r].
    pose proof (follow_calls chunks 1 None) as Hsteps.
    destruct (follow 1 None chunks) as [steps [final|]]; cbn [fst] in *.
    + assert (Hgoal : forall events (ending : option Ending),
                agent_calls events = [] ->
                agent_calls
                  (fst (Thinking :: Front (Main.AgentStream query)
                          :: steps ++ events, ending))
                = [Front (Main.AgentStream query)]).
      { intros events ending He. cbn [fst].
        change (Thinking :: Front (Main.AgentStream query) :: steps ++ events)
          with ([Thinking; Front (Main.AgentStream query)] ++ steps ++ events).
        now rewrite !agent_calls_app, Hsteps, He. }
      destruct r as [st|st|e].
      * now apply Hgoal.
      * pose proof (handle_calls (GraphRecursionError st)) as Hh.
        destruct (handle (GraphRecursionError st)) as [events ending].
        now apply Hgoal.
      * pose proof (handle_calls (Raised e)) as Hh.
        destruct (handle (Raised e)) as [events ending]. now apply Hgoal.
    + change (Thinking :: Front (Main.AgentStream query)
                :: steps ++ [Error CaughtIndexError])
        with ([Thinking; Front (Main.AgentStream query)]
                ++ steps ++ [Error CaughtIndexError]).
      now rewrite !agent_calls_app, Hsteps.
  - destruct (Agent.invoke langgraph llm run_tool prompt query) as [answer|failure];
      [reflexivity|].
    pose proof (handle_calls failure) as Hh.
    destruct (handle failure) as [events ending]. cbn [fst] in *.
    change (Thinking :: Front (Main.AgentInvoke query) :: events)
      with ([Thinking; Front (Main.AgentInvoke query)] ++ events).
    now rewrite agent_calls_app, Hh.
Qed.

(** The calls of the agent in one turn. *)
Lemma turn_calls verbose input :
  List.length (agent_calls (fst (turn verbose input)))
  = if no_query input then 0 else 1.
Proof.
  unfold App.turn, no_query, is_command.
  destruct input as [text| |]; try reflexivity.
  destruct (Py.strip text) as [|c q]; [reflexivity|].
  destruct (List.existsb _ _); [reflexivity|].
  destruct (String.eqb _ _); [reflexivity|].
  destruct (prefix _ _); [reflexivity|]. cbn [orb].
  pose proof (answer_query_calls verbose (String c q)) as H.
  destruct (answer_query verbose (String c q)) as [events [ending|]];
    cbn [fst] in *; now rewrite H.
Qed.

(** A turn on an input that stays in the loop goes on to the next turn. *)
Lemma turn_stays verbose input :
  stays input = true ->
  exists events verbose', turn verbose input = (events, inl verbose').
Proof.
  unfold App.turn, stays, is_command, is_quit.
  destruct input as [text| |]; try discriminate; [|eauto].
  destruct (Py.strip text) as [|c q]; [eauto|].
  destruct (List.existsb _ _); [discriminate|].
  destruct (String.eqb _ _); [eauto|].
  destruct (prefix _ _); [eauto|discriminate].
Qed.

Lemma turn_quit verbose text :
  is_quit text = true -> turn verbose (Line text) = ([Goodbye], inr Returned).
Proof.
  unfold App.turn, is_quit. destruct (Py.strip text) as [|c q];
    [discriminate|]. now intros ->.
Qed.

(** How a turn can end the session. *)
Lemma turn_ending verbose input events ending :
  turn verbose input = (events, inr ending) ->
  (ending = Returned /\
   exists earlier,
     events = earlier ++ [Goodbye] \/ events = earlier ++ [Interrupted]) \/
  (exists exception,
     ending = Escaped (Raised (ToolRaised exception)) /\
     exception <> "KeyboardInterrupt").
Proof.
  unfold App.turn. destruct input as [text| |]; try discriminate.
  - destruct (Py.strip text) as [|c q]; [discriminate|].
    destruct (List.existsb _ _).
    { intros [= <- <-]. left. split; [reflexivity|]. exists []. now left. }
    destruct (String.eqb _ _); [discriminate|].
    destruct (prefix _ _); [discriminate|].
    unfold App.answer_query. destruct verbose.
    + destruct (Agent.stream langgraph llm run_tool prompt (String c q)) as [chunks r].
      destruct (follow 1 None chunks) as [steps [final|]]; [|discriminate].
      assert (Hh : forall failure ev en,
                (let (events0, ending0) := handle failure in
                 (Thinking :: Front (Main.AgentStream (String c q))
                    :: steps ++ events0, ending0)) = (ev, Some en) ->
                (en = Returned /\
                 exists earlier,
                   ev = earlier ++ [Goodbye] \/ ev = earlier ++ [Interrupted]) \/
                (exists exception,
                   en = Escaped (Raised (ToolRaised exception)) /\
                   exception <> "KeyboardInterrupt")).
      { intros failure ev en.
        destruct (handle_ending failure)
          as [->|[->|(-> & exception & -> & Hne)]]; try discriminate.
        - intros [= <- <-]. left. split; [reflexivity|].
          exists (Thinking :: Front (Main.AgentStream (String c q)) :: steps).
          now right.
        - intros [= <- <-]. right. now exists exception. }
      destruct r as [st|st|e]; [discriminate| |].
      * destruct (let (events0, ending0) := handle (GraphRecursionError st) in
                  (Thinking :: Front (Main.AgentStream (String c q))
                     :: steps ++ events0, ending0)) as [ev [en|]] eqn:E;
          [|discriminate]. intros [= <- <-].
        exact (Hh (GraphRecursionError st) _ _ E).
      * destruct (let (events0, ending0) := handle (Raised e) in
                  (Thinking :: Front (Main.AgentStream (String c q))
                     :: steps ++ events0, ending0)) as [ev [en|]] eqn:E;
          [|discriminate]. intros [= <- <-]. exact (Hh (Raised e) _ _ E).
    + destruct (Agent.invoke langgraph llm run_tool prompt (String c q))
        as [answer|failure]; [discriminate|].
      destruct (handle_ending failure)
        as [->|[->|(-> & exception & -> & Hne)]]; try discriminate.
      * intros [= <- <-]. left. split; [reflexivity|].
        exists [Thinking; Front (Main.AgentInvoke (String c q))]. now right.
      * intros [= <- <-]. right. now exists exception.
  - intros [= <- <-]. left. split; [reflexivity|]. exists []. now right.
Qed.

(** X7. A line that is [quit], [exit] or [q] (in any letter case, blanks
    around it or not) ends the session: the inputs after it are never read,
    and the loop has ended after at most one turn per input up to that line,
    whatever came before. *)
Theorem quit_ends_the_session (pre post : list Input) (text : string) :
  forall (fuel : nat) (verbose : bool),
  is_quit text = true ->
  List.length pre < fuel ->
  interactive_loop fuel verbose (pre ++ Line text :: post)
  = interactive_loop (S (List.length pre)) verbose (pre ++ [Line text]) /\
  snd (interactive_loop fuel verbose (pre ++ Line text :: post)) <> Unfinished.
Proof.
  induction pre as [|i pre IH]; intros fuel verbose Hq Hfuel;
    (destruct fuel as [|fuel]; [cbn in Hfuel; lia|]);
    rewrite !interactive_loop_turn; cbn [List.app read fst snd List.length].
  - rewrite (turn_quit verbose _ Hq). now split.
  - destruct (turn verbose i) as [events [verbose'|ending]] eqn:Hturn.
    + cbn [List.length] in Hfuel.
      destruct (IH fuel verbose' Hq ltac:(lia)) as [Heq Hne].
      rewrite Heq in *.
      destruct (interactive_loop (S (List.length pre)) verbose'
                                 (pre ++ [Line text])) as [more ending].
      now split.
    + split; [reflexivity|]. cbn [snd].
      destruct (turn_ending _ _ Hturn) as [[-> _]|(exception & -> & _)];
        discriminate.
Qed.

(** X8. In the interactive mode a query is run by the agent exactly once,
    through [stream] when the steps are shown and through [invoke]
    otherwise, whether the run succeeds or not; blank lines and the
    commands never reach the agent: a session calls the agent at most once
    per input line that is neither blank nor a command, and not at all when
    there is no such line. *)
Theorem interactive_mode_runs_a_query_once :
  (forall verbose query,
     agent_calls (fst (answer_query verbose query))
     = [Front (if verbose then Main.AgentStream query
               else Main.AgentInvoke query)]) /\
  (forall fuel verbose stdin,
     List.length (agent_calls (fst (interactive_loop fuel verbose stdin)))
     <= List.length (List.filter (fun i => negb (no_query i)) stdin)) /\
  (forall fuel verbose stdin,
     List.forallb no_query stdin = true ->
     agent_calls (fst (interactive_loop fuel verbose stdin)) = []).
Proof.
  assert (Hcount : forall fuel verbose stdin,
    List.length (agent_calls (fst (interactive_loop fuel verbose stdin)))
    <= List.length (List.filter (fun i => negb (no_query i)) stdin)).
  { induction fuel as [|fuel IH]; intros verbose stdin; [cbn; lia|].
    rewrite interactive_loop_turn.
    pose proof (turn_calls verbose (fst (read stdin))) as Hturn.
    assert (Hrest :
      (if no_query (fst (read stdin)) then 0 else 1)
      + List.length (List.filter (fun i => negb (no_query i))
                                 (snd (read stdin)))
      <= List.length (List.filter (fun i => negb (no_query i)) stdin)).
    { destruct stdin as [|i rest]; [cbn; lia|]. cbn [read fst snd List.filter].
      destruct (no_query i); cbn; lia. }
    destruct (turn verbose (fst (read stdin))) as [events [verbose'|ending]];
      cbn [fst] in Hturn.
    - specialize (IH verbose' (snd (read stdin))).
      destruct (interactive_loop fuel verbose' (snd (read stdin)))
        as [more ending]. cbn [fst] in *.
      change (Prompt :: events ++ more) with ([Prompt] ++ events ++ more).
      rewrite !agent_calls_app, !List.length_app. cbn [agent_calls List.filter
        is_agent_call List.length]. lia.
    - cbn [fst]. change (Prompt :: events) with ([Prompt] ++ events).
      rewrite agent_calls_app, List.length_app. cbn [agent_calls List.filter
        is_agent_call List.length]. lia. }
  split; [exact answer_query_calls|]. split; [exact Hcount|].
  intros fuel verbose stdin Hall.
  assert (Hnone : List.filter (fun i => negb (no_query i)) stdin = []).
  { clear Hcount. induction stdin as [|i rest IH]; [reflexivity|].
    cbn [List.forallb] in Hall. apply andb_true_iff in Hall.
    destruct Hall as [Hi Hrest]. cbn [List.filter]. rewrite Hi. cbn [negb].
    now apply IH. }
  specialize (Hcount fuel verbose stdin). rewrite Hnone in Hcount.
  destruct (agent_calls (fst (interactive_loop fuel verbose stdin)));
    [reflexivity | cbn in Hcount; lia].
Qed.

(** X9. A session whose input holds no [quit] and no interrupt, only blank
    lines, the commands [help] and [verbose], and ends of input, never
    ends: once the input is used up every call of [input()] raises
    [EOFError], which the loop reports and survives, so each further turn
    only adds one more error report. *)
Theorem session_without_quit_never_ends (stdin : list Input) :
  forall (fuel : nat) (verbose : bool),
  List.forallb stays stdin = true ->
  snd (interactive_loop fuel verbose stdin) = Unfinished /\
  fuel - List.length stdin
  <= List.length (List.filter is_EOF_error
                              (fst (interactive_loop fuel verbose stdin))).
Proof.
  intros fuel. revert stdin.
  induction fuel as [|fuel IH]; intros stdin verbose Hall; [now split|].
  rewrite interactive_loop_turn.
  assert (Hin : stays (fst (read stdin)) = true /\
                List.forallb stays (snd (read stdin)) = true /\
                (List.length (snd (read stdin)) = List.length stdin - 1) /\
                (stdin = [] -> fst (read stdin) = EOF)).
  { destruct stdin as [|i rest]; [now repeat split|].
    cbn [List.forallb] in Hall. apply andb_true_iff in Hall.
    destruct Hall as [Hi Hrest]. cbn. repeat split; try assumption; try lia.
    discriminate. }
  destruct Hin as (Hi & Hrest & Hlen & Hempty).
  destruct (turn_stays verbose _ Hi) as (events & verbose' & Hturn).
  rewrite Hturn. destruct (IH (snd (read stdin)) verbose' Hrest) as [Hend Herr].
  destruct (interactive_loop fuel verbose' (snd (read stdin)))
    as [more ending]. cbn [fst snd] in *. split; [exact Hend|].
  change (Prompt :: events ++ more) with ([Prompt] ++ events ++ more).
  rewrite !List.filter_app, !List.length_app.
  destruct stdin as [|i rest].
  - rewrite (Hempty eq_refl) in Hturn. cbn in Hturn. injection Hturn as <- _.
    cbn in *. lia.
  - cbn [List.length] in *. lia.
Qed.

(** X10. When a query has an answer, both ways of the interactive mode
    print that answer: with the steps hidden it is what [invoke] returns;
    with the steps shown every chunk of the stream is printed, numbered
    from 1, no index fails, and the final response, read off the last
    message of the last chunk, is the same text. *)
Theorem interactive_answer_is_the_answer_of_invoke (query answer : string) :
  invoke query = inl answer ->
  answer_query false query
  = ([Thinking; Front (Main.AgentInvoke query); Answer (Some answer)], None) /\
  answer_query true query
  = (Thinking :: Front (Main.AgentStream query)
       :: printed_steps (fst (stream query)) 1 ++ [Answer (Some answer)],
     None).
Proof.
  intros Hanswer. unfold App.answer_query. rewrite Hanswer.
  split; [reflexivity|].
  unfold Agent.invoke, Agent.graph_invoke in Hanswer. unfold Agent.stream.
  destruct (AgentFacts.pregel_stream_chunks langgraph llm run_tool prompt
              (DEFAULT_RECURSION_LIMIT langgraph) entry_point
              [HumanMessage query])
    as (Hr & _ & _ & Hlast).
  pose proof (AgentFacts.stream_updates_nonempty langgraph llm run_tool prompt
                (DEFAULT_RECURSION_LIMIT langgraph) [HumanMessage query])
    as Hne.
  fold entry_point in Hne.
  destruct (pregel_loop langgraph llm run_tool prompt
                        (DEFAULT_RECURSION_LIMIT langgraph)
                        entry_point [HumanMessage query])
    as [log|log|e] eqn:Hrun; try discriminate.
  destruct (Hlast _ eq_refl) as (earlier & text & Hchunks & ->).
  rewrite AgentFacts.last_message_snoc in Hanswer. injection Hanswer as <-.
  destruct (pregel_stream langgraph llm run_tool prompt
                          (DEFAULT_RECURSION_LIMIT langgraph)
                          entry_point [HumanMessage query]) as [chunks r].
  cbn [fst snd] in *. subst chunks r.
  apply List.Forall_app in Hne. destruct Hne as [Hne _].
  pose proof (follow_nonempty 1 None agent [] (AIMessage text []) Hne) as Hf.
  cbn [List.app] in Hf. rewrite Hf. reflexivity.
Qed.

(** The loop never ends the process itself. *)
Lemma interactive_loop_never_exits (fuel : nat) (verbose : bool)
      (stdin : list Input) (status : Z) :
  snd (interactive_loop fuel verbose stdin) <> Exit status.
Proof.
  revert verbose stdin.
  induction fuel as [|fuel IH]; intros verbose stdin; [discriminate|].
  rewrite interactive_loop_turn.
  destruct (turn verbose (fst (read stdin))) as [events [verbose'|ending]]
    eqn:Hturn.
  - specialize (IH verbose' (snd (read stdin))).
    now destruct (interactive_loop fuel verbose' (snd (read stdin))).
  - cbn [snd].
    destruct (turn_ending _ _ Hturn) as [(-> & _)|(exception & -> & _)];
      discriminate.
Qed.


End Interactive.

Section EntryPoint.

Variable langgraph : GraphLibrary.
Variable LLM : Type.
Variable bind_tools :
  LLM -> list string -> list Message -> string * list ToolCall + string.
Variable ToolNode : list string -> ToolCall -> string + string.
Variable ChatGoogleGenerativeAI :
  string -> string -> spec_float -> LLM + string.

Local Abbreviation main :=
  (main langgraph bind_tools ToolNode ChatGoogleGenerativeAI).
Local Abbreviation run_mode := (run_mode langgraph).
Local Abbreviation create_react_agent :=
  (Factory.create_react_agent bind_tools ToolNode ChatGoogleGenerativeAI).

(** The factory resolves the key the way [main] did. *)
Lemma create_react_agent_with_key environ api_key model temperature tools key :
  Factory.first_nonempty [api_key; Factory.GOOGLE_API_KEY environ;
                          Factory.GEMINI_API_KEY environ] = Some key ->
  create_react_agent environ
    (Py.or_else (Py.or_else api_key (Factory.GOOGLE_API_KEY environ))
                (Factory.GEMINI_API_KEY environ))
    model temperature tools
  = create_react_agent Factory.no_environ (Some key) model temperature tools.
Proof.
  intros Hkey.
  destruct (FactoryFacts.first_nonempty_Some _ _ _ Hkey) as (-> & x & rest & ->).
  reflexivity.
Qed.

(** X12. Without a key (no [--api-key], [GOOGLE_API_KEY] or
    [GEMINI_API_KEY] that is not empty) [main] prints the banner and the
    hint and exits with status 1: no agent is built, no input is read.
    With a key, the first of the three that is not empty, it behaves as if
    that key had been given on the command line and the environment held
    none: the factory receives it, and the factory's own [ValueError] for a
    missing key cannot occur. *)
Theorem main_checks_the_key (fuel : nat) (args : Args)
        (environ : Factory.Environ) (stdin : list Input) :
  match Factory.first_nonempty [api_key args; Factory.GOOGLE_API_KEY environ;
                                Factory.GEMINI_API_KEY environ] with
  | None =>
      main fuel args environ stdin
      = ([Banner (Helpers.create_demo_banner "ReAct Agent Demo"); MissingKey],
         Exit 1)
  | Some key =>
      main fuel args environ stdin
      = main fuel (mkArgs (query args) (demo args) (quiet args) (Some key)
                          (model args))
             Factory.no_environ stdin /\
      fst (main fuel args environ stdin) <>
        [Banner (Helpers.create_demo_banner "ReAct Agent Demo"); MissingKey] /\
      forall detail,
        create_react_agent environ
          (Py.or_else (Py.or_else (api_key args)
                                  (Factory.GOOGLE_API_KEY environ))
                      (Factory.GEMINI_API_KEY environ))
          (model args) Factory.DEFAULT_TEMPERATURE None
        <> inr (Agent.ValueError detail)
  end.
Proof.
  destruct (Factory.first_nonempty
              [api_key args; Factory.GOOGLE_API_KEY environ;
               Factory.GEMINI_API_KEY environ]) as [key|] eqn:Hkey.
  - unfold App.main. rewrite (create_react_agent_with_key _ _ _ _ _ Hkey).
    destruct (FactoryFacts.first_nonempty_Some _ _ _ Hkey)
      as (-> & x & rest & ->).
    cbn [api_key query demo quiet model Factory.GOOGLE_API_KEY
         Factory.GEMINI_API_KEY Factory.no_environ Py.or_else Py.truthy_text
         negb].
    split; [|split].
    + unfold App.run_mode. reflexivity.
    + destruct (create_react_agent Factory.no_environ (Some (String x rest))
                  (model args) Factory.DEFAULT_TEMPERATURE None)
        as [instance|e]; [|discriminate].
      destruct (run_mode instance args fuel stdin) as [events ending].
      destruct ending as [|status|failure|[|]|]; try discriminate.
      destruct (is_Exception failure); discriminate.
    + intros detail. unfold Factory.create_react_agent.
      cbn [Factory.GOOGLE_API_KEY Factory.GEMINI_API_KEY Factory.no_environ
           Py.or_else Py.truthy_text].
      destruct (ChatGoogleGenerativeAI (model args) (String x rest)
                                       Factory.DEFAULT_TEMPERATURE);
        discriminate.
  - unfold App.main.
    now rewrite (FactoryFacts.first_nonempty_None _ _ _ Hkey).
Qed.

(** X13. [--quiet] has an effect only in the single-query and demo modes:
    when no query is given (or an empty one) and [--demo] is not set, the
    interactive mode starts with the steps shown whatever [--quiet] says. *)
Theorem interactive_mode_ignores_quiet (fuel : nat) (args : Args)
        (environ : Factory.Environ) (stdin : list Input) (b : bool) :
  Py.truthy_text (query args) = false ->
  demo args = false ->
  main fuel (with_quiet b args) environ stdin = main fuel args environ stdin.
Proof.
  intros Hquery Hdemo. unfold App.main, with_quiet.
  cbn [api_key query demo quiet model].
  destruct (negb (Py.truthy_text _)); [reflexivity|].
  destruct (create_react_agent environ _ (model args)
              Factory.DEFAULT_TEMPERATURE None) as [instance|e];
    [|reflexivity].
  unfold App.run_mode. cbn [api_key query demo quiet model].
  rewrite Hdemo. now destruct (query args) as [[|c s]|].
Qed.

End EntryPoint.

(** X7 at a session of the scripted model: a command, a query, then
    [quit] with blanks and capitals; the line after it is not read. *)
Lemma quit_ends_the_session_witness :
  is_quit " QUIT " = true /\
  interactive_loop library_25 scripted_llm scripted_tool
                   "You are a helpful agent." 10 true
                   ([Line "help"; Line "What is 2 + 2?"]
                      ++ Line " QUIT " :: [Line "never read"])
  = interactive_loop library_25 scripted_llm scripted_tool
                     "You are a helpful agent." 3 true
                     ([Line "help"; Line "What is 2 + 2?"] ++ [Line " QUIT "]).
Proof.
  split; [reflexivity|].
  assert (Hfuel : List.length [Line "help"; Line "What is 2 + 2?"] < 10)
    by (cbn; lia).
  exact (proj1 (@quit_ends_the_session library_25 scripted_llm scripted_tool
                  "You are a helpful agent."
                  [Line "help"; Line "What is 2 + 2?"] [Line "never read"]
                  " QUIT " 10 true eq_refl Hfuel)).
Defined.

(** X9 at an input of two commands and a blank line: six turns, the last
    three of them on the exhausted input. *)
Lemma session_without_quit_never_ends_witness :
  snd (interactive_loop library_25 Main.direct_llm scripted_tool
                        "You are a helpful agent." 6 true
                        [Line "help"; Line "  "; Line "verbose off"])
  = Unfinished /\
  6 - 3
  <= List.length
       (List.filter is_EOF_error
          (fst (interactive_loop library_25 Main.direct_llm scripted_tool
                                 "You are a helpful agent." 6 true
                                 [Line "help"; Line "  "; Line "verbose off"]))).
Proof.
  exact (@session_without_quit_never_ends library_25 Main.direct_llm
           scripted_tool "You are a helpful agent."
           [Line "help"; Line "  "; Line "verbose off"] 6 true eq_refl).
Defined.

(** X10 at the run of the scripted model. *)
Lemma interactive_answer_is_the_answer_of_invoke_witness :
  answer_query library_25 scripted_llm scripted_tool
               "You are a helpful agent." false "What is 2 + 2?"
  = ([Thinking; Front (Main.AgentInvoke "What is 2 + 2?");
      Answer (Some "The answer is Result: 4")], None).
Proof.
  exact (proj1 (@interactive_answer_is_the_answer_of_invoke
                  library_25 scripted_llm scripted_tool
                  "You are a helpful agent."
                  "What is 2 + 2?" "The answer is Result: 4" eq_refl)).
Defined.

(** X13 at a command line with an empty [--query]: the interactive mode
    runs, the same with [--quiet] as without. *)
Lemma interactive_mode_ignores_quiet_witness :
  main library_25 (fun (_ : unit) _ => Main.direct_llm)
       (fun _ => scripted_tool) (fun _ _ _ => inl tt) 3
       (with_quiet true (mkArgs (Some EmptyString) false false None
                                "gemini-1.5-flash"))
       (Factory.mkEnviron (Some "key") None) [Line "quit"]
  = main library_25 (fun (_ : unit) _ => Main.direct_llm)
         (fun _ => scripted_tool) (fun _ _ _ => inl tt) 3
         (mkArgs (Some EmptyString) false false None "gemini-1.5-flash")
         (Factory.mkEnviron (Some "key") None) [Line "quit"].
Proof.
  exact (@interactive_mode_ignores_quiet library_25 unit
           (fun _ _ => Main.direct_llm) (fun _ => scripted_tool)
           (fun _ _ _ => inl tt) 3
           (mkArgs (Some EmptyString) false false None "gemini-1.5-flash")
           (Factory.mkEnviron (Some "key") None) [Line "quit"] true
           eq_refl eq_refl).
Defined.

End AppFacts.

(** ** The tools of [search.py] *)

Module TextFacts.

Lemma append_assoc (a b c : string) :
  ((a ++ b) ++ c = a ++ (b ++ c))%string.
Proof. induction a as [|x a IH]; simpl; [reflexivity | now rewrite IH]. Qed.

Lemma append_nil_r (a : string) : (a ++ EmptyString)%string = a.
Proof. induction a as [|x a IH]; simpl; [reflexivity | now rewrite IH]. Qed.

Lemma length_append (a b : string) :
  String.length (a ++ b) = String.length a + String.length b.
Proof. induction a as [|c a IH]; [reflexivity|]. cbn. now rewrite IH. Qed.

Lemma append_inj_l (a x y : string) : (a ++ x = a ++ y)%string -> x = y.
Proof.
  induction a as [|c a IH]; [auto|]. cbn. intros [= H]. now apply IH.
Qed.

Lemma append_inj_r (s : string) : forall a b : string,
  (a ++ s = b ++ s)%string -> a = b.
Proof.
  induction a as [|c a IH]; intros b H.
  - destruct b as [|d b]; [reflexivity|].
    apply (f_equal String.length) in H. rewrite !length_append in H.
    cbn in H. lia.
  - destruct b as [|d b].
    + apply (f_equal String.length) in H. rewrite !length_append in H.
      cbn in H. lia.
    + cbn in H. injection H as -> H. now rewrite (IH b H).
Qed.

Lemma prefix_app (x b : string) : prefix x (x ++ b) = true.
Proof.
  induction x as [|c x IH]; simpl; [now destruct b|].
  destruct (ascii_dec c c) as [_|Hne]; [exact IH | now elim Hne].
Qed.

Lemma prefix_inv (x : string) : forall s,
  prefix x s = true -> exists b, s = (x ++ b)%string.
Proof.
  induction x as [|c x IH]; intros s H.
  - now exists s.
  - destruct s as [|d s]; simpl in H; [discriminate|].
    destruct (ascii_dec c d) as [->|_]; [|discriminate].
    destruct (IH _ H) as (b & ->). now exists b.
Qed.

Lemma contains_unfold (x s : string) :
  Py.contains x s =
  prefix x s ||
  match s with EmptyString => false | String _ r => Py.contains x r end.
Proof. now destruct s. Qed.

(** Skipping a prefix of the text keeps an occurrence. *)
Lemma contains_skip (x a b : string) :
  Py.contains x b = true -> Py.contains x (a ++ b) = true.
Proof.
  intros H. induction a as [|c a IH]; [exact H|].
  simpl append. rewrite contains_unfold, IH. apply orb_true_r.
Qed.

Lemma contains_here (x b : string) : Py.contains x (x ++ b) = true.
Proof. rewrite contains_unfold, prefix_app. reflexivity. Qed.

(** [Py.contains] decides occurrence. *)
Lemma contains_spec (x s : string) :
  Py.contains x s = true <-> Search.occurs_in x s.
Proof.
  split.
  - induction s as [|c s IH]; rewrite contains_unfold; intros H.
    + rewrite orb_false_r in H. destruct (prefix_inv _ _ H) as (b & ->).
      now exists EmptyString, b.
    + apply orb_true_iff in H. destruct H as [H|H].
      * destruct (prefix_inv _ _ H) as (b & ->). now exists EmptyString, b.
      * destruct (IH H) as (a & b & ->). now exists (String c a), b.
  - intros (a & b & ->). apply contains_skip, contains_here.
Qed.

Lemma lower_char_idem (c : ascii) :
  Py.lower_char (Py.lower_char c) = Py.lower_char c.
Proof. destruct c as [[] [] [] [] [] [] [] []]; reflexivity. Qed.

Lemma lower_idem (s : string) : Py.lower (Py.lower s) = Py.lower s.
Proof.
  induction s as [|c s IH]; simpl; [reflexivity|].
  now rewrite lower_char_idem, IH.
Qed.

Lemma title_char_lower (b : bool) (c : ascii) :
  (Py.is_upper (Py.lower_char c) || Py.is_lower (Py.lower_char c)
   = Py.is_upper c || Py.is_lower c) /\
  (if Py.is_upper (Py.lower_char c) || Py.is_lower (Py.lower_char c)
   then if b then Py.lower_char (Py.lower_char c)
        else Py.upper_char (Py.lower_char c)
   else Py.lower_char c)
  = (if Py.is_upper c || Py.is_lower c
     then if b then Py.lower_char c else Py.upper_char c
     else c).
Proof. destruct b, c as [[] [] [] [] [] [] [] []]; split; reflexivity. Qed.

(** Titling does not depend on the case of the letters. *)
Lemma title_from_lower (s : string) : forall b,
  Py.title_from b (Py.lower s) = Py.title_from b s.
Proof.
  induction s as [|c s IH]; intros b; simpl; [reflexivity|].
  destruct (title_char_lower b c) as [-> ->]. now rewrite IH.
Qed.

End TextFacts.

(** ** The prompts and the helpers *)

Module PromptsFacts.
Import Prompts.

Lemma format_human_message_text (query : string) :
  format_human_message query
  = Formatted
      (Helpers.nl ++ "User Query: " ++ query ++ Helpers.nl ++ Helpers.nl
       ++ "Please help me with this request. Use your available tools if needed."
       ++ Helpers.nl)%string.
Proof. reflexivity. Qed.

(** X14. [format_human_message] never raises and puts the query, unchanged,
    between the two fixed parts of the template, whatever characters the
    query holds: braces in the query are not read as replacement fields. So
    the query occurs in the message, and the message determines the query:
    two queries with the same message are the same. *)
Theorem format_human_message_is_verbatim (query : string) :
  format_human_message query
  = Formatted
      (Helpers.nl ++ "User Query: " ++ query ++ Helpers.nl ++ Helpers.nl
       ++ "Please help me with this request. Use your available tools if needed."
       ++ Helpers.nl)%string /\
  (forall text,
     format_human_message query = Formatted text ->
     Py.contains query text = true) /\
  (forall other,
     format_human_message other = format_human_message query ->
     other = query).
Proof.
  split; [apply format_human_message_text|]. split.
  - intros text. rewrite format_human_message_text. intros [= <-].
    apply (TextFacts.contains_skip query Helpers.nl).
    apply (TextFacts.contains_skip query "User Query: ").
    apply TextFacts.contains_here.
  - intros other. rewrite !format_human_message_text. intros [= H].
    now apply TextFacts.append_inj_r in H.
Qed.

End PromptsFacts.

Module HelpersFacts.
Import Agent Helpers TextFacts.

(** *** Counting characters *)

Lemma len_app (a b : string) : Py.len (a ++ b) = Py.len a + Py.len b.
Proof.
  induction a as [|c a IH]; [reflexivity|]. cbn [append Py.len].
  destruct (Py.is_continuation c); now rewrite IH.
Qed.

Lemma len_repeat (s : string) (n : nat) :
  Py.len (Py.repeat s n) = n * Py.len s.
Proof.
  induction n as [|n IH]; [reflexivity|]. cbn [Py.repeat].
  rewrite len_app, IH. reflexivity.
Qed.

(** *** Slices *)

Lemma take_chars_prefix (s : string) : forall n,
  exists rest, s = (Py.take_chars n s ++ rest)%string.
Proof.
  induction s as [|c s IH]; intros n; [now exists EmptyString|].
  cbn [Py.take_chars]. destruct (Py.is_continuation c).
  - destruct (IH n) as (rest & H). exists rest. cbn [append]. now rewrite <- H.
  - destruct n as [|n]; [now exists (String c s)|].
    destruct (IH n) as (rest & H). exists rest. cbn [append]. now rewrite <- H.
Qed.

Lemma take_chars_len (s : string) : forall n,
  Py.len (Py.take_chars n s) = Nat.min n (Py.len s).
Proof.
  induction s as [|c s IH]; intros n; [now destruct n|].
  cbn [Py.take_chars Py.len]. destruct (Py.is_continuation c) eqn:E.
  - cbn [Py.len]. rewrite E. apply IH.
  - destruct n as [|n]; [reflexivity|]. cbn [Py.len]. rewrite E, IH.
    reflexivity.
Qed.

Lemma take_chars_all (s : string) : forall n,
  Py.len s <= n -> Py.take_chars n s = s.
Proof.
  induction s as [|c s IH]; intros n; [reflexivity|].
  cbn [Py.take_chars Py.len]. destruct (Py.is_continuation c).
  - intros H. now rewrite IH.
  - destruct n as [|n]; [lia|]. intros H. rewrite IH; [reflexivity | lia].
Qed.

(** X15. The display of a tool message shows the first 100 characters of
    the tool's output, all of it when it has no more, and ends with the three
    dots in both cases, also when nothing was cut. *)
Theorem format_message_shows_100_characters (content name id : string) :
  exists shown rest,
    content = (shown ++ rest)%string /\
    Py.len shown = Nat.min 100 (Py.len content) /\
    (Py.len content <= 100 -> shown = content) /\
    format_message (ToolMessage content name id)
    = ("⚙️  Tool (" ++ name ++ "): " ++ shown ++ "...")%string.
Proof.
  destruct (take_chars_prefix content 100) as (rest & Hrest).
  exists (Py.take_chars 100 content), rest.
  split; [exact Hrest|]. split; [apply take_chars_len|].
  split; [apply take_chars_all | reflexivity].
Qed.

(** *** The banner *)

Lemma banner_lines (title : string) :
  create_demo_banner title
  = (nl ++ border_line "╔" "╗" title ++ nl
     ++ title_line title ++ nl
     ++ subtitle_line title ++ nl
     ++ border_line "╚" "╝" title ++ nl)%string.
Proof.
  unfold create_demo_banner, border_line, title_line, subtitle_line,
    banner_width. cbv zeta.
  now rewrite !append_assoc.
Qed.

(** X16. The banner is four lines between newlines. Its two border lines
    are [width + 2] characters long, [width] being 60 or the title's length
    plus 10 if that is more. The title line is as long only when
    [width - len(title)] is even and the line below only when [width] is odd,
    each being one character short otherwise: both lines meet the right
    border exactly when the title has more than 50 characters, an odd
    number of them. With the default title, of 16 characters, the line
    below the title is one character short. *)
Theorem banner_alignment (title : string) :
  create_demo_banner title
  = (nl ++ border_line "╔" "╗" title ++ nl
     ++ title_line title ++ nl
     ++ subtitle_line title ++ nl
     ++ border_line "╚" "╝" title ++ nl)%string /\
  banner_width title = Nat.max 60 (Py.len title + 10) /\
  Py.len (border_line "╔" "╗" title) = banner_width title + 2 /\
  Py.len (border_line "╚" "╝" title) = banner_width title + 2 /\
  Py.len (title_line title)
  = banner_width title + 2 - (banner_width title - Py.len title) mod 2 /\
  Py.len (subtitle_line title)
  = banner_width title + 2 - (banner_width title - 29) mod 2 /\
  (Py.len (title_line title) = banner_width title + 2 /\
   Py.len (subtitle_line title) = banner_width title + 2
   <-> 50 < Py.len title /\ Py.len title mod 2 = 1) /\
  Py.len (border_line "╔" "╗" "ReAct Agent Demo") = 62 /\
  Py.len (title_line "ReAct Agent Demo") = 62 /\
  Py.len (subtitle_line "ReAct Agent Demo") = 61.
Proof.
  assert (Hborder : forall l r,
            Py.len l = 1 -> Py.len r = 1 ->
            Py.len (border_line l r title) = banner_width title + 2).
  { intros l r Hl Hr. unfold border_line.
    rewrite !len_app, len_repeat, Hl, Hr.
    change (Py.len "═") with 1. lia. }
  assert (Htitle : Py.len (title_line title)
                   = banner_width title + 2
                     - (banner_width title - Py.len title) mod 2).
  { unfold title_line. cbv zeta. rewrite !len_app, !len_repeat.
    change (Py.len "║") with 1. change (Py.len " ") with 1.
    pose proof (Nat.div_mod_eq (banner_width title - Py.len title) 2).
    pose proof (Nat.mod_upper_bound (banner_width title - Py.len title) 2).
    unfold banner_width in *. lia. }
  assert (Hsub : Py.len (subtitle_line title)
                 = banner_width title + 2 - (banner_width title - 29) mod 2).
  { unfold subtitle_line. cbv zeta. rewrite !len_app, !len_repeat.
    change (Py.len "║") with 1. change (Py.len " ") with 1.
    change (Py.len "Built with LangGraph + Gemini") with 29.
    pose proof (Nat.div_mod_eq (banner_width title - 29) 2).
    pose proof (Nat.mod_upper_bound (banner_width title - 29) 2).
    unfold banner_width in *. lia. }
  split; [apply banner_lines|]. split; [reflexivity|].
  split; [now apply Hborder|]. split; [now apply Hborder|].
  split; [exact Htitle|]. split; [exact Hsub|].
  split; [|repeat split; vm_compute; reflexivity].
  rewrite Htitle, Hsub. unfold banner_width.
  pose proof (Nat.div_mod_eq (Nat.max 60 (Py.len title + 10) - Py.len title) 2).
  pose proof (Nat.mod_upper_bound
                (Nat.max 60 (Py.len title + 10) - Py.len title) 2).
  pose proof (Nat.div_mod_eq (Nat.max 60 (Py.len title + 10) - 29) 2).
  pose proof (Nat.mod_upper_bound (Nat.max 60 (Py.len title + 10) - 29) 2).
  pose proof (Nat.div_mod_eq (Py.len title) 2).
  pose proof (Nat.mod_upper_bound (Py.len title) 2).
  lia.
Qed.

(** *** The conversation *)

Lemma print_messages_app (earlier later : list Message) : forall i,
  print_messages i (earlier ++ later)
  = (print_messages i earlier
     ++ print_messages (i + List.length earlier) later)%string.
Proof.
  induction earlier as [|m earlier IH]; intros i.
  - cbn. now rewrite Nat.add_0_r.
  - cbn [List.app print_messages List.length]. rewrite IH.
    replace (S i + List.length earlier) with (i + S (List.length earlier))
      by lia.
    now rewrite !append_assoc.
Qed.

(** X17. Printing a conversation that has grown prints first what printing
    the earlier conversation printed, then the new messages, numbered on
    from where the earlier ones ended: the number of a message never
    changes as the log grows. *)
Theorem print_conversation_extends (earlier later : list Message) :
  print_conversation (earlier ++ later)
  = (print_conversation earlier
     ++ print_messages (S (List.length earlier)) later)%string.
Proof.
  unfold print_conversation. rewrite print_messages_app.
  now rewrite !append_assoc.
Qed.

End HelpersFacts.

Module SearchFacts.
Import Search TextFacts.

Lemma lookup_In {A} (key : string) (d : list (string * A)) (v : A) :
  lookup key d = Some v -> List.In (key, v) d.
Proof.
  induction d as [|[k w] d IH]; simpl; [discriminate|].
  destruct (String.eqb key k) eqn:E.
  - apply String.eqb_eq in E. intros [= ->]. subst. now left.
  - intros H. right. now apply IH.
Qed.

Lemma is_ascii_lower (s : string) :
  Py.is_ascii s = true -> Py.is_ascii (Py.lower s) = true.
Proof.
  induction s as [|c s IH]; [reflexivity|]. cbn [Py.is_ascii Py.lower].
  intros H. apply andb_true_iff in H. destruct H as [Hc Hs].
  rewrite (IH Hs), andb_true_r. revert Hc.
  destruct c as [[] [] [] [] [] [] [] []]; vm_compute; congruence.
Qed.

Section Weather.

Variable str_lower : string -> string.
Variable str_title : string -> string.

Local Abbreviation get_weather := (get_weather str_lower str_title).
Local Abbreviation report := (report str_title).

Lemma get_weather_found (city : string) (data : Weather) :
  lookup (str_lower city) weather_data = Some data ->
  get_weather city = report city data.
Proof. intros H. unfold Search.get_weather. now rewrite H. Qed.

(** On every row of the table the float computation prints the exact
    quotient [(t - 32) * 5 / 9] rounded to one decimal place. *)
Lemma celsius_exact (key : string) (data : Weather) :
  List.In (key, data) weather_data ->
  celsius (temp data) = PyFloat.decimal_of_ratio ((temp data - 32) * 5) 9 1.
Proof.
  intros H. repeat (destruct H as [[= <- <-]|H]; [vm_compute; reflexivity|]).
  destruct H.
Qed.

Lemma report_mentions (city key : string) (data : Weather) :
  List.In (key, data) weather_data ->
  Py.contains (Py.str_int (temp data) ++ "°F") (report city data) = true /\
  Py.contains (celsius (temp data) ++ "°C") (report city data) = true.
Proof.
  intros H. unfold Search.report.
  repeat (destruct H as [[= <- <-]|H];
          [split; do 2 apply contains_skip; vm_compute; reflexivity|]).
  destruct H.
Qed.

(** C5. [get_weather] looks the lower-cased city up in the six-row table,
    for every city and whatever the interpreter's case conversion makes of
    its characters. When the lower-cased city is there the text returned is
    the report of that row: it contains the row's temperature followed by
    [°F] and the Celsius value [(°F - 32) * 5 / 9] rounded to one decimal
    place followed by [°C]; and every text with the same lower-cased form
    gets the report of the same row. When it is not there the text returned
    names the city as it was given and lists the six cities. On a city in
    ASCII, where the conversions are those of the letters [A-Z] and [a-z],
    the row is the one of the city with its capitals made small, and the
    text is the same as for that spelling. For "tokyo" the text contains
    "55°F" and "12.8°C". *)
Theorem get_weather_lookup (city : string) :
  (forall data,
     lookup (str_lower city) weather_data = Some data ->
     get_weather city = report city data /\
     Py.contains (Py.str_int (temp data) ++ "°F") (get_weather city) = true /\
     Py.contains
       (PyFloat.decimal_of_ratio ((temp data - 32) * 5) 9 1 ++ "°C")
       (get_weather city) = true /\
     (forall other,
        str_lower other = str_lower city ->
        get_weather other = report other data)) /\
  (lookup (str_lower city) weather_data = None ->
     get_weather city =
     ("Weather data not available for '" ++ city
      ++ "'. Available cities: new york, london, tokyo, sydney, paris, mumbai")%string) /\
  (agree_on_ascii str_lower Py.lower ->
   agree_on_ascii str_title Py.title ->
   (Py.is_ascii city = true ->
    lookup (str_lower city) weather_data = lookup (Py.lower city) weather_data /\
    (forall data,
       lookup (Py.lower city) weather_data = Some data ->
       get_weather city = report city data /\
       get_weather (Py.lower city) = get_weather city)) /\
   Py.contains "55°F" (get_weather "tokyo") = true /\
   Py.contains "12.8°C" (get_weather "tokyo") = true).
Proof.
  split; [|split].
  - intros data Hfound.
    pose proof (lookup_In _ _ Hfound) as Hin.
    rewrite (get_weather_found _ Hfound).
    destruct (report_mentions city Hin) as [HF HC].
    rewrite <- (celsius_exact Hin).
    repeat split; try assumption.
    intros other Hsame. apply get_weather_found. now rewrite Hsame.
  - intros Hmiss. unfold Search.get_weather. now rewrite Hmiss.
  - intros Hlower Htitle. split; [|split].
    + intros Hascii. rewrite (Hlower city Hascii). split; [reflexivity|].
      intros data Hfound.
      assert (Hcity : lookup (str_lower city) weather_data = Some data)
        by now rewrite (Hlower city Hascii).
      assert (Hsmall : lookup (str_lower (Py.lower city)) weather_data
                       = Some data)
        by now rewrite (Hlower _ (is_ascii_lower _ Hascii)), lower_idem.
      rewrite (get_weather_found _ Hcity), (get_weather_found _ Hsmall).
      split; [reflexivity|]. unfold Search.report.
      rewrite (Htitle _ (is_ascii_lower _ Hascii)), (Htitle city Hascii).
      unfold Py.title. now rewrite title_from_lower.
    + unfold Search.get_weather.
      rewrite (Hlower "tokyo" eq_refl), (Htitle "tokyo" eq_refl).
      vm_compute. reflexivity.
    + unfold Search.get_weather.
      rewrite (Hlower "tokyo" eq_refl), (Htitle "tokyo" eq_refl).
      vm_compute. reflexivity.
Qed.

End Weather.

(** C5 at ["Tokyo"], with the conversions of text in ASCII: the row is found
    whatever the case. *)
Lemma get_weather_lookup_witness :
  lookup (Py.lower "Tokyo") weather_data = Some (mkWeather 55 "Clear" 55) /\
  Py.contains "12.8°C" (get_weather Py.lower Py.title "Tokyo") = true /\
  get_weather Py.lower Py.title (Py.lower "Tokyo")
  = get_weather Py.lower Py.title "Tokyo".
Proof.
  split; [reflexivity|]. split.
  - exact (proj1 (proj2 (proj2
      (proj1 (get_weather_lookup Py.lower Py.title "Tokyo")
             (mkWeather 55 "Clear" 55) eq_refl)))).
  - exact (proj2 (proj2 (proj1
      (proj2 (proj2 (get_weather_lookup Py.lower Py.title "Tokyo"))
             (fun s _ => eq_refl) (fun s _ => eq_refl))
      eq_refl) (mkWeather 55 "Clear" 55) eq_refl)).
Defined.

Section Matching.

Variable today : string.

Local Abbreviation KNOWLEDGE_BASE := (KNOWLEDGE_BASE today).

(** The records [collect] returns are those whose key matches. *)
Lemma collect_In (q : string) (items : list (string * Topic)) (t : Topic) :
  List.In t (collect q items) <->
  exists key, List.In (key, t) items /\ key_matches q key = true.
Proof.
  induction items as [|[k d] items IH]; simpl.
  - split; [intros [] | intros (key & [] & _)].
  - destruct (key_matches q k) eqn:E; simpl; rewrite IH; split.
    + intros [<-|(key & Hin & Hm)]; [exists k | exists key]; auto.
    + intros (key & [[= <- <-]|Hin] & Hm); [now left|right; eauto].
    + intros (key & Hin & Hm). exists key. auto.
    + intros (key & [[= <- <-]|Hin] & Hm); [congruence | eauto].
Qed.

Lemma key_matches_spec (q key : string) :
  key_matches q key = true <->
  occurs_in key q \/
  exists word, List.In word (Py.split key) /\ occurs_in word q.
Proof.
  unfold key_matches, Py.any.
  rewrite orb_true_iff, contains_spec, List.existsb_exists.
  split; (intros [H|(w & Hin & Hw)]; [now left|right; exists w]);
    (split; [exact Hin|]); now apply contains_spec.
Qed.

(** The formatting loop prints the numbered list. *)
Lemma format_results_numbered (results : list Topic) : forall i,
  format_results i results = numbered_list i results.
Proof.
  unfold numbered_list.
  induction results as [|r results IH]; intros i; [reflexivity|].
  cbn [format_results List.length List.seq List.combine List.map].
  rewrite IH. cbn [fst snd].
  set (rest := List.map _ _). clearbody rest.
  destruct rest as [|e es].
  - cbn [String.concat]. unfold entry.
    now rewrite (append_nil_r nl).
  - change (String.concat EmptyString (entry i r :: e :: es))
      with (entry i r ++ String.concat EmptyString (e :: es))%string.
    unfold entry. now rewrite !append_assoc.
Qed.

Section Interpreter.

Variable str_lower : string -> string.

Local Abbreviation web_search := (web_search str_lower today).

(** C6. [web_search] returns the records whose key, or one of the words of
    whose key, occurs in the lower-cased query, for every query and whatever
    the interpreter's case conversion makes of its characters: all of them,
    in the table's order, as a list numbered from 1 under a header; when no
    record matches it returns the fallback text with the suggested topics.
    The words of the six keys are langgraph; react, agent; gemini, api;
    langchain; python; weather. On a query in ASCII, where the conversion is
    that of the letters [A-Z], the records found are those found for the
    query with its capitals made small. For "LangGraph" the text contains
    that topic's title; a query that holds only the words "agent" and "api"
    of two keys gets both records, in the table's order. *)
Theorem web_search_matches (query : string) :
  (forall t,
     List.In t (collect (str_lower query) KNOWLEDGE_BASE) <->
     exists key,
       List.In (key, t) KNOWLEDGE_BASE /\
       (occurs_in key (str_lower query) \/
        exists word, List.In word (Py.split key) /\
                     occurs_in word (str_lower query))) /\
  List.map (fun item => (fst item, Py.split (fst item))) KNOWLEDGE_BASE
    = [ ("langgraph", ["langgraph"]);
        ("react agent", ["react"; "agent"]);
        ("gemini api", ["gemini"; "api"]);
        ("langchain", ["langchain"]);
        ("python", ["python"]);
        ("weather", ["weather"]) ] /\
  web_search query =
    (match collect (str_lower query) KNOWLEDGE_BASE with
     | [] =>
         ("Search results for '" ++ query ++ "':" ++ nl
          ++ "No specific results found in demo knowledge base." ++ nl
          ++ "In production, this would return real web search results." ++ nl
          ++ "Tip: Try searching for 'LangGraph', 'ReAct agent', 'Gemini API', or 'Python'.")%string
     | results =>
         ("Search results for '" ++ query ++ "':" ++ nl ++ nl
          ++ numbered_list 1 results)%string
     end) /\
  (agree_on_ascii str_lower Py.lower ->
   (Py.is_ascii query = true ->
    collect (str_lower (Py.lower query)) KNOWLEDGE_BASE
    = collect (str_lower query) KNOWLEDGE_BASE) /\
   collect (str_lower "LangGraph") KNOWLEDGE_BASE
     = [mkTopic "LangGraph - Build Stateful AI Agents"
          "LangGraph is a library for building stateful, multi-actor applications with LLMs. It extends LangChain with cyclic computational capabilities, enabling complex agent workflows. Key features: State management, Conditional edges, Parallel execution, Human-in-the-loop."
          "https://langchain-ai.github.io/langgraph/"] /\
   Py.contains "LangGraph - Build Stateful AI Agents" (web_search "LangGraph")
     = true /\
   List.map title
     (collect (str_lower "Which AGENT calls the API?") KNOWLEDGE_BASE)
     = [ "ReAct: Synergizing Reasoning and Acting in Language Models";
         "Google Gemini API Documentation" ] /\
   Py.contains
     "1. **ReAct: Synergizing Reasoning and Acting in Language Models**"
     (web_search "Which AGENT calls the API?") = true /\
   Py.contains "2. **Google Gemini API Documentation**"
     (web_search "Which AGENT calls the API?") = true /\
   Py.contains "No specific results found" (web_search "zzz_no_match")
     = true).
Proof.
  split; [|split; [|split]].
  - intros t. rewrite collect_In.
    split; intros (key & Hin & Hm); exists key; (split; [exact Hin|]);
      now apply key_matches_spec.
  - reflexivity.
  - unfold Search.web_search, no_results.
    destruct (collect (str_lower query) KNOWLEDGE_BASE) as [|t results];
      [reflexivity|].
    now rewrite <- format_results_numbered.
  - intros Hlower.
    split.
    { intros Hascii.
      now rewrite (Hlower _ (is_ascii_lower _ Hascii)), lower_idem,
        (Hlower _ Hascii). }
    unfold Search.web_search.
    rewrite (Hlower "LangGraph" eq_refl),
      (Hlower "Which AGENT calls the API?" eq_refl),
      (Hlower "zzz_no_match" eq_refl).
    repeat split; vm_compute; reflexivity.
Qed.

End Interpreter.

(** *** Queries in ASCII that grow, and queries without a letter *)

Local Abbreviation web_search := (web_search Py.lower today).

Lemma lower_app (a b : string) :
  Py.lower (a ++ b) = (Py.lower a ++ Py.lower b)%string.
Proof. induction a as [|c a IH]; [reflexivity|]. cbn. now rewrite IH. Qed.

Lemma occurs_in_extend (x q a b : string) :
  occurs_in x q -> occurs_in x (a ++ q ++ b).
Proof.
  intros (u & v & ->). exists (a ++ u)%string, (v ++ b)%string.
  now rewrite !append_assoc.
Qed.

(** X22. [web_search] matches by occurrence in the text, so a query that
    grows keeps its matches: a record found for a query is found for every
    text that contains the query, before or after whatever is added, and the
    answer to the longer text is then not the text for no result. *)
Theorem web_search_keeps_matches (query before after : string) (t : Topic) :
  List.In t (collect (Py.lower query) KNOWLEDGE_BASE) ->
  List.In t (collect (Py.lower (before ++ query ++ after)) KNOWLEDGE_BASE) /\
  web_search (before ++ query ++ after)
  <> no_results (before ++ query ++ after).
Proof.
  intros Hin.
  assert (Hlong : List.In t (collect (Py.lower (before ++ query ++ after))
                                     KNOWLEDGE_BASE)).
  { apply collect_In in Hin. destruct Hin as (key & Hkey & Hm).
    apply collect_In. exists key. split; [exact Hkey|].
    apply key_matches_spec in Hm. apply key_matches_spec.
    rewrite !lower_app.
    destruct Hm as [H|(word & Hw & H)]; [left | right; exists word; split];
      try assumption; now apply occurs_in_extend. }
  split; [exact Hlong|].
  unfold Search.web_search, no_results.
  destruct (collect (Py.lower (before ++ query ++ after)) KNOWLEDGE_BASE)
    as [|t0 results]; [destruct Hlong|].
  cbn [Py.truthy negb]. intros H.
  apply append_inj_l, append_inj_l, append_inj_l in H. discriminate H.
Qed.

Lemma has_letter_app (a b : string) :
  has_letter (a ++ b) = has_letter a || has_letter b.
Proof.
  induction a as [|c a IH]; [reflexivity|]. cbn. now rewrite IH, orb_assoc.
Qed.

Lemma has_letter_lower (q : string) : has_letter (Py.lower q) = has_letter q.
Proof.
  induction q as [|c q IH]; [reflexivity|]. cbn. rewrite IH. f_equal.
  destruct c as [[] [] [] [] [] [] [] []]; reflexivity.
Qed.

(** A text that starts with a letter does not occur in a text without
    letters. *)
Lemma contains_letterless (x q : string) :
  has_letter q = false ->
  match x with String c _ => is_letter c | EmptyString => false end = true ->
  Py.contains x q = false.
Proof.
  intros Hq Hx. destruct (Py.contains x q) eqn:E; [|reflexivity].
  apply contains_spec in E. destruct E as (a & b & ->).
  destruct x as [|c x]; [discriminate|].
  rewrite has_letter_app in Hq. cbn in Hq. rewrite Hx in Hq.
  now rewrite orb_true_r in Hq.
Qed.

Lemma key_matches_letterless (q key : string) :
  has_letter q = false ->
  List.forallb
    (fun x => match x with String c _ => is_letter c | EmptyString => false end)
    (key :: Py.split key) = true ->
  key_matches q key = false.
Proof.
  intros Hq Hall. cbn [List.forallb] in Hall.
  apply andb_true_iff in Hall. destruct Hall as [Hkey Hwords].
  unfold key_matches. rewrite (@contains_letterless key q Hq Hkey). cbn [orb].
  unfold Py.any.
  induction (Py.split key) as [|w ws IH]; [reflexivity|].
  cbn [List.forallb] in Hwords. apply andb_true_iff in Hwords.
  destruct Hwords as [Hw Hws]. cbn [List.existsb].
  now rewrite (@contains_letterless w q Hq Hw), IH.
Qed.

(** X23. A query without a letter (the empty query, digits, signs) matches
    no record: [web_search] returns the text for no result, with the hint
    at the topics it knows. *)
Theorem web_search_needs_a_letter (query : string) :
  has_letter query = false ->
  collect (Py.lower query) KNOWLEDGE_BASE = [] /\
  web_search query = no_results query.
Proof.
  intros Hq.
  assert (Hl : has_letter (Py.lower query) = false)
    by now rewrite has_letter_lower.
  assert (Hnone : collect (Py.lower query) KNOWLEDGE_BASE = []).
  { unfold Search.KNOWLEDGE_BASE. cbn [collect].
    now rewrite !(fun key => @key_matches_letterless (Py.lower query) key Hl)
      by reflexivity. }
  split; [exact Hnone|]. unfold Search.web_search. now rewrite Hnone.
Qed.

End Matching.

(** C6 at a query in capitals, with the conversion of text in ASCII. *)
Lemma web_search_matches_witness :
  collect (Py.lower (Py.lower "PYTHON API")) (KNOWLEDGE_BASE "2025-01-01")
  = collect (Py.lower "PYTHON API") (KNOWLEDGE_BASE "2025-01-01") /\
  Py.contains "2. **Google Gemini API Documentation**"
    (web_search Py.lower "2025-01-01" "Which AGENT calls the API?") = true.
Proof.
  pose proof (proj2 (proj2 (proj2
    (web_search_matches "2025-01-01" Py.lower "PYTHON API")))
    (fun s _ => eq_refl)) as H.
  split; [exact (proj1 H eq_refl)|].
  exact (proj1 (proj2 (proj2 (proj2 (proj2 (proj2 H)))))).
Defined.

(** X22 at the query "python" inside a question. *)
Lemma web_search_keeps_matches_witness :
  List.In (mkTopic "Python Programming Language"
             "Python is a high-level, general-purpose programming language. Current stable version is Python 3.12. Known for readability and extensive libraries. Widely used in AI/ML, web development, data science, and automation."
             "https://www.python.org/")
          (collect (Py.lower ("Is " ++ "Python" ++ " fun?"))
                   (KNOWLEDGE_BASE "2025-01-01")).
Proof.
  exact (proj1 (@web_search_keeps_matches "2025-01-01" "Python" "Is " " fun?"
                  _ (or_introl eq_refl))).
Defined.

(** X23 at a query made of digits and signs. *)
Lemma web_search_needs_a_letter_witness :
  web_search Py.lower "2025-01-01" "2 + 2 = ?" = no_results "2 + 2 = ?".
Proof.
  exact (proj2 (@web_search_needs_a_letter "2025-01-01" "2 + 2 = ?" eq_refl)).
Defined.

End SearchFacts.

(** ** The calculator *)

Module CalculatorFacts.
Import Calculator.

(** *** Induction on expressions, through the argument lists *)

Lemma expr_induction (P : expr -> Prop)
  (HNum : forall n, P (Num n))
  (HDecimal : forall d k, P (Decimal d k))
  (HStr : forall s, P (Str s))
  (HName : forall id, P (Name id))
  (HUnary : forall op a, P a -> P (UnaryOp op a))
  (HBin : forall l op r, P l -> P r -> P (BinOp l op r))
  (HCall : forall f args, P f -> List.Forall P args -> P (Call f args))
  (HAttr : forall a attr, P a -> P (Attribute a attr)) :
  forall e, P e.
Proof.
  fix IH 1. intros [n|d k|s|id|op a|l op r|f args|a attr].
  - apply HNum.
  - apply HDecimal.
  - apply HStr.
  - apply HName.
  - apply HUnary, IH.
  - apply HBin; apply IH.
  - apply HCall; [apply IH|].
    induction args as [|a rest IHrest]; constructor; [apply IH | exact IHrest].
  - apply HAttr, IH.
Qed.

(** *** Runs that stay confined *)

Lemma contained_ret {A} (Q : A -> Prop) (a : A) : Q a -> contained Q (ret a).
Proof. now split. Qed.

Lemma contained_raise {A} (Q : A -> Prop) c message :
  is_Exception c = true -> contained Q (@raise A c message).
Proof. now split. Qed.

Lemma contained_bind {A B} (Q : A -> Prop) (R : B -> Prop) m (f : A -> M B) :
  contained Q m -> (forall a, Q a -> contained R (f a)) ->
  contained R (bind m f).
Proof.
  destruct m as [log [a|e|]]; intros [Hlog Hr] Hf; simpl in *; subst log.
  - specialize (Hf a Hr). destruct (f a) as [log' r]. exact Hf.
  - now split.
  - destruct Hr.
Qed.

Lemma contained_weaken {A} (Q R : A -> Prop) m :
  (forall a, Q a -> R a) -> contained Q m -> contained R m.
Proof.
  intros HQR [Hlog Hr]. split; [exact Hlog|].
  destruct (snd m); auto.
Qed.

Lemma fruitless_bind_l {A B} (m : M A) (f : A -> M B) :
  fruitless m -> fruitless (bind m f).
Proof. destruct m as [log [a|e|]]; simpl; intros H; now try elim H. Qed.

Lemma fruitless_bind_r {A B} (m : M A) (f : A -> M B) :
  (forall a, fruitless (f a)) -> fruitless (bind m f).
Proof.
  intros Hf. destruct m as [log [a|e|]]; simpl; try exact I.
  specialize (Hf a). unfold fruitless in Hf.
  destruct (f a) as [log' r]. exact Hf.
Qed.

(** *** Integers written in decimal *)

Lemma digit_string (d : Decimal.uint) :
  all_chars is_digit (NilEmpty.string_of_uint d) = true.
Proof. induction d; cbn; auto. Qed.

Lemma digits_value_acc (d : Decimal.uint) : forall acc,
  digits_value (Zpos acc) (NilEmpty.string_of_uint d)
  = Zpos (Pos.of_uint_acc d acc).
Proof.
  induction d; intros acc;
    cbn [NilEmpty.string_of_uint digits_value Pos.of_uint_acc];
    [reflexivity|..];
    rewrite <- IHd; f_equal;
    match goal with
    | |- context [Z.of_nat ?n] =>
        let v := eval vm_compute in (Z.of_nat n) in
        change (Z.of_nat n) with v
    end; lia.
Qed.

Lemma digits_value_uint (d : Decimal.uint) :
  digits_value 0 (NilEmpty.string_of_uint d) = Z.of_N (Pos.of_uint d).
Proof.
  induction d; cbn [NilEmpty.string_of_uint digits_value Pos.of_uint];
    [reflexivity | exact IHd |..]; apply digits_value_acc.
Qed.

Lemma nzhead_not_D0 (d : Decimal.uint) : forall l,
  Decimal.nzhead d <> Decimal.D0 l.
Proof. induction d; intros l; cbn; try discriminate. apply IHd. Qed.

(** The decimal digits of a positive number do not start with a zero. *)
Lemma to_uint_head (p : positive) :
  exists c r, NilEmpty.string_of_uint (Pos.to_uint p) = String c r /\
              c <> "0"%char.
Proof.
  pose proof (DecimalPos.Unsigned.to_of (Pos.to_uint p)) as Hnorm.
  rewrite DecimalPos.Unsigned.of_to in Hnorm. cbn [N.to_uint] in Hnorm.
  pose proof (DecimalPos.Unsigned.to_uint_nonzero p) as Hnz.
  pose proof (nzhead_not_D0 (Pos.to_uint p)) as Hhead.
  unfold Decimal.unorm in Hnorm.
  destruct (Decimal.nzhead (Pos.to_uint p)) eqn:E;
    [now elim Hnz | now elim (Hhead u) |..];
    rewrite Hnorm; cbn;
    (eexists; eexists; split; [reflexivity | discriminate]).
Qed.

(** What [str] makes of an integer that is not negative: its digits, which
    read back as the integer, without a leading zero. *)
Lemma str_int_nonneg (a : Z) :
  (0 <= a)%Z ->
  exists c r,
    Py.str_int a = String c r /\
    all_chars is_digit (String c r) = true /\
    digits_value 0 (String c r) = a /\
    (c = "0"%char -> r = EmptyString).
Proof.
  intros Ha. destruct a as [|p|p]; [| |lia].
  - exists "0"%char, EmptyString. now repeat split.
  - unfold Py.str_int. cbn [Z.to_int NilZero.string_of_int].
    destruct (to_uint_head p) as (c & r & Hs & Hc).
    assert (Hnil : NilZero.string_of_uint (Pos.to_uint p)
                   = NilEmpty.string_of_uint (Pos.to_uint p)).
    { pose proof (DecimalPos.Unsigned.to_uint_nonnil p).
      now destruct (Pos.to_uint p). }
    rewrite Hnil. exists c, r. split; [exact Hs|].
    rewrite <- Hs. split; [apply digit_string|]. split.
    + rewrite digits_value_uint, DecimalPos.Unsigned.of_to. reflexivity.
    + intros ->. now elim Hc.
Qed.

(** *** Lexing a number *)

Lemma span_app (p : ascii -> bool) (a : string) : forall b,
  all_chars p a = true ->
  match b with EmptyString => True | String c _ => p c = false end ->
  span p (a ++ b) = (a, b).
Proof.
  induction a as [|x a IH]; intros b Ha Hb.
  - destruct b as [|c b]; [reflexivity|]. cbn. now rewrite Hb.
  - cbn in Ha. apply andb_true_iff in Ha. destruct Ha as [Hx Ha].
    cbn [append span]. rewrite Hx, (IH b Ha Hb). reflexivity.
Qed.

Lemma all_chars_weaken (p q : ascii -> bool) (s : string) :
  (forall c, p c = true -> q c = true) ->
  all_chars p s = true -> all_chars q s = true.
Proof.
  intros Hpq. induction s as [|c s IH]; [reflexivity|]. cbn.
  intros H. apply andb_true_iff in H. destruct H as [Hc Hs].
  now rewrite (Hpq _ Hc), IH.
Qed.

Lemma number_token_digits (c : ascii) (r : string) :
  all_chars is_digit (String c r) = true ->
  (c = "0"%char -> r = EmptyString) ->
  String.length (String c r) <= int_max_str_digits ->
  number_token (String c r) = Some (T_INT (digits_value 0 (String c r))).
Proof.
  intros Hd Hz Hlen. unfold number_token.
  pose proof (span_app is_digit (String c r) EmptyString Hd I) as Hspan.
  rewrite TextFacts.append_nil_r in Hspan. rewrite Hspan.
  assert (Hshort : Nat.ltb int_max_str_digits (String.length (String c r))
                   = false) by now apply Nat.ltb_ge.
  destruct (Ascii.eqb_spec c "0") as [->|Hne].
  - now rewrite (Hz eq_refl).
  - rewrite Hshort.
    destruct c as [[] [] [] [] [] [] [] []]; try reflexivity. now elim Hne.
Qed.

(** One step of the lexer on the digits of a number followed by a blank
    or by nothing. *)
Lemma lex_number (fuel : nat) (c : ascii) (r rest : string) :
  all_chars is_digit (String c r) = true ->
  (c = "0"%char -> r = EmptyString) ->
  String.length (String c r) <= int_max_str_digits ->
  match rest with
  | EmptyString => True
  | String x _ => x = " "%char
  end ->
  lex (S fuel) (String c r ++ rest)
  = option_map (cons (T_INT (digits_value 0 (String c r)))) (lex fuel rest).
Proof.
  intros Hd Hz Hlen Hrest.
  assert (Hc : is_digit c = true).
  { cbn in Hd. now apply andb_true_iff in Hd. }
  assert (Hblank : is_blank c = false).
  { destruct c as [[] [] [] [] [] [] [] []]; try reflexivity; discriminate. }
  assert (Hspan :
    span (fun x => is_name_char x || Ascii.eqb x ".") (String c r ++ rest)
    = (String c r, rest)).
  { apply span_app.
    - eapply all_chars_weaken; [|exact Hd]. intros x Hx.
      unfold is_name_char. rewrite Hx. now rewrite orb_true_r.
    - destruct rest as [|x rest]; [exact I|]. now subst x. }
  cbn [lex]. cbn [append]. rewrite Hblank.
  unfold starts_number. rewrite Hc. cbn [orb].
  change (String c (r ++ rest)) with (String c r ++ rest)%string.
  rewrite Hspan, (number_token_digits Hd Hz Hlen). reflexivity.
Qed.

Lemma lex_blank (fuel : nat) (r : string) :
  lex (S fuel) (String " " r) = lex fuel r.
Proof. reflexivity. Qed.

Lemma lex_operator (fuel : nat) (op : binop) (r : string) :
  lex (S fuel) (operator_text op ++ String " " r)
  = option_map (cons (operator_token op)) (lex fuel (String " " r)).
Proof. destruct op; reflexivity. Qed.

Lemma lex_end (fuel : nat) : lex fuel EmptyString = Some [].
Proof. now destruct fuel. Qed.

(** The tokens of [a op b]. *)
Lemma tokenize_binary_source (a b : Z) (op : binop) :
  (0 <= a)%Z -> (0 <= b)%Z -> digits a <= 4300 -> digits b <= 4300 ->
  tokenize (binary_source a op b)
  = Some [T_INT a; operator_token op; T_INT b].
Proof.
  intros Ha Hb Hla Hlb.
  destruct (str_int_nonneg Ha) as (ca & ra & Hsa & Hda & Hva & Hza).
  destruct (str_int_nonneg Hb) as (cb & rb & Hsb & Hdb & Hvb & Hzb).
  unfold digits in Hla, Hlb.
  rewrite (Z.abs_eq a Ha), Hsa in Hla. rewrite (Z.abs_eq b Hb), Hsb in Hlb.
  unfold tokenize, binary_source. rewrite Hsa, Hsb.
  assert (Hfuel : 6 <= S (String.length
                            (String ca ra ++ " " ++ operator_text op ++ " "
                             ++ String cb rb))).
  { rewrite !TextFacts.length_append. cbn [String.length].
    assert (1 <= String.length (operator_text op)) by (destruct op; cbn; lia).
    lia. }
  destruct (S (String.length _)) as [|[|[|[|[|[|fuel]]]]]]; try lia.
  rewrite (lex_number _ _ Hda Hza Hla); [|exact eq_refl].
  cbn [append]. rewrite lex_blank, lex_operator, lex_blank.
  rewrite <- (TextFacts.append_nil_r (String cb rb)).
  rewrite (lex_number _ _ Hdb Hzb Hlb); [|exact I].
  rewrite lex_end, Hva, Hvb. reflexivity.
Qed.

Lemma parse_binary_source (a b : Z) (op : binop) :
  (0 <= a)%Z -> (0 <= b)%Z -> digits a <= 4300 -> digits b <= 4300 ->
  parse (binary_source a op b) = Parsed (BinOp (Num a) op (Num b)).
Proof.
  intros Ha Hb Hla Hlb. unfold parse.
  rewrite (tokenize_binary_source op Ha Hb Hla Hlb).
  destruct op; reflexivity.
Qed.

Create HintDb confined.
Local Hint Resolve contained_ret contained_raise : confined.

Section Confinement.

Variable rt : Runtime.

Lemma of_lib_contained r : contained harmless_value (of_lib r).
Proof.
  destruct r as [[n|x|re im|s]|c message]; simpl;
    try (now apply contained_ret).
  apply contained_raise. now destruct c.
Qed.

Lemma float_of_int_contained n : contained (fun _ => True) (float_of_int n).
Proof.
  unfold float_of_int.
  destruct (binary_normalize PyFloat.prec PyFloat.emax n 0 false);
    auto with confined.
Qed.

Lemma float_binop_contained op x y :
  contained harmless_value (float_binop rt op x y).
Proof.
  destruct op; simpl; try apply of_lib_contained;
    try (now apply contained_ret).
  destruct (is_zero y); [now apply contained_raise | now apply contained_ret].
Qed.

Lemma int_binop_contained op a b :
  contained harmless_value (int_binop rt op a b).
Proof.
  destruct op; simpl; try (now apply contained_ret).
  - destruct (b =? 0)%Z; [now apply contained_raise|].
    destruct (PyFloat.int_true_div a b);
      first [now apply contained_ret | now apply contained_raise].
  - destruct (b =? 0)%Z; [now apply contained_raise | now apply contained_ret].
  - destruct (b =? 0)%Z; [now apply contained_raise | now apply contained_ret].
  - destruct (0 <=? b)%Z; [now apply contained_ret|].
    eapply contained_bind; [apply float_of_int_contained|]. intros x _.
    eapply contained_bind; [apply float_of_int_contained|]. intros y _.
    apply of_lib_contained.
Qed.

(** Arithmetic never produces a function or a module. *)
Lemma binary_contained op a b : contained harmless_value (binary rt op a b).
Proof.
  unfold binary, unsupported.
  destruct a as [x|[]|x|re im|s|f| |name], b as [y|[]|y|re' im'|s'|f'| |name'];
    cbn [as_number];
    try apply int_binop_contained;
    try apply float_binop_contained;
    try (eapply contained_bind;
         [apply float_of_int_contained
         |intros ? _; apply float_binop_contained]);
    destruct op;
    first [now apply contained_ret | now apply contained_raise
          | apply of_lib_contained].
Qed.

Lemma unary_contained op a : contained harmless_value (unary op a).
Proof.
  destruct op, a as [x|[]|x|re im|s|f| |name]; simpl;
    first [now apply contained_ret | now apply contained_raise].
Qed.

Lemma round_float_contained x : contained harmless_value (round_float x).
Proof.
  destruct x; simpl;
    first [now apply contained_ret | now apply contained_raise].
Qed.

(** Calling a harmless value imports nothing and raises nothing outside
    [Exception]. *)
Lemma call_contained f args :
  harmless_value f -> contained harmless_value (call rt f args).
Proof.
  unfold harmless_value. intros Hf.
  destruct f as [n|t|x|re im|s|b| |name]; try discriminate;
    try (now apply contained_raise).
  destruct b; try discriminate; try apply of_lib_contained.
  - destruct args as [|[n|t|x|re im|s|b| |name] [|v vs]];
      first [now apply contained_ret | now apply contained_raise
            | apply of_lib_contained].
  - destruct args as [|[n|t|x|re im|s|b| |name] [|v vs]];
      first [now apply contained_ret | now apply contained_raise
            | apply round_float_contained | apply of_lib_contained].
Qed.

Lemma safe_dict_harmless id v :
  lookup id safe_dict = Some v -> harmless_value v.
Proof.
  unfold safe_dict. cbn [lookup].
  repeat (destruct (String.eqb id _); [now intros [= <-]|]).
  discriminate.
Qed.

Local Abbreviation eval :=
  (eval rt calculator_builtins calculator_globals safe_dict).
Local Abbreviation load_name :=
  (load_name calculator_builtins calculator_globals safe_dict).

Lemma load_name_contained id : contained harmless_value (load_name id).
Proof.
  unfold Calculator.load_name.
  destruct (lookup id safe_dict) as [v|] eqn:E.
  - apply contained_ret. exact (safe_dict_harmless _ E).
  - unfold calculator_globals, calculator_builtins. cbn [lookup].
    destruct (String.eqb id "__builtins__");
      [now apply contained_ret | now apply contained_raise].
Qed.

(** A name that is neither in [safe_dict] nor [__builtins__] is unknown. *)
Lemma load_name_unlisted id :
  lookup id safe_dict = None -> id <> "__builtins__" ->
  load_name id = raise NameError ("name '" ++ id ++ "' is not defined").
Proof.
  intros Hl Hb. unfold Calculator.load_name. rewrite Hl.
  unfold calculator_globals, calculator_builtins. cbn [lookup].
  destruct (String.eqb id "__builtins__") eqn:E; [|reflexivity].
  now apply String.eqb_eq in E.
Qed.

Local Abbreviation eval_args := (eval_args rt).

Lemma eval_Call f args :
  eval (Call f args) =
  bind (eval f) (fun fv => bind (eval_args args) (fun vs => call rt fv vs)).
Proof.
  cbn [Calculator.eval].
  assert (E : forall l,
    (fix eval_args (l : list expr) : M (list value) :=
       match l with
       | [] => ret []
       | a :: rest =>
           bind (eval a)
                (fun v => bind (eval_args rest) (fun vs => ret (v :: vs)))
       end) l = eval_args l).
  { induction l as [|a rest IHl]; [reflexivity|].
    cbn [Calculator.eval_args]. now rewrite IHl. }
  now rewrite E.
Qed.

(** Evaluation without attribute access stays confined. *)
Lemma eval_contained (e : expr) :
  attribute_free e = true -> contained harmless_value (eval e).
Proof.
  induction e as [n|d k|s|id|op a IH|l op r IHl IHr|f args IHf IHargs
                 |a attr IH] using expr_induction; intros Hfree.
  - now apply contained_ret.
  - now apply contained_ret.
  - now apply contained_ret.
  - cbn [Calculator.eval].
    destruct (String.eqb id "__debug__");
      [now apply contained_ret | apply load_name_contained].
  - cbn [Calculator.eval]. eapply contained_bind; [exact (IH Hfree)|].
    intros v _. apply unary_contained.
  - cbn [attribute_free] in Hfree. apply andb_true_iff in Hfree.
    destruct Hfree as [Hl Hr]. cbn [Calculator.eval].
    eapply contained_bind; [exact (IHl Hl)|]. intros a _.
    eapply contained_bind; [exact (IHr Hr)|]. intros b _.
    apply binary_contained.
  - cbn [attribute_free] in Hfree. apply andb_true_iff in Hfree.
    destruct Hfree as [Hf Hargs]. rewrite eval_Call.
    eapply contained_bind; [exact (IHf Hf)|]. intros fv Hfv.
    eapply contained_bind with (Q := fun _ => True).
    + clear Hfv. induction IHargs as [|a rest Ha _ IHrest].
      * now apply contained_ret.
      * cbn [List.forallb] in Hargs. apply andb_true_iff in Hargs.
        destruct Hargs as [Ha' Hrest]. cbn [eval_args].
        eapply contained_bind; [exact (Ha Ha')|]. intros v _.
        eapply contained_bind; [exact (IHrest Hrest)|]. intros vs _.
        now apply contained_ret.
    + intros vs _. now apply call_contained.
  - discriminate.
Qed.

(** Evaluation reaches every name: an unknown one leaves no value. *)
Lemma eval_unlisted (e : expr) id :
  List.In id (names e) ->
  lookup id safe_dict = None -> id <> "__builtins__" -> id <> "__debug__" ->
  fruitless (eval e).
Proof.
  intros Hin Hl Hb Hd.
  induction e as [n|d k|s|x|op a IH|l op r IHl IHr|f args IHf IHargs
                 |a attr IH] using expr_induction; cbn [names] in Hin.
  - destruct Hin.
  - destruct Hin.
  - destruct Hin.
  - destruct Hin as [->|[]]. cbn [Calculator.eval].
    apply String.eqb_neq in Hd. rewrite Hd.
    now rewrite (load_name_unlisted Hl Hb).
  - cbn [Calculator.eval]. apply fruitless_bind_l. exact (IH Hin).
  - cbn [Calculator.eval]. apply List.in_app_or in Hin.
    destruct Hin as [Hin|Hin].
    + apply fruitless_bind_l. exact (IHl Hin).
    + apply fruitless_bind_r. intros a. apply fruitless_bind_l.
      exact (IHr Hin).
  - rewrite eval_Call. apply List.in_app_or in Hin.
    destruct Hin as [Hin|Hin].
    + apply fruitless_bind_l. exact (IHf Hin).
    + apply fruitless_bind_r. intros fv. apply fruitless_bind_l.
      clear IHf. induction IHargs as [|a rest Ha _ IHrest].
      * destruct Hin.
      * cbn [List.flat_map] in Hin. apply List.in_app_or in Hin.
        cbn [eval_args]. destruct Hin as [Hin|Hin].
        -- apply fruitless_bind_l. exact (Ha Hin).
        -- apply fruitless_bind_r. intros v. apply fruitless_bind_l.
           exact (IHrest Hin).
  - cbn [Calculator.eval]. apply fruitless_bind_l. exact (IH Hin).
Qed.

Lemma py_str_contained v : contained (fun _ => True) (py_str rt v).
Proof.
  destruct v as [n|[]|x|re im|s|f| |name]; simpl;
    try (now apply contained_ret).
  destruct (Nat.ltb 4300 _);
    [now apply contained_raise | now apply contained_ret].
Qed.

Local Abbreviation attempt := (attempt rt).

Lemma calculator_unfold expression :
  calculator rt expression =
  match attempt expression with
  | (log, Raise e) =>
      if is_Exception (exn_type e)
      then (log, Value ("Error evaluating expression: " ++ exn_str e)%string)
      else (log, Raise e)
  | other => other
  end.
Proof.
  unfold calculator. fold (attempt expression). cbv zeta.
  now destruct (attempt expression) as [log [text|e|]].
Qed.

(** What the [except Exception] makes of a contained attempt that leaves no
    value. *)
Lemma calculator_of_fruitless expression :
  contained (fun _ => True) (attempt expression) ->
  fruitless (attempt expression) ->
  fst (calculator rt expression) = [] /\
  exists message,
    snd (calculator rt expression)
    = Value ("Error evaluating expression: " ++ message)%string.
Proof.
  rewrite calculator_unfold. unfold fruitless.
  destruct (attempt expression) as [log [text|e|]]; intros [Hlog Hr] Hf;
    simpl in *; subst log.
  - destruct Hf.
  - rewrite Hr. simpl. split; [reflexivity | eauto].
  - destruct Hr.
Qed.

Lemma attempt_contained expression :
  contained harmless_value
    (py_eval rt calculator_builtins calculator_globals safe_dict expression) ->
  contained (fun _ => True) (attempt expression).
Proof.
  intros H. unfold attempt. eapply contained_bind; [exact H|].
  intros v _. eapply contained_bind; [apply py_str_contained|].
  intros text _. now apply contained_ret.
Qed.

(** What the [except Exception] makes of a contained attempt. *)
Lemma calculator_of_contained expression :
  contained (fun _ => True) (attempt expression) ->
  fst (calculator rt expression) = [] /\
  exists text, snd (calculator rt expression) = Value text.
Proof.
  rewrite calculator_unfold.
  destruct (attempt expression) as [log [text|e|]]; intros [Hlog Hr];
    simpl in *; subst log.
  - split; [reflexivity | now exists text].
  - rewrite Hr. simpl. split; [reflexivity | eauto].
  - destruct Hr.
Qed.

(** On a malformed source, and on an expression without attribute access,
    [calculator] returns a text: nothing is raised and nothing is
    imported. *)
Lemma calculator_returns_text expression :
  parse expression = Malformed \/
  (exists e, parse expression = Parsed e /\ attribute_free e = true) ->
  fst (calculator rt expression) = [] /\
  exists text, snd (calculator rt expression) = Value text.
Proof.
  intros H. apply calculator_of_contained, attempt_contained.
  unfold py_eval. destruct H as [->|(e & -> & Hfree)].
  - now apply contained_raise.
  - now apply eval_contained.
Qed.

(** C1 (amended). For every expression of the modelled language without
    attribute access, a name that is none of the twelve names of
    [safe_dict], nor [__builtins__], nor [__debug__] makes [calculator]
    answer with the error text and never with a result, whatever else the
    expression holds and whatever the library does; no module is imported.
    In particular [calculator("__import__('os')")] is the error text for the
    unknown name [__import__], and imports nothing. The two names left out
    are evaluated: [__builtins__] is the empty dictionary of the globals and
    [__debug__] a constant of the compiler. Operators are not restricted:
    ["7 // 2"] is evaluated. *)
Theorem unlisted_names_are_rejected :
  (forall expression e id,
     parse expression = Parsed e ->
     attribute_free e = true ->
     List.In id (names e) ->
     lookup id safe_dict = None ->
     id <> "__builtins__" ->
     id <> "__debug__" ->
     fst (calculator rt expression) = [] /\
     exists message,
       snd (calculator rt expression)
       = Value ("Error evaluating expression: " ++ message)%string) /\
  calculator rt "__import__('os')"
  = ([], Value "Error evaluating expression: name '__import__' is not defined") /\
  calculator rt "__builtins__" = ([], Value "Result: {}") /\
  calculator rt "__debug__"
  = ([], Value (if debug rt then "Result: True" else "Result: False")) /\
  calculator rt "7 // 2" = ([], Value "Result: 3").
Proof.
  split; [|split; [|split; [|split]]].
  - intros expression e id Hparse Hfree Hin Hl Hb Hd.
    apply calculator_of_fruitless.
    + apply attempt_contained. unfold py_eval. rewrite Hparse.
      now apply eval_contained.
    + unfold attempt. apply fruitless_bind_l. unfold py_eval.
      rewrite Hparse. exact (eval_unlisted e Hin Hl Hb Hd).
  - vm_compute. reflexivity.
  - vm_compute. reflexivity.
  - rewrite calculator_unfold. unfold Calculator.attempt, py_eval.
    replace (parse "__debug__") with (Parsed (Name "__debug__"))
      by (vm_compute; reflexivity).
    cbn. now destruct (debug rt).
  - vm_compute. reflexivity.
Qed.

(** C7 (the failing input). The expression reaches the [builtins] module
    through [abs.__self__], imports [sys] and calls [sys.exit]: the
    [SystemExit] it raises is not an [Exception], so [calculator] does not
    turn it into a text and it leaves the tool. *)
Theorem calculator_exit_escapes :
  calculator rt "abs.__self__.__import__('sys').exit()"
  = (["sys"], Raise (mk_exn SystemExit EmptyString)) /\
  is_Exception SystemExit = false.
Proof. split; vm_compute; reflexivity. Qed.

(** The same route executes an import although [__import__] is no name of
    [safe_dict]. *)
Lemma calculator_import_escapes :
  calculator rt "abs.__self__.__import__('os')"
  = (["os"], Value ("Result: " ++ module_repr rt "os")%string).
Proof. vm_compute. reflexivity. Qed.

(** *** The other tools, and the calculator on two numbers *)

Lemma SFadd_comm (x y : spec_float) :
  SFadd PyFloat.prec PyFloat.emax x y = SFadd PyFloat.prec PyFloat.emax y x.
Proof.
  destruct x as [sx|sx| |sx mx ex], y as [sy|sy| |sy my ey];
    try reflexivity; try (now destruct sx, sy).
  unfold SFadd. now rewrite (Z.min_comm ex ey), Z.add_comm.
Qed.

Lemma SFmul_comm (x y : spec_float) :
  SFmul PyFloat.prec PyFloat.emax x y = SFmul PyFloat.prec PyFloat.emax y x.
Proof.
  destruct x as [sx|sx| |sx mx ex], y as [sy|sy| |sy my ey];
    try reflexivity; try (now destruct sx, sy).
  unfold SFmul. now rewrite (xorb_comm sx sy), (Pos.mul_comm mx my),
    (Z.add_comm ex ey).
Qed.

(** X18. [add] and [multiply] do not depend on the order of their
    arguments (also on zeros, infinities and NaN), and each gives the text
    [calculator] gives for the same operation on two numbers written with a
    decimal point: on floats the three tools agree. *)
Theorem add_and_multiply_agree_with_calculator :
  (forall a b, add rt a b = add rt b a) /\
  (forall a b, multiply rt a b = multiply rt b a) /\
  (forall expression d1 k1 d2 k2,
     parse expression = Parsed (BinOp (Decimal d1 k1) Add (Decimal d2 k2)) ->
     calculator rt expression
     = ([], Value (add rt (decimal_literal d1 k1) (decimal_literal d2 k2)))) /\
  (forall expression d1 k1 d2 k2,
     parse expression = Parsed (BinOp (Decimal d1 k1) Mult (Decimal d2 k2)) ->
     calculator rt expression
     = ([], Value (multiply rt (decimal_literal d1 k1)
                            (decimal_literal d2 k2)))) /\
  parse "1.5 + 2.25" = Parsed (BinOp (Decimal 15 1) Add (Decimal 225 2)) /\
  parse "1.5 * 2.25" = Parsed (BinOp (Decimal 15 1) Mult (Decimal 225 2)).
Proof.
  split; [intros a b; unfold add; now rewrite SFadd_comm|].
  split; [intros a b; unfold multiply; now rewrite SFmul_comm|].
  split; [|split; [|split; vm_compute; reflexivity]];
    intros expression d1 k1 d2 k2 Hparse;
    rewrite calculator_unfold; unfold Calculator.attempt, py_eval;
    rewrite Hparse; reflexivity.
Qed.

(** The text of a successful attempt starts with ["Result: "]. *)
Lemma attempt_value expression text :
  snd (attempt expression) = Value text ->
  exists shown, text = ("Result: " ++ shown)%string.
Proof.
  unfold Calculator.attempt.
  destruct (py_eval rt calculator_builtins calculator_globals safe_dict
                    expression) as [log [v|e|]]; try discriminate.
  cbn [bind]. destruct (py_str rt v) as [log' [shown|e|]];
    cbn; try discriminate.
  intros [= <-]. now exists shown.
Qed.

(** X19. On a malformed source, and on an expression without attribute
    access, [calculator] recovers whatever goes wrong, in the expression or
    in the library: it raises nothing and imports nothing, and it returns a
    text that is either a result, starting with ["Result: "], or the error
    text, starting with ["Error evaluating expression: "]. *)
Theorem calculator_recovers_without_attributes expression :
  parse expression = Malformed \/
  (exists e, parse expression = Parsed e /\ attribute_free e = true) ->
  fst (calculator rt expression) = [] /\
  exists text,
    snd (calculator rt expression) = Value text /\
    (prefix "Result: " text = true \/ is_error_text text = true).
Proof.
  intros H.
  assert (Hc : contained (fun _ => True) (attempt expression)).
  { apply attempt_contained. unfold py_eval.
    destruct H as [->|(e & -> & Hfree)];
      [now apply contained_raise | now apply eval_contained]. }
  pose proof (attempt_value expression) as Hv.
  rewrite calculator_unfold.
  destruct (attempt expression) as [log [text|e|]]; destruct Hc as [Hlog Hr];
    cbn [fst snd] in *; subst log.
  - split; [reflexivity|]. exists text. split; [reflexivity|].
    destruct (Hv text eq_refl) as (shown & ->). left.
    apply TextFacts.prefix_app.
  - rewrite Hr. cbn [fst snd]. split; [reflexivity|].
    eexists. split; [reflexivity|]. right. apply TextFacts.prefix_app.
  - destruct Hr.
Qed.

Lemma calculator_integer (expression : string) (n : Z) :
  py_eval rt calculator_builtins calculator_globals safe_dict expression
  = ret (VInt n) ->
  calculator rt expression = ([], Value (integer_result n)).
Proof.
  intros Heval. rewrite calculator_unfold. unfold Calculator.attempt.
  rewrite Heval. unfold integer_result, digits, py_str. cbn [bind ret].
  destruct (Nat.ltb 4300 (String.length (Py.str_int (Z.abs n))));
    reflexivity.
Qed.

(** X20. On two integers that are not negative, written in decimal with
    one blank around the operator, [calculator] computes with integers of
    any size: the sum, the difference, the product, the floored quotient
    and the remainder are exact, and printed in full unless they have more
    than 4300 digits; dividing by zero gives the error text. *)
Theorem calculator_is_exact_on_integers (a b : Z) :
  (0 <= a)%Z -> (0 <= b)%Z -> digits a <= 4300 -> digits b <= 4300 ->
  calculator rt (binary_source a Add b)
  = ([], Value (integer_result (a + b))) /\
  calculator rt (binary_source a Sub b)
  = ([], Value (integer_result (a - b))) /\
  calculator rt (binary_source a Mult b)
  = ([], Value (integer_result (a * b))) /\
  calculator rt (binary_source a FloorDiv b)
  = ([], Value
           (if (b =? 0)%Z
            then "Error evaluating expression: integer division or modulo by zero"
            else integer_result (a / b))) /\
  calculator rt (binary_source a Mod b)
  = ([], Value
           (if (b =? 0)%Z
            then "Error evaluating expression: integer modulo by zero"
            else integer_result (a mod b))).
Proof.
  intros Ha Hb Hla Hlb.
  assert (Heval : forall op,
    py_eval rt calculator_builtins calculator_globals safe_dict
            (binary_source a op b)
    = int_binop rt op a b).
  { intros op. unfold py_eval.
    rewrite (parse_binary_source op Ha Hb Hla Hlb).
    cbn [Calculator.eval bind ret binary as_number].
    destruct (int_binop rt op a b) as [log r]. reflexivity. }
  split; [apply calculator_integer; now rewrite Heval|].
  split; [apply calculator_integer; now rewrite Heval|].
  split; [apply calculator_integer; now rewrite Heval|].
  split.
  - destruct (b =? 0)%Z eqn:E.
    + rewrite calculator_unfold. unfold Calculator.attempt.
      rewrite Heval. cbn [int_binop]. rewrite E. reflexivity.
    + apply calculator_integer. rewrite Heval. cbn [int_binop]. now rewrite E.
  - destruct (b =? 0)%Z eqn:E.
    + rewrite calculator_unfold. unfold Calculator.attempt.
      rewrite Heval. cbn [int_binop]. rewrite E. reflexivity.
    + apply calculator_integer. rewrite Heval. cbn [int_binop]. now rewrite E.
Qed.

(** X21. Attribute access defeats the allow-list of names: through
    [abs.__self__] or [round.__self__], the [builtins] module, the
    expression calls [__import__], which is no name of [safe_dict]; the
    module is imported and [calculator] returns it as a result. *)
Theorem import_through_attribute_access (f name : string) :
  List.existsb (String.eqb f) ["abs"; "round"] = true ->
  always_importable name = true ->
  calculator rt (import_through f name)
  = ([name], Value ("Result: " ++ module_repr rt name)%string) /\
  lookup "__import__" safe_dict = None.
Proof.
  intros Hf Hname. split; [|reflexivity].
  assert (Hf' : f = "abs" \/ f = "round").
  { cbn in Hf. destruct (String.eqb_spec f "abs"); [now left|].
    destruct (String.eqb_spec f "round"); [now right | discriminate]. }
  assert (Hn : name = "sys" \/ name = "os" \/ name = "math"
               \/ name = "builtins").
  { unfold always_importable in Hname. cbn in Hname.
    destruct (String.eqb_spec name "sys"); [auto|].
    destruct (String.eqb_spec name "os"); [auto|].
    destruct (String.eqb_spec name "math"); [auto|].
    destruct (String.eqb_spec name "builtins"); [auto 6 | discriminate]. }
  destruct Hf' as [->| ->], Hn as [->|[->|[->| ->]]]; vm_compute; reflexivity.
Qed.

End Confinement.

(** C1 (amended) at an expression that mentions the unknown name [foo]
    after a call of the library. *)
Lemma unlisted_names_are_rejected_witness :
  parse "sqrt(16) + foo"
  = Parsed (BinOp (Call (Name "sqrt") [Num 16]) Add (Name "foo")) /\
  calculator silent_runtime "sqrt(16) + foo"
  = ([], Value "Error evaluating expression: name 'foo' is not defined") /\
  exists message,
    snd (calculator silent_runtime "sqrt(16) + foo")
    = Value ("Error evaluating expression: " ++ message)%string.
Proof.
  split; [vm_compute; reflexivity|].
  split; [vm_compute; reflexivity|].
  exact (proj2 (proj1 (unlisted_names_are_rejected silent_runtime)
    "sqrt(16) + foo" (BinOp (Call (Name "sqrt") [Num 16]) Add (Name "foo"))
    "foo" eq_refl eq_refl (or_intror (or_introl eq_refl)) eq_refl
    (fun H => eq_ind "foo"
       (fun s => match s with String "f" _ => True | _ => False end)
       I "__builtins__" H)
    (fun H => eq_ind "foo"
       (fun s => match s with String "f" _ => True | _ => False end)
       I "__debug__" H))).
Defined.

(** C1 (as stated) fails: the floor-division operator [//] is not one of the
    six operators the claim lists, yet ["7 // 2"] is evaluated, to the
    result 3, whatever the runtime. *)
Lemma floor_division_is_evaluated :
  tokenize "7 // 2" = Some [T_INT 7; T_DSLASH; T_INT 2] /\
  allowed_token T_DSLASH = false /\
  (forall rt, calculator rt "7 // 2" = ([], Value "Result: 3")) /\
  is_error_text "Result: 3" = false.
Proof.
  split; [vm_compute; reflexivity|].
  split; [reflexivity|].
  split; [intros rt; vm_compute; reflexivity|].
  reflexivity.
Qed.

(** X19 at a source with an open parenthesis. *)
Lemma calculator_recovers_without_attributes_witness :
  parse "(1 + 2" = Malformed /\
  fst (calculator silent_runtime "(1 + 2") = [] /\
  exists text,
    snd (calculator silent_runtime "(1 + 2") = Value text /\
    (prefix "Result: " text = true \/ is_error_text text = true).
Proof.
  split; [reflexivity|].
  exact (@calculator_recovers_without_attributes silent_runtime
           "(1 + 2" (or_introl eq_refl)).
Defined.

(** X20 at a product of 40 digits. *)
Lemma calculator_is_exact_on_integers_witness :
  calculator silent_runtime "12345678901234567890 * 98765432109876543210"
  = ([], Value "Result: 1219326311370217952237463801111263526900").
Proof.
  assert (Ha : (0 <= 12345678901234567890)%Z) by lia.
  assert (Hb : (0 <= 98765432109876543210)%Z) by lia.
  assert (Hda : digits 12345678901234567890 <= 4300) by (vm_compute; lia).
  assert (Hdb : digits 98765432109876543210 <= 4300) by (vm_compute; lia).
  exact (proj1 (proj2 (proj2
           (@calculator_is_exact_on_integers silent_runtime
              12345678901234567890 98765432109876543210 Ha Hb Hda Hdb)))).
Defined.

(** X21 at [abs.__self__.__import__('os')]. *)
Lemma import_through_attribute_access_witness :
  calculator silent_runtime "abs.__self__.__import__('os')"
  = (["os"], Value "Result: ?").
Proof.
  exact (proj1 (@import_through_attribute_access silent_runtime "abs" "os"
                  eq_refl eq_refl)).
Defined.

End CalculatorFacts.
